(** * ai-ops-assistant: the orchestration engine

    A shallow embedding of the planner / executor / verifier pipeline
    ([src/main.py], [src/agents/], [src/llm/groq_client.py],
    [src/tools/]) together with the properties its specification states.

    Conventions.
    - Python values of type [Any] are [Json] terms; a [Dict[str, Any]] is an
      association list in insertion order ([PyDict]).
    - Python exceptions are values of [Exn]; code that may raise lives in
      [Res] (pure code) or in [M] (code that talks to the outside world).
    - Everything the repository does not contain (the HTTP layer, the remote
      model, [json], process environment, a few builtins) is a field of the
      class [Externals]; every theorem holds for every instance. *)

From Stdlib Require Import ZArith Ascii String Floats.
From stdpp Require Import base option list gmap strings pretty.

Set Warnings "-register-all,-inexact-float,-clear-no-such-hyp".

Open Scope string_scope.
Open Scope list_scope.
Open Scope Z_scope.

(** ** Python values *)

Inductive Json : Type :=
| JNull
| JBool (b : bool)
| JInt (z : Z)
| JFloat (f : float)
| JStr (s : string)
| JArr (xs : list Json)
| JObj (kvs : list (string * Json)).

(** [Dict[str, Any]], keys in insertion order. *)
Abbreviation PyDict := (list (string * Json)).

(** ** Exceptions *)

Inductive ExnKind : Type :=
| KeyError | ValueError | RuntimeError | RetryableError | ValidationError
| TypeError | AttributeError | IndexError | OverflowError
| JSONDecodeError | ParseError | RequestException.

(** [exn_msg e] is [str(e)]. *)
Record Exn : Type := mkExn { exn_kind : ExnKind; exn_msg : string }.

(** [isinstance(e, RetryableError)], the only class [with_retry] retries. *)
Definition is_retryable (e : Exn) : bool :=
  match exn_kind e with RetryableError => true | _ => false end.

(** [isinstance(e, ValueError)]: both JSON decoding errors and pydantic's
    validation error derive from [ValueError]. *)
Definition is_value_error (e : Exn) : bool :=
  match exn_kind e with
  | ValueError | JSONDecodeError | ValidationError => true
  | _ => false
  end.

Inductive Res (A : Type) : Type :=
| Ok (a : A)
| Raise (e : Exn).
Arguments Ok {A} a.
Arguments Raise {A} e.

#[global] Instance Res_ret : MRet Res := @Ok.
#[global] Instance Res_bind : MBind Res := λ A B f r,
  match r with Ok a => f a | Raise e => Raise e end.

Definition res_to_option {A} (r : Res A) : option A :=
  match r with Ok a => Some a | Raise _ => None end.

Definition is_ok {A} (r : Res A) : bool :=
  match r with Ok _ => true | Raise _ => false end.

Definition throw {A} (k : ExnKind) (msg : string) : Res A := Raise (mkExn k msg).

(** ** The pieces of Python used by the sources *)

(** [str.isspace] on one character; characters are code points below 256. *)
Definition py_isspace (a : ascii) : bool :=
  let n := N_of_ascii a in
  ((9 <=? n) && (n <=? 13) || (28 <=? n) && (n <=? 32)
   || (n =? 133) || (n =? 160))%N.

Fixpoint lstrip (s : string) : string :=
  match s with
  | EmptyString => EmptyString
  | String a r => if py_isspace a then lstrip r else s
  end.

(** The longest prefix of [s] that does not end in white space. *)
Fixpoint rstrip (s : string) : string :=
  match s with
  | EmptyString => EmptyString
  | String a r =>
      match rstrip r with
      | EmptyString => if py_isspace a then EmptyString else String a EmptyString
      | r' => String a r'
      end
  end.

(** [s.strip()] *)
Definition py_strip (s : string) : string := rstrip (lstrip s).

(** [s[:n]] for [n >= 0] *)
Fixpoint str_take (n : nat) (s : string) : string :=
  match n, s with
  | S n', String a r => String a (str_take n' r)
  | _, _ => EmptyString
  end.

(** [s[n:]] for [n >= 0] *)
Fixpoint str_drop (n : nat) (s : string) : string :=
  match n, s with
  | S n', String _ r => str_drop n' r
  | _, _ => s
  end.

(** [needle in hay] on strings *)
Fixpoint str_contains (needle hay : string) : bool :=
  String.prefix needle hay
  || match hay with
     | EmptyString => false
     | String _ r => str_contains needle r
     end.

Definition str_is_empty (s : string) : bool :=
  match s with EmptyString => true | _ => false end.

(** [sep.join(parts)] *)
Fixpoint str_join (sep : string) (parts : list string) : string :=
  match parts with
  | [] => ""
  | [p] => p
  | p :: rest => p +:+ sep +:+ str_join sep rest
  end.

(** [str(l)] for a list of integers, as in [[1, 2]]. *)
Definition repr_int_list (l : list Z) : string :=
  "[" +:+ str_join ", " (map pretty l) +:+ "]".

(** [str(x)] for an optional string: [None] prints as [None]. *)
Definition str_opt (o : option string) : string :=
  match o with Some s => s | None => "None" end.

(** Truth value of a Python object. *)
Definition py_truthy (v : Json) : bool :=
  match v with
  | JNull => false
  | JBool b => b
  | JInt z => negb (z =? 0)
  | JFloat f => negb (PrimFloat.eqb f 0%float)
  | JStr s => negb (str_is_empty s)
  | JArr xs => match xs with [] => false | _ => true end
  | JObj kvs => match kvs with [] => false | _ => true end
  end.

(** [a or b] *)
Definition py_or (a b : Json) : Json := if py_truthy a then a else b.

(** Dictionary lookup, [d.get(k)] as an option. *)
Fixpoint dict_lookup (k : string) (d : PyDict) : option Json :=
  match d with
  | [] => None
  | (k', v) :: r => if String.eqb k k' then Some v else dict_lookup k r
  end.

(** [d.get(k, default)] on a dictionary. *)
Definition dict_get (d : PyDict) (k : string) (default : Json) : Json :=
  match dict_lookup k d with Some v => v | None => default end.

(** [d[k] = v]: an existing key keeps its position, a new key goes last. *)
Fixpoint dict_set (k : string) (v : Json) (d : PyDict) : PyDict :=
  match d with
  | [] => [(k, v)]
  | (k', v') :: r =>
      if String.eqb k k' then (k, v) :: r else (k', v') :: dict_set k v r
  end.

(** [x.get(k, default)] on an arbitrary value: only dictionaries have
    [get]. *)
Definition py_get (x : Json) (k : string) (default : Json) : Res Json :=
  match x with
  | JObj d => Ok (dict_get d k default)
  | _ => throw AttributeError "object has no attribute 'get'"
  end.

(** [x[:n]] for [n >= 0] on an arbitrary value. *)
Definition py_slice_to (x : Json) (n : Z) : Res Json :=
  match x with
  | JArr xs => Ok (JArr (take (Z.to_nat n) xs))
  | JStr s => Ok (JStr (str_take (Z.to_nat n) s))
  | _ => throw TypeError "object is not subscriptable"
  end.

(** The elements a [for] loop over [x] visits. *)
Definition py_iter (x : Json) : Res (list Json) :=
  match x with
  | JArr xs => Ok xs
  | JStr s => Ok (map (λ a, JStr (String a EmptyString)) (list_ascii_of_string s))
  | JObj d => Ok (map (λ kv, JStr kv.1) d)
  | _ => throw TypeError "object is not iterable"
  end.

(** [x[0]] on a truthy value. *)
Definition py_index0 (x : Json) : Res Json :=
  match x with
  | JArr (v :: _) => Ok v
  | JArr [] => throw IndexError "list index out of range"
  | JStr (String a _) => Ok (JStr (String a EmptyString))
  | JStr EmptyString => throw IndexError "string index out of range"
  | JObj _ => throw KeyError "0"
  | _ => throw TypeError "object is not subscriptable"
  end.

(** [x.strip()] on an arbitrary value: only strings have [strip]. *)
Definition py_strip_any (x : Json) : Res string :=
  match x with
  | JStr s => Ok (py_strip s)
  | _ => throw AttributeError "object has no attribute 'strip'"
  end.

(** Monadic map over a list, left to right. *)
Fixpoint res_mapM {A B} (f : A → Res B) (l : list A) : Res (list B) :=
  match l with
  | [] => Ok []
  | x :: r => y ← f x; ys ← res_mapM f r; Ok (y :: ys)
  end.

(** ** Data model ([src/agents/schemas.py]) *)

(** The values of the [Literal] type [ToolName]. *)
Definition ToolName : list string :=
  ["weather_current"; "github_repo_search"; "news_search"].

Definition is_ToolName (s : string) : bool := existsb (String.eqb s) ToolName.

Module PlanStep.
Record t : Type := mk {
  id : Z;
  action : string;
  tool_name : option string;
  tool_args : PyDict;
  output_key : string;
  depends_on : list Z }.
End PlanStep.

Module AgentPlan.
Record t : Type := mk {
  objective : string;
  assumptions : list string;
  steps : list PlanStep.t }.
End AgentPlan.

Module ToolResult.
Record t : Type := mk {
  ok : bool;
  tool_name : string;
  data : PyDict;
  error : option string;
  meta : PyDict }.
End ToolResult.

Module ExecutionState.
(** [step_status] is only ever read and written by key, so it is a finite
    map; [results] is also serialised, so it keeps its insertion order. *)
Record t : Type := mk {
  task : string;
  plan : AgentPlan.t;
  results : PyDict;
  step_status : gmap Z string;
  logs : list string }.

(** [state.step_status[i] = v] *)
Definition set_status (i : Z) (v : string) (s : t) : t :=
  mk (task s) (plan s) (results s) (<[i := v]> (step_status s)) (logs s).

(** [state.results[k] = v] *)
Definition set_result (k : string) (v : Json) (s : t) : t :=
  mk (task s) (plan s) (dict_set k v (results s)) (step_status s) (logs s).

(** [state.logs.append(line)] *)
Definition append_log (line : string) (s : t) : t :=
  mk (task s) (plan s) (results s) (step_status s) (logs s ++ [line]).
End ExecutionState.

Module VerifierStep.
Record t : Type := mk {
  id : Z;
  action : string;
  tool_name : string;
  tool_args : PyDict;
  output_key : string;
  depends_on : list Z }.
End VerifierStep.

Module VerificationResult.
Record t : Type := mk {
  status : string;
  issues : list string;
  fix_steps : list VerifierStep.t;
  final_output : PyDict }.
End VerificationResult.

(** [RunResponse] of [src/main.py]. *)
Module RunResponse.
Record t : Type := mk {
  task : string;
  plan : PyDict;
  results : PyDict;
  verification : PyDict;
  final_output : PyDict;
  logs : list string }.
End RunResponse.

(** ** The outside world *)

(** The configuration of the chat client ([src/llm/groq_client.py]). *)
Module GroqClient.
Record t : Type := mk { api_key : string; model : string }.
End GroqClient.

(** One chat turn, [{"role": ..., "content": ...}]. *)
Record Message : Type := mkMessage { role : string; content : string }.

(** What the sources read off a [requests.Response]. *)
Record Response : Type := mkResponse {
  status_code : Z;
  text : string;
  json : Res Json;            (* r.json() *)
  content_type : string;      (* r.headers.get("Content-Type", "") *)
  url : string }.

(** [r.ok]: no 4xx or 5xx status. *)
Definition Response_ok (r : Response) : bool :=
  negb ((400 <=? status_code r) && (status_code r <? 600)).

(** One [<item>] of an RSS document, as [_googlenews_rss_search] reads it:
    the three [findtext] results and the [source] element's text. *)
Record RssItem : Type := mkRssItem {
  rss_title : option string;
  rss_link : option string;
  rss_pubDate : option string;
  rss_source : option (option string) }.

(** Everything the repository relies on but does not contain. The two
    oracles thread a [World], so that the remote services may answer
    differently each time they are asked. *)
Class Externals : Type := {
  World : Type;
  (** [GroqClient.chat(messages, temperature, max_tokens, json_mode)]:
      the reply's content, or the exception the call ends with (after the
      client's own retries). The content is whatever the decoded body holds
      at [choices[0].message.content]: a string as a rule, but nothing in
      the client checks it, and [null] is what a reply without text
      carries. *)
  groq_chat :
    GroqClient.t → list Message → float → Z → bool → World → Res Json * World;
  (** [requests.get(url, params=..., headers=...)] *)
  requests_get :
    string → PyDict → list (string * string) → World → Res Response * World;
  (** [os.getenv] *)
  getenv : string → option string;
  (** [json.loads] *)
  json_loads : string → Res Json;
  (** [json.dumps(x, ensure_ascii=False, indent=2)] *)
  json_dumps : Json → string;
  (** [repr] *)
  py_repr : Json → string;
  (** [int(x)] for a float and for a string *)
  int_of_float : float → Res Z;
  int_of_str : string → Res Z;
  (** [float(n)] for an integer, as done by mixed arithmetic *)
  float_of_int : Z → Res float;
  (** the integer equal to a float, when there is one *)
  float_as_int : float → option Z;
  (** [s.upper()], [s.lower()] *)
  str_upper : string → string;
  str_lower : string → string;
  (** [datetime.utcfromtimestamp(t).strftime("%Y-%m-%dT%H:%M")] *)
  utc_strftime : Z → Res string;
  (** [ET.fromstring(text).findall(".//item")] *)
  rss_items : string → Res (list RssItem);
  (** pydantic's reading of a value as an [int] field *)
  pydantic_int : Json → option Z;
  (** The wording of the prompts ([src/llm/prompts.py]):
      [PLANNER_SYSTEM], [PLANNER_USER_TEMPLATE.format(task=...,
      tool_catalog_json=...)] with the catalog already serialised,
      [VERIFIER_SYSTEM], and [VERIFIER_USER_TEMPLATE.format(task=...,
      plan_json=..., results_json=...)]. *)
  PLANNER_SYSTEM : string;
  planner_user_prompt : string → string;
  VERIFIER_SYSTEM : string;
  verifier_user_prompt : string → string → string → string;
}.

(** Computations that may raise and that thread a state of type [S]: the
    [World] for the tools, the whole system state [Sys] for the agents. *)
Definition M (S A : Type) : Type := S → Res A * S.

#[global] Instance M_ret {S} : MRet (M S) := λ A a σ, (Ok a, σ).
#[global] Instance M_bind {S} : MBind (M S) := λ A B f m σ,
  match m σ with
  | (Ok a, σ') => f a σ'
  | (Raise e, σ') => (Raise e, σ')
  end.

(** [raise e] *)
Definition raise_exn {S A} (e : Exn) : M S A := λ σ, (Raise e, σ).
Definition raise {S A} (k : ExnKind) (msg : string) : M S A :=
  raise_exn (mkExn k msg).

(** Pure code run inside [M]. *)
Definition lift {S A} (r : Res A) : M S A := λ σ, (r, σ).

(** [try: m  except Exception as e: ...], with the handler left to the
    caller. *)
Definition attempt {S A} (m : M S A) : M S (Res A) := λ σ,
  let '(r, σ') := m σ in (Ok r, σ').

Definition http_get `{Externals}
    (u : string) (params : PyDict) (headers : list (string * string))
    : M World Response :=
  requests_get u params headers.

(** What the model records besides the world: the chat turns with their
    replies and the executor batches, in order. *)
Inductive Event : Type :=
| EvChat (messages : list Message) (json_mode : bool) (reply : Res Json)
| EvBatch (steps : list PlanStep.t).

Record Sys `{Externals} : Type := mkSys { world : World; trace : list Event }.
Arguments mkSys {_} world trace.

(** A computation on the world, run inside the system. *)
Definition in_world `{Externals} {A} (m : M World A) : M Sys A := λ σ,
  let '(r, w) := m (world σ) in (r, mkSys w (trace σ)).

Definition emit `{Externals} (e : Event) : M Sys unit := λ σ,
  (Ok tt, mkSys (world σ) (trace σ ++ [e])).

(** [llm.chat(messages, temperature=..., max_tokens=..., json_mode=...)
    .content] *)
Definition GroqClient_chat `{Externals} (self : GroqClient.t)
    (messages : list Message) (temperature : float) (max_tokens : Z)
    (json_mode : bool) : M Sys Json := λ σ,
  let '(r, w) :=
    groq_chat self messages temperature max_tokens json_mode (world σ) in
  (r, mkSys w (trace σ ++ [EvChat messages json_mode r])).

(** [str(x)] *)
Definition py_str `{Externals} (x : Json) : string :=
  match x with JStr s => s | _ => py_repr x end.

(** [int(x)] *)
Definition py_int `{Externals} (x : Json) : Res Z :=
  match x with
  | JInt z => Ok z
  | JBool b => Ok (if b then 1 else 0)
  | JFloat f => int_of_float f
  | JStr s => int_of_str s
  | _ => throw TypeError "int() argument must be a string or a number"
  end.

(** ** Retrying ([src/utils/retry.py]) *)

(** [with_retry(attempts)]: call again while the call raises
    [RetryableError], at most [attempts] calls in all (and at least one);
    the last exception is re-raised. Waiting between calls is not
    modelled. *)
Fixpoint with_retry {S A} (attempts : nat) (f : M S A) : M S A :=
  match attempts with
  | S (S _ as n) =>
      r ← attempt f;
      match r with
      | Ok a => mret a
      | Raise e => if is_retryable e then with_retry n f else raise_exn e
      end
  | _ => f
  end.

(** The statuses every [_get] treats as transient. *)
Definition transient_status (c : Z) : bool :=
  existsb (Z.eqb c) [429; 500; 502; 503; 504].

(** [ToolResult(ok=..., tool_name=..., data=..., error=..., meta=...)]:
    the only field of the constructor calls in the sources that can fail
    validation is [tool_name], which must be a [ToolName]. *)
Definition ToolResult_init (ok : bool) (tool_name : string) (data : PyDict)
    (error : option string) (meta : PyDict) : Res ToolResult.t :=
  if is_ToolName tool_name
  then Ok (ToolResult.mk ok tool_name data error meta)
  else throw ValidationError "tool_name: input should be one of the tool names".

(** [tool_res.model_dump()] *)
Definition opt_json (o : option string) : Json :=
  match o with Some s => JStr s | None => JNull end.

Definition ToolResult_model_dump (r : ToolResult.t) : Json :=
  JObj [("ok", JBool (ToolResult.ok r));
        ("tool_name", JStr (ToolResult.tool_name r));
        ("data", JObj (ToolResult.data r));
        ("error", opt_json (ToolResult.error r));
        ("meta", JObj (ToolResult.meta r))].

(** [o or default] and the truth value of an optional string. *)
Definition opt_or (o : option string) (default : string) : string :=
  match o with
  | Some s => if str_is_empty s then default else s
  | None => default
  end.

Definition opt_truthy (o : option string) : bool :=
  match o with Some s => negb (str_is_empty s) | None => false end.

(** ** GitHub repository search ([src/tools/github_tool.py]) *)

Module GitHubTool.
Definition name : string := "github_repo_search".
Definition base_url : string := "https://api.github.com".

Definition _get `{Externals} (path : string) (params : PyDict) : M World Response :=
  with_retry 3
    (let u := base_url +:+ path in
     let headers := [("Accept", "application/vnd.github+json");
                     ("User-Agent", "ai-ops-assistant")] in
     rr ← attempt (http_get u params headers);
     match rr with
     | Raise e =>
         match exn_kind e with
         | RequestException =>
             raise RetryableError ("GitHub request failed: " +:+ exn_msg e)
         | _ => raise_exn e
         end
     | Ok r =>
         if transient_status (status_code r) then
           raise RetryableError
             ("GitHub transient error " +:+ pretty (status_code r) +:+ ": "
              +:+ str_take 200 (text r))
         else if (status_code r =? 403)
                 && str_contains "rate limit" (str_lower (text r)) then
           raise RetryableError
             ("GitHub rate limited: " +:+ str_take 200 (text r))
         else mret r
     end).

(** One entry of the [items] list. *)
Definition item (it : Json) : Res Json :=
  n ← py_get it "name" JNull;
  fn ← py_get it "full_name" JNull;
  st ← py_get it "stargazers_count" JNull;
  ds ← py_get it "description" JNull;
  hu ← py_get it "html_url" JNull;
  lg ← py_get it "language" JNull;
  Ok (JObj [("name", n); ("full_name", fn); ("stars", st);
            ("description", ds); ("url", hu); ("language", lg)]).

Definition call `{Externals} (tool_args : PyDict) : M World ToolResult.t :=
  let query := py_strip (py_str (dict_get tool_args "query" (JStr ""))) in
  top_n ← lift (py_int (dict_get tool_args "top_n" (JInt 5)));
  if str_is_empty query then
    lift (ToolResult_init false name [] (Some "Missing 'query'") [])
  else
    let top_n := Z.max 1 (Z.min top_n 20) in
    let params := [("q", JStr query); ("sort", JStr "stars");
                   ("order", JStr "desc"); ("per_page", JInt top_n)] in
    rr ← attempt (_get "/search/repositories" params);
    match rr with
    | Raise e => lift (ToolResult_init false name [] (Some (exn_msg e)) [])
    | Ok r =>
        if negb (Response_ok r) then
          lift (ToolResult_init false name []
                  (Some ("GitHub error " +:+ pretty (status_code r) +:+ ": "
                         +:+ str_take 200 (text r)))
                  [("status_code", JInt (status_code r))])
        else
          data ← lift (json r);
          items ← lift (src ← py_get data "items" (JArr []);
                        sl ← py_slice_to src top_n;
                        its ← py_iter sl;
                        res_mapM item its);
          total ← lift (py_get data "total_count" JNull);
          lift (ToolResult_init true name
                  [("query", JStr query); ("items", JArr items)] None
                  [("total_count", total);
                   ("status_code", JInt (status_code r))])
    end.
End GitHubTool.

(** ** Current weather ([src/tools/weather_tool.py]) *)

Definition _OPEN_METEO_CODE_MAP : list (Z * string) :=
  [(0, "Clear sky"); (1, "Mainly clear"); (2, "Partly cloudy"); (3, "Overcast");
   (45, "Fog"); (48, "Depositing rime fog");
   (51, "Light drizzle"); (53, "Moderate drizzle"); (55, "Dense drizzle");
   (56, "Light freezing drizzle"); (57, "Dense freezing drizzle");
   (61, "Slight rain"); (63, "Moderate rain"); (65, "Heavy rain");
   (66, "Light freezing rain"); (67, "Heavy freezing rain");
   (71, "Slight snow fall"); (73, "Moderate snow fall"); (75, "Heavy snow fall");
   (77, "Snow grains");
   (80, "Slight rain showers"); (81, "Moderate rain showers");
   (82, "Violent rain showers");
   (85, "Slight snow showers"); (86, "Heavy snow showers");
   (95, "Thunderstorm"); (96, "Thunderstorm with slight hail");
   (99, "Thunderstorm with heavy hail")].

Fixpoint code_lookup (c : Z) (m : list (Z * string)) : option string :=
  match m with
  | [] => None
  | (k, v) :: r => if k =? c then Some v else code_lookup c r
  end.

Module WeatherTool.
Definition name : string := "weather_current".

Record t : Type := mk { openweather_key : string }.

(** [WeatherTool()] *)
Definition init `{Externals} : t :=
  mk (py_strip (opt_or (getenv "OPENWEATHER_API_KEY") "")).

Definition _get `{Externals} (u : string) (params : PyDict) : M World Response :=
  with_retry 3
    (rr ← attempt (http_get u params []);
     match rr with
     | Raise e =>
         match exn_kind e with
         | RequestException =>
             raise RetryableError ("HTTP request failed: " +:+ exn_msg e)
         | _ => raise_exn e
         end
     | Ok r =>
         if transient_status (status_code r) then
           raise RetryableError
             ("Transient HTTP " +:+ pretty (status_code r) +:+ ": "
              +:+ str_take 200 (text r))
         else mret r
     end).

(** [None] is [JNull]. *)
Definition _ow_geocode `{Externals} (self : t) (city : string) : M World Json :=
  let params := [("q", JStr city); ("limit", JInt 1);
                 ("appid", JStr (openweather_key self))] in
  r ← _get "https://api.openweathermap.org/geo/1.0/direct" params;
  if negb (Response_ok r) then mret JNull
  else
    data ← lift (json r);
    match data with
    | JArr (x :: _) => mret x
    | _ => mret JNull
    end.

Definition _ow_local_time `{Externals} (dt_utc tz_offset_s : Z) : Res string :=
  utc_strftime (dt_utc + tz_offset_s).

(** [(wind_ms * 3.6) if isinstance(wind_ms, (int, float)) else None] *)
Definition wind_kph_of `{Externals} (wind_ms : Json) : Res Json :=
  match wind_ms with
  | JFloat f => Ok (JFloat (f * 3.6)%float)
  | JInt z => f ← float_of_int z; Ok (JFloat (f * 3.6)%float)
  | JBool b => f ← float_of_int (if b then 1 else 0); Ok (JFloat (f * 3.6)%float)
  | _ => Ok JNull
  end.

Definition _openweather_current `{Externals} (self : t) (city : string)
    : M World ToolResult.t :=
  if str_is_empty (openweather_key self) then
    lift (ToolResult_init false name [] (Some "OPENWEATHER_API_KEY not set")
            [("provider", JStr "openweather")])
  else
    geo ← _ow_geocode self city;
    if negb (py_truthy geo) then
      lift (ToolResult_init false name []
              (Some ("OpenWeather geocode failed for: " +:+ city))
              [("provider", JStr "openweather")])
    else
      lat ← lift (py_get geo "lat" JNull);
      lon ← lift (py_get geo "lon" JNull);
      gname ← lift (py_get geo "name" JNull);
      let resolved_name := py_or gname (JStr city) in
      country ← lift (py_get geo "country" JNull);
      region ← lift (py_get geo "state" JNull);
      let params := [("lat", lat); ("lon", lon);
                     ("appid", JStr (openweather_key self));
                     ("units", JStr "metric")] in
      r ← _get "https://api.openweathermap.org/data/2.5/weather" params;
      if negb (Response_ok r) then
        lift (ToolResult_init false name []
                (Some ("OpenWeather error " +:+ pretty (status_code r) +:+ ": "
                       +:+ str_take 200 (text r)))
                [("provider", JStr "openweather");
                 ("status_code", JInt (status_code r))])
      else
        j ← lift (json r);
        jmain ← lift (py_get j "main" JNull);
        let main := py_or jmain (JObj []) in
        jwind ← lift (py_get j "wind" JNull);
        let wind := py_or jwind (JObj []) in
        jweather ← lift (py_get j "weather" JNull);
        let weather_arr := py_or jweather (JArr []) in
        weather0 ← lift (if py_truthy weather_arr then py_index0 weather_arr
                         else Ok (JObj []));
        temp_c ← lift (py_get main "temp" JNull);
        feels_c ← lift (py_get main "feels_like" JNull);
        humidity ← lift (py_get main "humidity" JNull);
        wind_ms ← lift (py_get wind "speed" JNull);
        wind_kph ← lift (wind_kph_of wind_ms);
        jdesc ← lift (py_get weather0 "description" JNull);
        desc ← lift (py_strip_any (py_or jdesc (JStr "")));
        let conditions :=
          if str_is_empty desc then JNull
          else JStr (str_upper (str_take 1 desc) +:+ str_drop 1 desc) in
        dt_utc ← lift (py_get j "dt" JNull);
        tz_offset ← lift (py_get j "timezone" (JInt 0));
        observed_at ← lift
          (match dt_utc with
           | JInt _ | JBool _ =>
               d ← py_int dt_utc; o ← py_int tz_offset;
               s ← _ow_local_time d o; Ok (JStr s)
           | _ => Ok JNull
           end);
        let out := [("city", resolved_name); ("region", region);
                    ("country", country); ("latitude", lat);
                    ("longitude", lon); ("temperature_c", temp_c);
                    ("apparent_temperature_c", feels_c);
                    ("humidity_pct", humidity); ("wind_kph", wind_kph);
                    ("conditions", conditions);
                    ("observed_at", observed_at)] in
        lift (ToolResult_init true name out None
                [("provider", JStr "openweather");
                 ("status_code", JInt (status_code r))]).

Definition _om_geocode `{Externals} (city : string) : M World Json :=
  let params := [("name", JStr city); ("count", JInt 1);
                 ("language", JStr "en"); ("format", JStr "json")] in
  r ← _get "https://geocoding-api.open-meteo.com/v1/search" params;
  if negb (Response_ok r) then mret JNull
  else
    j ← lift (json r);
    jres ← lift (py_get j "results" JNull);
    let results := py_or jres (JArr []) in
    if negb (py_truthy results) then mret JNull
    else lift (py_index0 results).

(** [_OPEN_METEO_CODE_MAP.get(code, default)]: the keys are integers, which
    an equal float or boolean also finds; a list or a dictionary cannot be
    looked up at all. *)
Definition code_conditions `{Externals} (code : Json) : Res Json :=
  let default :=
    match code with
    | JNull => JNull
    | _ => JStr ("Weather code " +:+ py_str code)
    end in
  let found (c : Z) :=
    match code_lookup c _OPEN_METEO_CODE_MAP with
    | Some s => JStr s
    | None => default
    end in
  match code with
  | JInt z => Ok (found z)
  | JBool b => Ok (found (if b then 1 else 0))
  | JFloat f =>
      match float_as_int f with Some z => Ok (found z) | None => Ok default end
  | JArr _ | JObj _ => throw TypeError "unhashable type"
  | _ => Ok default
  end.

Definition _open_meteo_current `{Externals} (city : string) : M World ToolResult.t :=
  geo ← _om_geocode city;
  if negb (py_truthy geo) then
    lift (ToolResult_init false name []
            (Some ("Open-Meteo geocode failed for: " +:+ city))
            [("provider", JStr "open-meteo")])
  else
    lat ← lift (py_get geo "latitude" JNull);
    lon ← lift (py_get geo "longitude" JNull);
    gname ← lift (py_get geo "name" JNull);
    let resolved_name := py_or gname (JStr city) in
    country ← lift (py_get geo "country" JNull);
    region ← lift (py_get geo "admin1" JNull);
    let params :=
      [("latitude", lat); ("longitude", lon);
       ("current", JStr "temperature_2m,apparent_temperature,relative_humidity_2m,wind_speed_10m,weather_code");
       ("timezone", JStr "auto")] in
    r ← _get "https://api.open-meteo.com/v1/forecast" params;
    if negb (Response_ok r) then
      lift (ToolResult_init false name []
              (Some ("Open-Meteo error " +:+ pretty (status_code r) +:+ ": "
                     +:+ str_take 200 (text r)))
              [("provider", JStr "open-meteo");
               ("status_code", JInt (status_code r))])
    else
      j ← lift (json r);
      jcur ← lift (py_get j "current" JNull);
      let cur := py_or jcur (JObj []) in
      temp_c ← lift (py_get cur "temperature_2m" JNull);
      feels_c ← lift (py_get cur "apparent_temperature" JNull);
      humidity ← lift (py_get cur "relative_humidity_2m" JNull);
      wind_kph ← lift (py_get cur "wind_speed_10m" JNull);
      code ← lift (py_get cur "weather_code" JNull);
      conditions ← lift (code_conditions code);
      observed_at ← lift (py_get cur "time" JNull);
      let out := [("city", resolved_name); ("region", region);
                  ("country", country); ("latitude", lat);
                  ("longitude", lon); ("temperature_c", temp_c);
                  ("apparent_temperature_c", feels_c);
                  ("humidity_pct", humidity); ("wind_kph", wind_kph);
                  ("conditions", conditions);
                  ("observed_at", observed_at)] in
      lift (ToolResult_init true name out None
              [("provider", JStr "open-meteo");
               ("status_code", JInt (status_code r))]).

Definition with_meta (r : ToolResult.t) (meta : PyDict) : ToolResult.t :=
  ToolResult.mk (ToolResult.ok r) (ToolResult.tool_name r) (ToolResult.data r)
                (ToolResult.error r) meta.

Definition call `{Externals} (self : t) (tool_args : PyDict) : M World ToolResult.t :=
  let city := py_strip (py_str (dict_get tool_args "city" (JStr ""))) in
  if str_is_empty city then
    lift (ToolResult_init false name [] (Some "Missing 'city'") [])
  else
    (* try OpenWeather first, only if a key exists; [inl] is the early
       [return ow_res], [inr] carries [ow_error] on *)
    first ← (if negb (str_is_empty (openweather_key self)) then
               ow_res ← _openweather_current self city;
               if ToolResult.ok ow_res then mret (inl ow_res)
               else mret (inr (Some (opt_or (ToolResult.error ow_res)
                                            "OpenWeather failed")))
             else mret (inr None));
    match first with
    | inl ow_res => mret ow_res
    | inr ow_error =>
        (* fall back to Open-Meteo *)
        om_res ← _open_meteo_current city;
        if ToolResult.ok om_res then
          let meta := ToolResult.meta om_res in
          let meta :=
            if opt_truthy ow_error then
              dict_set "openweather_error" (opt_json ow_error)
                (dict_set "fallback_from" (JStr "openweather") meta)
            else meta in
          mret (with_meta om_res meta)
        else
          let combined := "Weather lookup failed." in
          let details :=
            ((if opt_truthy ow_error
              then ["OpenWeather: " +:+ str_opt ow_error] else [])
             ++ ["Open-Meteo: " +:+ opt_or (ToolResult.error om_res) "failed"])%list in
          lift (ToolResult_init false name []
                  (Some (combined +:+ " " +:+ str_join " | " details))
                  [("provider", JStr "combined")])
    end.
End WeatherTool.

(** ** News search ([src/tools/news_tool.py]) *)

Module NewsTool.
Definition name : string := "news_search".

Record t : Type := mk { newsapi_key : string }.

(** [NewsTool()] *)
Definition init `{Externals} : t := mk (opt_or (getenv "NEWSAPI_KEY") "").

(** [{**default_headers, **(headers or {})}] *)
Fixpoint merge_headers (base extra : list (string * string))
    : list (string * string) :=
  match extra with
  | [] => base
  | (k, v) :: r =>
      let fix put (l : list (string * string)) :=
        match l with
        | [] => [(k, v)]
        | (k', v') :: l' =>
            if String.eqb k k' then (k, v) :: l' else (k', v') :: put l'
        end in
      merge_headers (put base) r
  end.

Definition _get `{Externals} (u : string) (params : PyDict)
    (headers : list (string * string)) (require_body : bool) : M World Response :=
  with_retry 3
    (let default_headers :=
       [("User-Agent", "ai_ops_assistant/1.0");
        ("Accept", "application/json, text/plain;q=0.9, */*;q=0.8")] in
     let merged_headers := merge_headers default_headers headers in
     rr ← attempt (http_get u params merged_headers);
     match rr with
     | Raise e =>
         match exn_kind e with
         | RequestException =>
             raise RetryableError ("News request failed: " +:+ exn_msg e)
         | _ => raise_exn e
         end
     | Ok r =>
         if transient_status (status_code r) then
           raise RetryableError
             ("News transient error " +:+ pretty (status_code r) +:+ ": "
              +:+ str_take 200 (text r))
         else if require_body && str_is_empty (py_strip (text r)) then
           raise RetryableError "News provider returned an empty response body"
         else mret r
     end).

(** Returns [(data, error_message)]; a [ValueError] from [r.json()] becomes
    the message, anything else propagates. *)
Definition _safe_json `{Externals} (r : Response) : Res (Json * option string) :=
  match json r with
  | Ok d => Ok (d, None)
  | Raise e =>
      if is_value_error e then
        let body_head := str_take 300 (py_strip (text r)) in
        Ok (JNull,
            Some ("status=" +:+ pretty (status_code r) +:+ ", content_type="
                  +:+ content_type r +:+ ", body_head="
                  +:+ py_repr (JStr body_head)))
      else Raise e
  end.

(** The meta dictionary of a failed provider call. *)
Definition failure_meta (provider : string) (r : Response) : PyDict :=
  [("provider", JStr provider); ("status_code", JInt (status_code r));
   ("content_type", JStr (content_type r)); ("final_url", JStr (url r))].

Definition _newsapi_search `{Externals} (self : t) (query : string) (top_n : Z)
    : M World ToolResult.t :=
  let params := [("q", JStr query); ("pageSize", JInt top_n);
                 ("sortBy", JStr "publishedAt"); ("language", JStr "en")] in
  let headers := [("X-Api-Key", newsapi_key self)] in
  rr ← attempt (_get "https://newsapi.org/v2/everything" params headers true);
  match rr with
  | Raise e =>
      lift (ToolResult_init false name [] (Some (exn_msg e))
              [("provider", JStr "newsapi")])
  | Ok r =>
      if negb (Response_ok r) then
        lift (ToolResult_init false name []
                (Some ("NewsAPI error " +:+ pretty (status_code r) +:+ ": "
                       +:+ str_take 200 (text r)))
                (failure_meta "newsapi" r))
      else
        '(data, parse_err) ← lift (_safe_json r);
        if opt_truthy parse_err then
          lift (ToolResult_init false name []
                  (Some ("NewsAPI parse error: " +:+ str_opt parse_err))
                  (failure_meta "newsapi" r))
        else
          let d := py_or data (JObj []) in
          st ← lift (py_get d "status" JNull);
          if negb (match st with JStr s => String.eqb s "ok" | _ => false end) then
            (* HTTP 200 with an error payload *)
            jmsg ← lift (py_get d "message" JNull);
            let msg := py_or jmsg (JStr "Unknown NewsAPI error") in
            code ← lift (py_get d "code" JNull);
            code_s ← lift (py_strip_any (py_or code (JStr "")));
            lift (ToolResult_init false name []
                    (Some (py_strip ("NewsAPI returned error: " +:+ code_s
                                     +:+ " " +:+ py_str msg)))
                    [("provider", JStr "newsapi");
                     ("status_code", JInt (status_code r));
                     ("newsapi_code", code); ("final_url", JStr (url r))])
          else
            jarts ← lift (py_get d "articles" JNull);
            let articles_in := py_or jarts (JArr []) in
            articles ← lift
              (sl ← py_slice_to articles_in top_n;
               its ← py_iter sl;
               res_mapM (λ a,
                 jsrc ← py_get a "source" JNull;
                 source ← py_get (py_or jsrc (JObj [])) "name" JNull;
                 title ← py_get a "title" JNull;
                 u ← py_get a "url" JNull;
                 pa ← py_get a "publishedAt" JNull;
                 Ok (JObj [("title", title); ("source", source); ("url", u);
                           ("published_at", pa)])) its);
            lift (ToolResult_init true name
                    [("query", JStr query); ("articles", JArr articles);
                     ("provider", JStr "newsapi")] None
                    [("provider", JStr "newsapi");
                     ("status_code", JInt (status_code r))])
  end.

(** [a.get(k1) or a.get(k2) or a.get(k3)] *)
Definition get_first3 (a : Json) (k1 k2 k3 : string) : Res Json :=
  v1 ← py_get a k1 JNull;
  if py_truthy v1 then Ok v1
  else v2 ← py_get a k2 JNull;
       if py_truthy v2 then Ok v2 else py_get a k3 JNull.

Definition _gdelt_search `{Externals} (query : string) (top_n : Z)
    : M World ToolResult.t :=
  let params := [("query", JStr query); ("mode", JStr "ArtList");
                 ("format", JStr "json"); ("maxrecords", JInt top_n);
                 ("sort", JStr "HybridRel")] in
  rr ← attempt (_get "https://api.gdeltproject.org/api/v2/doc/doc" params [] true);
  match rr with
  | Raise e =>
      lift (ToolResult_init false name [] (Some (exn_msg e))
              [("provider", JStr "gdelt")])
  | Ok r =>
      if negb (Response_ok r) then
        lift (ToolResult_init false name []
                (Some ("GDELT error " +:+ pretty (status_code r) +:+ ": "
                       +:+ str_take 200 (text r)))
                (failure_meta "gdelt" r))
      else
        '(data, parse_err) ← lift (_safe_json r);
        if opt_truthy parse_err then
          let hint :=
            if (Z.of_nat (String.length query) <? 3)
               || str_contains "too short" (str_lower (text r))
            then " Hint: try a longer query like 'artificial intelligence' or 'generative ai'."
            else "" in
          lift (ToolResult_init false name []
                  (Some ("GDELT parse error: " +:+ str_opt parse_err +:+ "."
                         +:+ hint))
                  (failure_meta "gdelt" r))
        else
          jarts ← lift (py_get (py_or data (JObj [])) "articles" JNull);
          let articles_in := py_or jarts (JArr []) in
          articles ← lift
            (sl ← py_slice_to articles_in top_n;
             its ← py_iter sl;
             res_mapM (λ a,
               title ← py_get a "title" JNull;
               source ← get_first3 a "sourceCountry" "source" "domain";
               u ← py_get a "url" JNull;
               pa ← get_first3 a "seendate" "published" "datetime";
               Ok (JObj [("title", title); ("source", source); ("url", u);
                         ("published_at", pa)])) its);
          lift (ToolResult_init true name
                  [("query", JStr query); ("articles", JArr articles);
                   ("provider", JStr "gdelt")] None
                  [("provider", JStr "gdelt");
                   ("status_code", JInt (status_code r))])
  end.

(** [(x or "").strip() or None] *)
Definition stripped_or_none (o : option string) : Json :=
  let s := py_strip (opt_or o "") in
  if str_is_empty s then JNull else JStr s.

Definition rss_article (it : RssItem) : Json :=
  let source :=
    match rss_source it with
    | Some (Some t) => if str_is_empty t then JNull else JStr (py_strip t)
    | _ => JNull
    end in
  JObj [("title", stripped_or_none (rss_title it)); ("source", source);
        ("url", stripped_or_none (rss_link it));
        ("published_at", stripped_or_none (rss_pubDate it))].

Definition _googlenews_rss_search `{Externals} (query : string) (top_n : Z)
    : M World ToolResult.t :=
  let params := [("q", JStr query); ("hl", JStr "en-US"); ("gl", JStr "US");
                 ("ceid", JStr "US:en")] in
  let headers :=
    [("Accept", "application/rss+xml, application/xml;q=0.9, */*;q=0.8")] in
  rr ← attempt (_get "https://news.google.com/rss/search" params headers true);
  match rr with
  | Raise e =>
      lift (ToolResult_init false name [] (Some (exn_msg e))
              [("provider", JStr "googlenews_rss")])
  | Ok r =>
      if negb (Response_ok r) then
        lift (ToolResult_init false name []
                (Some ("Google News RSS error " +:+ pretty (status_code r)
                       +:+ ": " +:+ str_take 200 (text r)))
                (failure_meta "googlenews_rss" r))
      else
        match rss_items (text r) with
        | Raise e =>
            match exn_kind e with
            | ParseError =>
                lift (ToolResult_init false name []
                        (Some ("Google News RSS parse error: " +:+ exn_msg e))
                        (failure_meta "googlenews_rss" r))
            | _ => raise_exn e
            end
        | Ok items =>
            let articles := map rss_article (take (Z.to_nat top_n) items) in
            lift (ToolResult_init true name
                    [("query", JStr query); ("articles", JArr articles);
                     ("provider", JStr "googlenews_rss")] None
                    [("provider", JStr "googlenews_rss");
                     ("status_code", JInt (status_code r))])
        end
  end.

(** [res.meta[k] = v] *)
Definition set_meta (k : string) (v : Json) (r : ToolResult.t) : ToolResult.t :=
  ToolResult.mk (ToolResult.ok r) (ToolResult.tool_name r) (ToolResult.data r)
                (ToolResult.error r) (dict_set k v (ToolResult.meta r)).

Definition call `{Externals} (self : t) (tool_args : PyDict) : M World ToolResult.t :=
  let query := py_strip (py_str (dict_get tool_args "query" (JStr ""))) in
  top_n ← lift (py_int (dict_get tool_args "top_n" (JInt 5)));
  if str_is_empty query then
    lift (ToolResult_init false name [] (Some "Missing 'query'") [])
  else
    let top_n := Z.max 1 (Z.min top_n 20) in
    if negb (str_is_empty (newsapi_key self)) then
      (* 1) primary: NewsAPI *)
      res ← _newsapi_search self query top_n;
      if ToolResult.ok res then mret res
      else
        (* 2) fallback: GDELT *)
        gd ← _gdelt_search query top_n;
        if ToolResult.ok gd then
          mret (set_meta "newsapi_error" (opt_json (ToolResult.error res))
                  (set_meta "fallback_from" (JStr "newsapi") gd))
        else
          (* 3) last fallback: Google News RSS *)
          rss ← _googlenews_rss_search query top_n;
          if ToolResult.ok rss then
            mret (set_meta "gdelt_error" (opt_json (ToolResult.error gd))
                    (set_meta "newsapi_error" (opt_json (ToolResult.error res))
                       (set_meta "fallback_from" (JStr "gdelt") rss)))
          else
            mret (set_meta "gdelt_error" (opt_json (ToolResult.error gd))
                    (set_meta "newsapi_error" (opt_json (ToolResult.error res))
                       rss))
    else
      (* no NewsAPI key: start at GDELT, then RSS *)
      gd ← _gdelt_search query top_n;
      if ToolResult.ok gd then mret gd
      else
        rss ← _googlenews_rss_search query top_n;
        if ToolResult.ok rss then
          mret (set_meta "gdelt_error" (opt_json (ToolResult.error gd))
                  (set_meta "fallback_from" (JStr "gdelt") rss))
        else
          mret (set_meta "gdelt_error" (opt_json (ToolResult.error gd)) rss).
End NewsTool.

(** ** Tool registry ([src/tools/base.py], [src/tools/registry.py]) *)

Inductive BaseTool : Type :=
| GitHub
| Weather (self : WeatherTool.t)
| News (self : NewsTool.t).

(** [tool.call(tool_args)] *)
Definition BaseTool_call `{Externals} (tool : BaseTool) (tool_args : PyDict)
    : M World ToolResult.t :=
  match tool with
  | GitHub => GitHubTool.call tool_args
  | Weather self => WeatherTool.call self tool_args
  | News self => NewsTool.call self tool_args
  end.

Definition _TOOL_REGISTRY `{Externals} : gmap string BaseTool :=
  <["github_repo_search" := GitHub]>
    (<["weather_current" := Weather WeatherTool.init]>
       (<["news_search" := News NewsTool.init]> ∅)).

(** [str] of a [KeyError] is the [repr] of its argument. *)
Definition get_tool `{Externals} (tool_name : string) : Res BaseTool :=
  match _TOOL_REGISTRY !! tool_name with
  | None => throw KeyError (py_repr (JStr ("Unknown tool: " +:+ tool_name)))
  | Some tool => Ok tool
  end.

(** ** Schema validation ([src/agents/schemas.py]) *)

(** A [ValueError] raised by a field validator is reported by pydantic as a
    validation error; other exceptions pass through. *)
Definition as_validation {A} (r : Res A) : Res A :=
  match r with
  | Raise e =>
      if is_value_error e then throw ValidationError (exn_msg e) else Raise e
  | _ => r
  end.

(** [Field(..., ge=n)] and [Field(..., min_length=n)] on a string *)
Definition check_ge (field : string) (n v : Z) : Res Z :=
  if n <=? v then Ok v
  else throw ValidationError (field +:+ ": input should be greater than or equal to "
                              +:+ pretty n).

Definition check_min_length (field : string) (n : nat) (v : string) : Res string :=
  if (n <=? String.length v)%nat then Ok v
  else throw ValidationError (field +:+ ": string is too short").

(** [Literal[...]] *)
Definition check_literal (field : string) (values : list string) (v : string)
    : Res string :=
  if existsb (String.eqb v) values then Ok v
  else throw ValidationError (field +:+ ": input is not one of the literals").

(** The validator of [PlanStep.depends_on]. [info_data_id] is
    [info.data.get("id")]: the identifier when it passed its own validation,
    [None] otherwise. *)
Definition depends_on_no_self (v : list Z) (info_data_id : option Z)
    : Res (list Z) :=
  match info_data_id with
  | Some step_id =>
      if negb (step_id =? 0) && existsb (Z.eqb step_id) v
      then throw ValueError "depends_on cannot include step id itself"
      else Ok v
  | None => Ok v
  end.

(** [PlanStep(id=..., action=..., tool_name=..., tool_args=...,
    output_key=..., depends_on=...)]: every field is validated on its own,
    the step exists when all of them pass. *)
Definition PlanStep_init (id : Z) (action : string) (tool_name : option string)
    (tool_args : PyDict) (output_key : string) (depends_on : list Z)
    : Res PlanStep.t :=
  let r_id := check_ge "id" 1 id in
  let r_action := check_min_length "action" 1 action in
  let r_tool :=
    match tool_name with
    | None => Ok None
    | Some s => s' ← check_literal "tool_name" ToolName s; Ok (Some s')
    end in
  let r_key := check_min_length "output_key" 1 output_key in
  let r_deps := as_validation (depends_on_no_self depends_on (res_to_option r_id)) in
  i ← r_id; a ← r_action; tn ← r_tool; k ← r_key; d ← r_deps;
  Ok (PlanStep.mk i a tn tool_args k d).

(** The validator of [AgentPlan.steps]. *)
Definition unique_ids (steps : list PlanStep.t) : Res (list PlanStep.t) :=
  let ids := map PlanStep.id steps in
  if negb (length ids =? size (list_to_set ids : gset Z))%nat then
    throw ValueError "Step ids must be unique"
  else
    (* ensure there is a compose_final at the end *)
    match last steps with
    | None => throw IndexError "list index out of range"
    | Some l =>
        if negb (String.eqb (PlanStep.output_key l) "final")
           || negb (match PlanStep.tool_name l with None => true | _ => false end)
        then throw ValueError
               "Last step must be compose_final (tool_name=null, output_key='final')"
        else Ok steps
    end.

(** [AgentPlan(objective=..., assumptions=..., steps=...)]; the length bound
    of [steps] is checked before its validator runs. *)
Definition AgentPlan_init (objective : string) (assumptions : list string)
    (steps : list PlanStep.t) : Res AgentPlan.t :=
  let r_obj := check_min_length "objective" 1 objective in
  let r_steps :=
    if (1 <=? length steps)%nat then as_validation (unique_ids steps)
    else throw ValidationError "steps: list should have at least 1 item" in
  o ← r_obj; st ← r_steps;
  Ok (AgentPlan.mk o assumptions st).

(** [VerifierStep(...)]; [tool_name = None] stands for a missing or null
    tool name. *)
Definition VerifierStep_init (id : Z) (action : string) (tool_name : option string)
    (tool_args : PyDict) (output_key : string) (depends_on : list Z)
    : Res VerifierStep.t :=
  let r_id := check_ge "id" 1000 id in
  let r_tool :=
    match tool_name with
    | None => throw ValidationError "tool_name: input should be one of the tool names"
    | Some s => check_literal "tool_name" ToolName s
    end in
  i ← r_id; tn ← r_tool;
  Ok (VerifierStep.mk i action tn tool_args output_key depends_on).

Definition VerificationResult_init (status : string) (issues : list string)
    (fix_steps : list VerifierStep.t) (final_output : PyDict)
    : Res VerificationResult.t :=
  st ← check_literal "status" ["complete"; "needs_fix"] status;
  Ok (VerificationResult.mk st issues fix_steps final_output).

(** *** Validation of parsed JSON ([Model.model_validate(data)]) *)

(** [extra="forbid"] *)
Definition forbid_extra (allowed : list string) (d : PyDict) : Res unit :=
  if forallb (λ kv : string * Json, existsb (String.eqb kv.1) allowed) d
  then Ok tt
  else throw ValidationError "extra inputs are not permitted".

Definition req_field (d : PyDict) (k : string) : Res Json :=
  match dict_lookup k d with
  | Some v => Ok v
  | None => throw ValidationError (k +:+ ": field required")
  end.

Definition as_str (field : string) (v : Json) : Res string :=
  match v with
  | JStr s => Ok s
  | _ => throw ValidationError (field +:+ ": input should be a valid string")
  end.

Definition as_int `{Externals} (field : string) (v : Json) : Res Z :=
  match pydantic_int v with
  | Some z => Ok z
  | None => throw ValidationError (field +:+ ": input should be a valid integer")
  end.

Definition as_dict (field : string) (v : Json) : Res PyDict :=
  match v with
  | JObj d => Ok d
  | _ => throw ValidationError (field +:+ ": input should be a valid dictionary")
  end.

Definition as_list (field : string) (v : Json) : Res (list Json) :=
  match v with
  | JArr l => Ok l
  | _ => throw ValidationError (field +:+ ": input should be a valid list")
  end.

(** A field with a default: absent means the default. *)
Definition opt_field {A} (d : PyDict) (k : string) (default : A)
    (read : Json → Res A) : Res A :=
  match dict_lookup k d with
  | Some v => read v
  | None => Ok default
  end.

Definition PlanStep_model_validate `{Externals} (data : Json) : Res PlanStep.t :=
  d ← as_dict "PlanStep" data;
  _ ← forbid_extra ["id"; "action"; "tool_name"; "tool_args"; "output_key";
                    "depends_on"] d;
  i ← (v ← req_field d "id"; as_int "id" v);
  a ← (v ← req_field d "action"; as_str "action" v);
  tn ← opt_field d "tool_name" None
         (λ v, match v with
               | JNull => Ok None
               | _ => s ← as_str "tool_name" v; Ok (Some s)
               end);
  ta ← opt_field d "tool_args" [] (as_dict "tool_args");
  k ← (v ← req_field d "output_key"; as_str "output_key" v);
  deps ← opt_field d "depends_on" []
           (λ v, l ← as_list "depends_on" v; res_mapM (as_int "depends_on") l);
  PlanStep_init i a tn ta k deps.

Definition AgentPlan_model_validate `{Externals} (data : Json) : Res AgentPlan.t :=
  d ← as_dict "AgentPlan" data;
  _ ← forbid_extra ["objective"; "assumptions"; "steps"] d;
  o ← (v ← req_field d "objective"; as_str "objective" v);
  asm ← opt_field d "assumptions" []
          (λ v, l ← as_list "assumptions" v; res_mapM (as_str "assumptions") l);
  st ← (v ← req_field d "steps"; l ← as_list "steps" v;
        res_mapM PlanStep_model_validate l);
  AgentPlan_init o asm st.

Definition VerifierStep_model_validate `{Externals} (data : Json)
    : Res VerifierStep.t :=
  d ← as_dict "VerifierStep" data;
  _ ← forbid_extra ["id"; "action"; "tool_name"; "tool_args"; "output_key";
                    "depends_on"] d;
  i ← (v ← req_field d "id"; as_int "id" v);
  a ← (v ← req_field d "action"; as_str "action" v);
  tn ← (v ← req_field d "tool_name"; as_str "tool_name" v);
  ta ← (v ← req_field d "tool_args"; as_dict "tool_args" v);
  k ← (v ← req_field d "output_key"; as_str "output_key" v);
  deps ← opt_field d "depends_on" []
           (λ v, l ← as_list "depends_on" v; res_mapM (as_int "depends_on") l);
  VerifierStep_init i a (Some tn) ta k deps.

Definition VerificationResult_model_validate `{Externals} (data : Json)
    : Res VerificationResult.t :=
  d ← as_dict "VerificationResult" data;
  _ ← forbid_extra ["status"; "issues"; "fix_steps"; "final_output"] d;
  st ← (v ← req_field d "status"; as_str "status" v);
  iss ← opt_field d "issues" []
          (λ v, l ← as_list "issues" v; res_mapM (as_str "issues") l);
  fs ← opt_field d "fix_steps" []
         (λ v, l ← as_list "fix_steps" v; res_mapM VerifierStep_model_validate l);
  fo ← opt_field d "final_output" [] (as_dict "final_output");
  VerificationResult_init st iss fs fo.

(** *** [model_dump()] *)

Definition PlanStep_model_dump (s : PlanStep.t) : Json :=
  JObj [("id", JInt (PlanStep.id s)); ("action", JStr (PlanStep.action s));
        ("tool_name", opt_json (PlanStep.tool_name s));
        ("tool_args", JObj (PlanStep.tool_args s));
        ("output_key", JStr (PlanStep.output_key s));
        ("depends_on", JArr (map JInt (PlanStep.depends_on s)))].

Definition AgentPlan_model_dump (p : AgentPlan.t) : PyDict :=
  [("objective", JStr (AgentPlan.objective p));
   ("assumptions", JArr (map JStr (AgentPlan.assumptions p)));
   ("steps", JArr (map PlanStep_model_dump (AgentPlan.steps p)))].

Definition VerifierStep_model_dump (s : VerifierStep.t) : Json :=
  JObj [("id", JInt (VerifierStep.id s)); ("action", JStr (VerifierStep.action s));
        ("tool_name", JStr (VerifierStep.tool_name s));
        ("tool_args", JObj (VerifierStep.tool_args s));
        ("output_key", JStr (VerifierStep.output_key s));
        ("depends_on", JArr (map JInt (VerifierStep.depends_on s)))].

Definition VerificationResult_model_dump (v : VerificationResult.t) : PyDict :=
  [("status", JStr (VerificationResult.status v));
   ("issues", JArr (map JStr (VerificationResult.issues v)));
   ("fix_steps", JArr (map VerifierStep_model_dump (VerificationResult.fix_steps v)));
   ("final_output", JObj (VerificationResult.final_output v))].

(** ** Defensive JSON parsing ([safe_json_loads], [src/llm/groq_client.py]) *)

(** The prefix of [s] through the last occurrence of [c], if [c] occurs:
    what a greedy [.*] followed by [c] consumes (with [re.DOTALL], so new
    lines count). *)
Fixpoint through_last (c : ascii) (s : string) : option string :=
  match s with
  | EmptyString => None
  | String a r =>
      match through_last c r with
      | Some p => Some (String a p)
      | None => if Ascii.eqb a c then Some (String a EmptyString) else None
      end
  end.

(** One alternative of the pattern, [\{.*\}] or [\[.*\]], matched at the
    head of [s]. *)
Definition match_delimited (opener closer : ascii) (s : string) : option string :=
  match s with
  | String a r =>
      if Ascii.eqb a opener
      then String a <$> through_last closer r
      else None
  | EmptyString => None
  end.

(** [re.search(r"(\{.*\}|\[.*\])", s, flags=re.DOTALL)], as [match.group(1)]:
    the leftmost position at which an alternative matches wins, the brace
    alternative is tried first there. *)
Fixpoint re_search_span (s : string) : option string :=
  match match_delimited "{" "}" s with
  | Some m => Some m
  | None =>
      match match_delimited "[" "]" s with
      | Some m => Some m
      | None =>
          match s with
          | String _ r => re_search_span r
          | EmptyString => None
          end
      end
  end.

Definition safe_json_loads `{Externals} (text : string) : Res Json :=
  let text := py_strip text in
  match json_loads text with
  | Ok v => Ok v
  | Raise _ =>
      match re_search_span text with
      | Some candidate => json_loads candidate
      | None => throw ValueError "Could not parse JSON from model output."
      end
  end.

(** ** Planner and verifier ([src/agents/planner.py],
       [src/agents/verifier.py]) *)

(** The new-line character. *)
Definition nl : string := String (ascii_of_nat 10) EmptyString.

Definition repair_user (last_err last_text : option string) : string :=
  "Your previous output was invalid JSON or did not match the schema. "
  +:+ "Fix it and output ONLY valid JSON." +:+ nl
  +:+ "Error: " +:+ str_opt last_err +:+ nl
  +:+ "Previous output:" +:+ nl
  +:+ str_opt last_text.

(** The body of the [try]: parse the reply's content, then validate it.
    [safe_json_loads] starts with [text.strip()], which only a string
    has. *)
Definition parse_and_validate `{Externals} {T} (model_validate : Json → Res T)
    (content : Json) : Res T :=
  match content with
  | JStr text => data ← safe_json_loads text; model_validate data
  | _ => throw AttributeError "object has no attribute 'strip'"
  end.

(** The loop [for _attempt in range(n)] shared, word for word, by
    [PlannerAgent.plan] and [VerifierAgent.verify]; they differ in the system
    prompt, the token bound, the schema and the wording of the final
    failure. [last_text] is only ever formatted into the repair request, so
    it is kept as [str(resp.content)]. *)
Fixpoint repair_loop `{Externals} {T} (llm : GroqClient.t) (system : string)
    (max_tokens : Z) (model_validate : Json → Res T) (failure : string)
    (n : nat) (messages : list Message) (last_err last_text : option string)
    : M Sys T :=
  match n with
  | O => raise RuntimeError (failure +:+ str_opt last_err)
  | S n' =>
      resp ← GroqClient_chat llm messages 0.1%float max_tokens true;
      let last_text := Some (py_str resp) in
      match parse_and_validate model_validate resp with
      | Ok v => mret v
      | Raise e =>
          let last_err := Some (exn_msg e) in
          let messages := [mkMessage "system" system;
                           mkMessage "user" (repair_user last_err last_text)] in
          repair_loop llm system max_tokens model_validate failure n'
                      messages last_err last_text
      end
  end.

Module PlannerAgent.
Record t : Type := mk { llm : GroqClient.t }.

Definition plan `{Externals} (self : t) (task : string) : M Sys AgentPlan.t :=
  let user_prompt := planner_user_prompt task in
  let messages := [mkMessage "system" PLANNER_SYSTEM;
                   mkMessage "user" user_prompt] in
  repair_loop (llm self) PLANNER_SYSTEM 1400 AgentPlan_model_validate
    "PlannerAgent failed to produce valid plan. Last error: "
    3 messages None None.
End PlannerAgent.

Module VerifierAgent.
Record t : Type := mk { llm : GroqClient.t }.

Definition verify `{Externals} (self : t) (task : string) (plan : AgentPlan.t)
    (results : PyDict) : M Sys VerificationResult.t :=
  let user_prompt :=
    verifier_user_prompt task
      (json_dumps (JObj (AgentPlan_model_dump plan)))
      (json_dumps (JObj results)) in
  let messages := [mkMessage "system" VERIFIER_SYSTEM;
                   mkMessage "user" user_prompt] in
  repair_loop (llm self) VERIFIER_SYSTEM 1600 VerificationResult_model_validate
    "VerifierAgent failed to produce valid verification JSON. Last error: "
    3 messages None None.
End VerifierAgent.

(** ** Executor ([src/agents/executor.py]) *)

Module ExecutorAgent.
Record t : Type := mk { llm : option GroqClient.t }.

Definition status_is_ok (state : ExecutionState.t) (dep : Z) : bool :=
  match ExecutionState.step_status state !! dep with
  | Some s => String.eqb s "ok"
  | None => false
  end.

Fixpoint deps_all_ok (deps : list Z) (state : ExecutionState.t) : bool :=
  match deps with
  | [] => true
  | dep :: rest =>
      if negb (status_is_ok state dep) then false else deps_all_ok rest state
  end.

Definition _deps_ok (step : PlanStep.t) (state : ExecutionState.t) : bool :=
  deps_all_ok (PlanStep.depends_on step) state.

Definition _compose_text `{Externals} (self : t) (state : ExecutionState.t)
    (step : PlanStep.t) : M Sys string :=
  match llm self with
  | None => mret (PlanStep.action step)
  | Some llm =>
      let messages :=
        [mkMessage "system"
           ("You are the Executor's composer. You MUST NOT call tools. "
            +:+ "Use ONLY the provided tool results to complete the step. "
            +:+ "If asked for bullet points, output bullet points. Output only the text.");
         mkMessage "user"
           ("Task: " +:+ ExecutionState.task state +:+ nl
            +:+ "Step action: " +:+ PlanStep.action step +:+ nl +:+ nl
            +:+ "Available results JSON:" +:+ nl
            +:+ json_dumps (JObj (ExecutionState.results state)))] in
      resp ← GroqClient_chat llm messages 0.2%float 500 false;
      lift (py_strip_any resp)
  end.

(** One iteration of the loop of [_run_steps]. *)
Definition _run_step `{Externals} (self : t) (step : PlanStep.t)
    (state : ExecutionState.t) : M Sys ExecutionState.t :=
  let sid := pretty (PlanStep.id step) in
  if negb (_deps_ok step state) then
    mret (ExecutionState.append_log
            ("Step " +:+ sid +:+ " skipped due to failed dependency: "
             +:+ repr_int_list (PlanStep.depends_on step))
            (ExecutionState.set_status (PlanStep.id step) "skipped" state))
  else
    match PlanStep.tool_name step with
    | None =>
        text ← _compose_text self state step;
        mret (ExecutionState.append_log
                ("Step " +:+ sid +:+ " composed text under '"
                 +:+ PlanStep.output_key step +:+ "'")
                (ExecutionState.set_result (PlanStep.output_key step)
                   (JObj [("text", JStr text)])
                   (ExecutionState.set_status (PlanStep.id step) "ok" state)))
    | Some tool_name =>
        tool ← lift (get_tool tool_name);
        let state :=
          ExecutionState.append_log
            ("Step " +:+ sid +:+ " calling tool '" +:+ tool_name
             +:+ "' with args=" +:+ py_repr (JObj (PlanStep.tool_args step)))
            state in
        rr ← attempt (in_world (BaseTool_call tool (PlanStep.tool_args step)));
        tool_res ← match rr with
                   | Ok r => mret r
                   | Raise e =>
                       lift (ToolResult_init false tool_name []
                               (Some (exn_msg e)) [])
                   end;
        let state :=
          ExecutionState.set_status (PlanStep.id step)
            (if ToolResult.ok tool_res then "ok" else "failed")
            (ExecutionState.set_result (PlanStep.output_key step)
               (ToolResult_model_dump tool_res) state) in
        if ToolResult.ok tool_res then
          mret (ExecutionState.append_log
                  ("Step " +:+ sid +:+ " ok -> stored '"
                   +:+ PlanStep.output_key step +:+ "'") state)
        else
          mret (ExecutionState.append_log
                  ("Step " +:+ sid +:+ " failed: "
                   +:+ str_opt (ToolResult.error tool_res)) state)
    end.

(** [for step in steps: ...] *)
Fixpoint _run_steps_for `{Externals} (self : t) (steps : list PlanStep.t)
    (state : ExecutionState.t) : M Sys ExecutionState.t :=
  match steps with
  | [] => mret state
  | step :: rest =>
      state ← _run_step self step state;
      _run_steps_for self rest state
  end.

(** The state is handed on instead of being updated in place; entering a
    batch is recorded in the trace. *)
Definition _run_steps `{Externals} (self : t) (steps : list PlanStep.t)
    (state : ExecutionState.t) : M Sys ExecutionState.t :=
  _ ← emit (EvBatch steps);
  _run_steps_for self steps state.

Definition run `{Externals} (self : t) (task : string) (plan : AgentPlan.t)
    : M Sys ExecutionState.t :=
  let state := ExecutionState.mk task plan [] ∅ [] in
  _run_steps self (AgentPlan.steps plan) state.

Definition run_fix_steps `{Externals} (self : t) (state : ExecutionState.t)
    (fix_steps : list VerifierStep.t) : M Sys ExecutionState.t :=
  pseudo_steps ← lift
    (res_mapM (λ fs,
       PlanStep_init (VerifierStep.id fs) (VerifierStep.action fs)
         (Some (VerifierStep.tool_name fs)) (VerifierStep.tool_args fs)
         (VerifierStep.output_key fs) (VerifierStep.depends_on fs))
       fix_steps);
  _run_steps self pseudo_steps state.
End ExecutorAgent.

(** ** Orchestrator ([src/main.py]) *)

(** [GroqClient(api_key=api_key)] *)
Definition GroqClient_init `{Externals} (api_key : option string)
    : Res GroqClient.t :=
  let key := match api_key with
             | Some k => if str_is_empty k then getenv "GROQ_API_KEY" else Some k
             | None => getenv "GROQ_API_KEY"
             end in
  let model := match getenv "GROQ_MODEL" with
               | Some m => m
               | None => "meta-llama/llama-4-scout-17b-16e-instruct"
               end in
  if opt_truthy key then Ok (GroqClient.mk (str_opt key) model)
  else throw ValueError
         "GROQ_API_KEY is not set. Add it to your environment or .env file.".

Definition _build_agents `{Externals}
    : Res (PlannerAgent.t * ExecutorAgent.t * VerifierAgent.t) :=
  let api_key := getenv "GROQ_API_KEY" in
  if negb (opt_truthy api_key) then
    throw RuntimeError
      "GROQ_API_KEY is missing. Set it in .env or environment variables."
  else
    llm ← GroqClient_init api_key;
    Ok (PlannerAgent.mk llm, ExecutorAgent.mk (Some llm), VerifierAgent.mk llm).

(** The guard of the [while] loop of [run_task]. *)
Definition wants_fix (verification : VerificationResult.t) (rounds max_rounds : Z)
    : bool :=
  String.eqb (VerificationResult.status verification) "needs_fix"
  && match VerificationResult.fix_steps verification with [] => false | _ => true end
  && (rounds <? max_rounds).

(** The [while] loop of [run_task]. [fuel] bounds the number of iterations
    the model follows; [None] means the bound was hit with the guard still
    true. *)
Fixpoint verify_fix_loop `{Externals} (fuel : nat)
    (executor : ExecutorAgent.t) (verifier : VerifierAgent.t)
    (task : string) (plan : AgentPlan.t) (max_rounds : Z)
    (state : ExecutionState.t) (verification : VerificationResult.t)
    (rounds : Z) : M Sys (option (ExecutionState.t * VerificationResult.t)) :=
  if wants_fix verification rounds max_rounds then
    match fuel with
    | O => mret None
    | S fuel' =>
        state ← ExecutorAgent.run_fix_steps executor state
                  (VerificationResult.fix_steps verification);
        verification ← VerifierAgent.verify verifier task plan
                         (ExecutionState.results state);
        verify_fix_loop fuel' executor verifier task plan max_rounds
                        state verification (rounds + 1)
    end
  else mret (Some (state, verification)).

Definition run_task `{Externals} (fuel : nat) (task : string) (max_rounds : Z)
    : M Sys (option RunResponse.t) :=
  '(planner, executor, verifier) ← lift _build_agents;
  plan ← PlannerAgent.plan planner task;
  state ← ExecutorAgent.run executor task plan;
  verification ← VerifierAgent.verify verifier task plan
                   (ExecutionState.results state);
  let rounds := 1 in
  out ← verify_fix_loop fuel executor verifier task plan max_rounds
          state verification rounds;
  match out with
  | None => mret None
  | Some (state, verification) =>
      mret (Some (RunResponse.mk task
                    (AgentPlan_model_dump plan)
                    (ExecutionState.results state)
                    (VerificationResult_model_dump verification)
                    (VerificationResult.final_output verification)
                    (ExecutionState.logs state)))
  end.

(** ** The vocabulary of the properties *)

(** The Tool Result invariant: an error is present exactly when the call did
    not succeed. *)
Definition tool_result_invariant (r : ToolResult.t) : Prop :=
  is_Some (ToolResult.error r) ↔ ToolResult.ok r = false.

(** [extends s s']: nothing that [s] holds is missing from [s']. *)
Definition extends (s s' : ExecutionState.t) : Prop :=
  ExecutionState.task s' = ExecutionState.task s
  ∧ ExecutionState.plan s' = ExecutionState.plan s
  ∧ (∀ k, is_Some (dict_lookup k (ExecutionState.results s))
          → is_Some (dict_lookup k (ExecutionState.results s')))
  ∧ dom (ExecutionState.step_status s) ⊆ dom (ExecutionState.step_status s')
  ∧ ExecutionState.logs s `prefix_of` ExecutionState.logs s'.

(** The batches and the chat turns of a trace. *)
Definition batches (t : list Event) : list (list PlanStep.t) :=
  omap (λ e, match e with EvBatch steps => Some steps | _ => None end) t.

Definition chats (t : list Event) : list (list Message * Res Json) :=
  omap (λ e, match e with EvChat m _ r => Some (m, r) | _ => None end) t.

(** [ensures P m]: whenever [m] returns, the value it returns satisfies
    [P]. *)
Definition ensures {S A} (P : A → Prop) (m : M S A) : Prop :=
  ∀ σ, match (m σ).1 with Ok a => P a | Raise _ => True end.

(** [adds k m]: running [m] enters at most [k] batches, and leaves the
    batches entered before as they were. *)
Definition adds `{Externals} {A} (k : nat) (m : M Sys A) : Prop :=
  ∀ σ, ∃ bs, batches (trace (m σ).2) = batches (trace σ) ++ bs
             ∧ (length bs ≤ k)%nat.

(** The conversation of a repair turn. *)
Definition repair_messages (system : string) (e : Exn) (txt : string)
    : list Message :=
  [mkMessage "system" system;
   mkMessage "user" (repair_user (Some (exn_msg e)) (Some txt))].

(** [chained system mv calls]: every turn of [calls] after the first follows
    a reply that failed to parse or validate, and is the repair turn for
    that failure and that reply. *)
Definition chained `{Externals} {T} (system : string) (mv : Json → Res T)
    (calls : list (list Message * Res Json)) : Prop :=
  ∀ i msgs rep,
    calls !! S i = Some (msgs, rep) →
    ∃ prev txt e,
      calls !! i = Some (prev, Ok txt)
      ∧ parse_and_validate mv txt = Raise e
      ∧ msgs = repair_messages system e (py_str txt).

(** [repair_run system mv failure messages σ out]: what one run of the
    schema-repair loop, started in [σ] with the conversation [messages] and
    ended as [out], did. It asked the model between one and three times,
    first with [messages]; every later turn followed a reply that failed to
    parse or validate and consisted of the system prompt and the repair
    request made of that failure and that reply; a value that is returned is
    the validated last reply; and a failure is either the chat's own
    exception or, after three invalid replies, the final [RuntimeError]
    carrying the last validation error. *)
Definition repair_run `{Externals} {T} (system : string) (mv : Json → Res T)
    (failure : string) (messages : list Message) (σ : Sys) (out : Res T * Sys)
    : Prop :=
  ∃ calls : list (list Message * Res Json),
    trace out.2 = trace σ ++ map (λ c, EvChat c.1 true c.2) calls
    ∧ (1 ≤ length calls ≤ 3)%nat
    ∧ (∃ rep, head calls = Some (messages, rep))
    ∧ chained system mv calls
    ∧ match out.1 with
      | Ok v =>
          ∃ m txt, last calls = Some (m, Ok txt) ∧ parse_and_validate mv txt = Ok v
      | Raise e =>
          (∃ m, last calls = Some (m, Raise e))
          ∨ (length calls = 3%nat
             ∧ ∃ m txt e',
                 last calls = Some (m, Ok txt)
                 ∧ parse_and_validate mv txt = Raise e'
                 ∧ e = mkExn RuntimeError (failure +:+ exn_msg e'))
      end.

(** [skipped step state]: what the dependency gate leaves of [state] when it
    turns [step] away. *)
Definition skipped (step : PlanStep.t) (state : ExecutionState.t)
    : ExecutionState.t :=
  ExecutionState.append_log
    ("Step " +:+ pretty (PlanStep.id step) +:+ " skipped due to failed dependency: "
     +:+ repr_int_list (PlanStep.depends_on step))
    (ExecutionState.set_status (PlanStep.id step) "skipped" state).

(** The self-dependency clause of the specification at one fix step: if
    validation lets the step through, the step does not list its own
    identifier among its dependencies. *)
Definition fix_step_free_of_itself (id : Z) (action : string)
    (tool_name : option string) (tool_args : PyDict) (output_key : string)
    (depends_on : list Z) : Prop :=
  match VerifierStep_init id action tool_name tool_args output_key depends_on with
  | Ok fs => VerifierStep.id fs ∉ VerifierStep.depends_on fs
  | Raise _ => True
  end.

(** The unknown-tool clause of the specification at one input: running the
    one-step batch returns, the step is marked failed, and a failed Tool
    Result sits under its output key. *)
Definition unknown_tool_is_contained `{Externals} (self : ExecutorAgent.t)
    (step : PlanStep.t) (state : ExecutionState.t) (σ : Sys) : Prop :=
  match ExecutorAgent._run_steps self [step] state σ with
  | (Ok state', _) =>
      ExecutionState.step_status state' !! PlanStep.id step = Some "failed"
      ∧ ∃ r, dict_lookup (PlanStep.output_key step) (ExecutionState.results state')
             = Some (ToolResult_model_dump r)
             ∧ ToolResult.ok r = false
  | (Raise _, _) => False
  end.

(** The span the specification describes for the second parsing attempt:
    from the first opening brace or bracket to the delimiter that closes it,
    nesting counted. *)
Definition is_opener (a : ascii) : bool := Ascii.eqb a "{" || Ascii.eqb a "[".
Definition is_closer (a : ascii) : bool := Ascii.eqb a "}" || Ascii.eqb a "]".

Fixpoint closing_prefix (depth : nat) (s : string) : option string :=
  match s with
  | EmptyString => None
  | String a r =>
      if is_opener a then String a <$> closing_prefix (S depth) r
      else if is_closer a then
        match depth with
        | O => Some (String a EmptyString)
        | S d => String a <$> closing_prefix d r
        end
      else String a <$> closing_prefix depth r
  end.

Fixpoint first_top_level_span (s : string) : option string :=
  match s with
  | EmptyString => None
  | String a r =>
      if is_opener a then String a <$> closing_prefix 0 r
      else first_top_level_span r
  end.

(** The parsing policy with that span in place of the pattern's. *)
Definition spec_safe_json_loads `{Externals} (text : string) : Res Json :=
  let text := py_strip text in
  match json_loads text with
  | Ok v => Ok v
  | Raise _ =>
      match first_top_level_span text with
      | Some candidate => json_loads candidate
      | None => throw ValueError "Could not parse JSON from model output."
      end
  end.

(** [occurs c s]: the character [c] occurs in [s]. *)
Fixpoint occurs (c : ascii) (s : string) : Prop :=
  match s with
  | EmptyString => False
  | String a r => a = c ∨ occurs c r
  end.

(** [unmatched_openers pre rest]: no opening brace in [pre] has a closing
    brace anywhere after it in [pre +:+ rest], and no opening bracket has a
    closing bracket after it. *)
Definition unmatched_openers (pre rest : string) : Prop :=
  ∀ p1 a p2,
    pre = p1 +:+ String a p2 →
    (a = "{"%char → ¬ occurs "}" (p2 +:+ rest))
    ∧ (a = "["%char → ¬ occurs "]" (p2 +:+ rest)).

(** [greedy_span t m]: [m] is the stretch of [t] that starts at the first
    opening brace or bracket with a closing delimiter of its own kind after
    it, and that ends at the last such closing delimiter of [t]. *)
Definition greedy_span (t m : string) : Prop :=
  ∃ pre post opener closer body,
    t = pre +:+ m +:+ post
    ∧ m = String opener (body +:+ String closer EmptyString)
    ∧ ((opener = "{"%char ∧ closer = "}"%char)
       ∨ (opener = "["%char ∧ closer = "]"%char))
    ∧ ¬ occurs closer post
    ∧ unmatched_openers pre (m +:+ post).

(** ** A scripted world

    One instance of [Externals], used to run the model on concrete inputs:
    the remote model and the HTTP layer answer from two scripts, and the
    library functions are small executable stand-ins. *)

Module Demo.
Definition dq : ascii := ascii_of_nat 34.

(** [q s] is [s] between double quotes. *)
Definition q (s : string) : string := String dq s +:+ String dq EmptyString.

Definition is_json_ws (a : ascii) : bool :=
  let n := N_of_ascii a in ((n =? 32) || (n =? 9) || (n =? 10) || (n =? 13))%N.

Fixpoint skip_ws (l : list ascii) : list ascii :=
  match l with
  | a :: r => if is_json_ws a then skip_ws r else l
  | [] => []
  end.

Definition digit_of (a : ascii) : option Z :=
  let n := N_of_ascii a in
  if ((48 <=? n) && (n <=? 57))%N then Some (Z.of_N n - 48) else None.

Fixpoint read_digits (acc : Z) (l : list ascii) : Z * list ascii :=
  match l with
  | a :: r =>
      match digit_of a with
      | Some d => read_digits (10 * acc + d) r
      | None => (acc, l)
      end
  | [] => (acc, [])
  end.

(** The characters up to the closing quote; escapes are not read. *)
Fixpoint read_string (l : list ascii) : option (string * list ascii) :=
  match l with
  | [] => None
  | a :: r =>
      if Ascii.eqb a dq then Some (EmptyString, r)
      else if Ascii.eqb a "\"%char then None
      else '(s, r') ← read_string r; Some (String a s, r')
  end.

(** A reader for the JSON documents used here: [null], [true], [false],
    integers, strings without escapes, arrays, and objects whose keys are
    distinct. *)
Fixpoint read_value (fuel : nat) (l : list ascii) : option (Json * list ascii) :=
  match fuel with
  | O => None
  | S fuel' =>
      match skip_ws l with
      | "n"%char :: "u"%char :: "l"%char :: "l"%char :: r => Some (JNull, r)
      | "t"%char :: "r"%char :: "u"%char :: "e"%char :: r => Some (JBool true, r)
      | "f"%char :: "a"%char :: "l"%char :: "s"%char :: "e"%char :: r => Some (JBool false, r)
      | "["%char :: r =>
          match skip_ws r with
          | "]"%char :: r' => Some (JArr [], r')
          | _ => '(xs, r') ← read_elements fuel' r; Some (JArr xs, r')
          end
      | "{"%char :: r =>
          match skip_ws r with
          | "}"%char :: r' => Some (JObj [], r')
          | _ => '(kvs, r') ← read_members fuel' r; Some (JObj kvs, r')
          end
      | "-"%char :: a :: r =>
          match digit_of a with
          | Some _ => let '(n, r') := read_digits 0 (a :: r) in Some (JInt (- n), r')
          | None => None
          end
      | a :: r =>
          if Ascii.eqb a dq then '(s, r') ← read_string r; Some (JStr s, r')
          else match digit_of a with
               | Some _ => let '(n, r') := read_digits 0 (a :: r) in Some (JInt n, r')
               | None => None
               end
      | [] => None
      end
  end
with read_elements (fuel : nat) (l : list ascii) : option (list Json * list ascii) :=
  match fuel with
  | O => None
  | S fuel' =>
      '(v, r) ← read_value fuel' l;
      match skip_ws r with
      | ","%char :: r' => '(vs, r'') ← read_elements fuel' r'; Some (v :: vs, r'')
      | "]"%char :: r' => Some ([v], r')
      | _ => None
      end
  end
with read_members (fuel : nat) (l : list ascii)
    : option (list (string * Json) * list ascii) :=
  match fuel with
  | O => None
  | S fuel' =>
      match skip_ws l with
      | a :: r =>
          if Ascii.eqb a dq then
            '(k, r1) ← read_string r;
            match skip_ws r1 with
            | ":"%char :: r2 =>
                '(v, r3) ← read_value fuel' r2;
                match skip_ws r3 with
                | ","%char :: r4 =>
                    '(kvs, r5) ← read_members fuel' r4;
                    Some ((k, v) :: kvs, r5)
                | "}"%char :: r4 => Some ([(k, v)], r4)
                | _ => None
                end
            | _ => None
            end
          else None
      | [] => None
      end
  end.

Definition loads (s : string) : Res Json :=
  let l := list_ascii_of_string s in
  match read_value (S (length l)) l with
  | Some (v, r) =>
      match skip_ws r with
      | [] => Ok v
      | _ => throw JSONDecodeError "Extra data"
      end
  | None => throw JSONDecodeError "Expecting value"
  end.

(** A compact printer, standing in for [repr] and [json.dumps]. *)
Fixpoint show (j : Json) : string :=
  match j with
  | JNull => "null"
  | JBool b => if b then "true" else "false"
  | JInt z => pretty z
  | JFloat _ => "<float>"
  | JStr s => q s
  | JArr xs =>
      "[" +:+ (fix go (l : list Json) : string :=
                 match l with
                 | [] => ""
                 | [x] => show x
                 | x :: r => show x +:+ "," +:+ go r
                 end) xs +:+ "]"
  | JObj kvs =>
      "{" +:+ (fix go (l : list (string * Json)) : string :=
                 match l with
                 | [] => ""
                 | [(k, v)] => q k +:+ ":" +:+ show v
                 | (k, v) :: r => q k +:+ ":" +:+ show v +:+ "," +:+ go r
                 end) kvs +:+ "}"
  end.

Definition int_of_string (s : string) : Res Z :=
  match list_ascii_of_string (py_strip s) with
  | [] => throw ValueError "invalid literal for int()"
  | l => match read_digits 0 l with
         | (n, []) => Ok n
         | _ => throw ValueError "invalid literal for int()"
         end
  end.

Definition ascii_map (f : N → N) (s : string) : string :=
  string_of_list_ascii
    (map (λ a, ascii_of_N (f (N_of_ascii a))) (list_ascii_of_string s)).

Definition upper : string → string :=
  ascii_map (λ n, if ((97 <=? n) && (n <=? 122))%N then (n - 32)%N else n).
Definition lower : string → string :=
  ascii_map (λ n, if ((65 <=? n) && (n <=? 90))%N then (n + 32)%N else n).

(** What the outside answers: chat replies and HTTP responses, in the
    order they are asked for. *)
Record Script : Type := mkScript {
  replies : list (Res Json);
  responses : list (Res Response) }.

Definition chat (_ : GroqClient.t) (_ : list Message) (_ : float) (_ : Z)
    (_ : bool) (w : Script) : Res Json * Script :=
  match replies w with
  | r :: rest => (r, mkScript rest (responses w))
  | [] => (throw RuntimeError "Groq error 401: no reply", w)
  end.

Definition get (_ : string) (_ : PyDict) (_ : list (string * string))
    (w : Script) : Res Response * Script :=
  match responses w with
  | r :: rest => (r, mkScript (replies w) rest)
  | [] => (throw RequestException "connection refused", w)
  end.

Definition ext : Externals := {|
  World := Script;
  groq_chat := chat;
  requests_get := get;
  getenv := λ k, if String.eqb k "GROQ_API_KEY" then Some "gsk" else None;
  json_loads := loads;
  json_dumps := show;
  py_repr := show;
  int_of_float := λ _, throw ValueError "cannot convert float to integer";
  int_of_str := int_of_string;
  float_of_int := λ _, throw OverflowError "int too large to convert to float";
  float_as_int := λ _, None;
  str_upper := upper;
  str_lower := lower;
  utc_strftime := λ t, Ok (pretty t);
  rss_items := λ _, throw ParseError "syntax error";
  pydantic_int := λ v, match v with JInt z => Some z | _ => None end;
  PLANNER_SYSTEM := "You are PlannerAgent.";
  planner_user_prompt := λ task, "User task: " +:+ task;
  VERIFIER_SYSTEM := "You are VerifierAgent.";
  verifier_user_prompt := λ task plan_json results_json,
    "User task: " +:+ task +:+ " plan: " +:+ plan_json
    +:+ " results: " +:+ results_json;
|}.

Definition start (w : Script) : @Sys ext := mkSys (H := ext) w [].

(** Sample data: the plan of the weather scenario, a step that asks for a
    tool nobody registered, and two verdicts of the verifier. *)
Definition weather_step : PlanStep.t :=
  PlanStep.mk 1 "Get the weather in Paris" (Some "weather_current")
    [("city", JStr "Paris")] "weather" [].

Definition final_step : PlanStep.t :=
  PlanStep.mk 2 "Summarise the weather" None [] "final" [1].

Definition weather_plan : AgentPlan.t :=
  AgentPlan.mk "weather in Paris" [] [weather_step; final_step].

Definition unknown_step : PlanStep.t :=
  PlanStep.mk 1 "Look the quote up" (Some "stock_quote") [] "quote" [].

Definition fresh (task : string) (plan : AgentPlan.t) : ExecutionState.t :=
  ExecutionState.mk task plan [] ∅ [].

(** An executor without a model: it composes a step's text from the step's
    own action. *)
Definition executor : ExecutorAgent.t := ExecutorAgent.mk None.

Definition retry_weather : VerifierStep.t :=
  VerifierStep.mk 1001 "Get the weather in Paris again" "weather_current"
    [("city", JStr "Paris")] "weather" [].

Definition needs_fix : VerificationResult.t :=
  VerificationResult.mk "needs_fix" ["weather is missing"] [retry_weather] [].

Definition complete : VerificationResult.t :=
  VerificationResult.mk "complete" [] [] [("summary", JStr "No data")].

(** The replies of a model that plans the weather scenario, then asks for a
    fix, then gives up; and no HTTP response at all, so that every request
    fails. *)
Definition offline : Script :=
  mkScript
    [Ok (JStr (show (JObj (AgentPlan_model_dump weather_plan))));
     Ok (JStr (show (JObj (VerificationResult_model_dump needs_fix))));
     Ok (JStr (show (JObj (VerificationResult_model_dump complete))))]
    [].
End Demo.

(** ** The chat client ([GroqClient.chat], [src/llm/groq_client.py]) *)

Module LLMResponse.
Record t : Type := mk { content : Json; raw : Json }.
End LLMResponse.

Definition GROQ_BASE_URL : string := "https://api.groq.com/openai/v1".

(** [x[k]] for a string key [k] on an arbitrary value. *)
Definition py_getitem `{Externals} (x : Json) (k : string) : Res Json :=
  match x with
  | JObj d =>
      match dict_lookup k d with
      | Some v => Ok v
      | None => throw KeyError (py_repr (JStr k))
      end
  | _ => throw TypeError "indices must be integers or the object is not subscriptable"
  end.

(** [data["choices"][0]["message"]["content"]] *)
Definition reply_content `{Externals} (data : Json) : Res Json :=
  choices ← py_getitem data "choices";
  first ← py_index0 choices;
  message ← py_getitem first "message";
  py_getitem message "content".

Definition Message_json (m : Message) : Json :=
  JObj [("role", JStr (role m)); ("content", JStr (content m))].

(** The body of [GroqClient.chat] under its [@with_retry(attempts=4)].
    [post url headers payload] stands for [requests.post(url,
    headers=headers, json=payload, timeout=...)]; the state [S] is whatever
    the network depends on. *)
(** The headers and the JSON body of the request. *)
Definition chat_headers (self : GroqClient.t) : list (string * string) :=
  [("Authorization", "Bearer " +:+ GroqClient.api_key self);
   ("Content-Type", "application/json")].

Definition chat_payload (self : GroqClient.t) (messages : list Message)
    (temperature : float) (max_tokens : Z) (json_mode : bool) : PyDict :=
  let payload := [("model", JStr (GroqClient.model self));
                  ("messages", JArr (map Message_json messages));
                  ("temperature", JFloat temperature);
                  ("max_tokens", JInt max_tokens)] in
  if json_mode
  then dict_set "response_format" (JObj [("type", JStr "json_object")]) payload
  else payload.

Definition chat_url : string := GROQ_BASE_URL +:+ "/chat/completions".

(** One pass through the body of [GroqClient.chat]. [post url headers
    payload] stands for [requests.post(url, headers=headers, json=payload,
    timeout=...)]; the state [S] is whatever the network depends on. *)
Definition chat_once `{Externals} {S}
    (post : string → list (string * string) → PyDict → M S Response)
    (self : GroqClient.t) (messages : list Message) (temperature : float)
    (max_tokens : Z) (json_mode : bool) : M S LLMResponse.t :=
  let headers := chat_headers self in
  let payload := chat_payload self messages temperature max_tokens json_mode in
  rr ← attempt (post chat_url headers payload);
  match rr with
  | Raise e =>
      match exn_kind e with
      | RequestException =>
          raise RetryableError ("Groq request failed: " +:+ exn_msg e)
      | _ => raise_exn e
      end
  | Ok r =>
      if transient_status (status_code r) then
        raise RetryableError
          ("Groq transient error " +:+ pretty (status_code r) +:+ ": "
           +:+ str_take 200 (text r))
      else if negb (Response_ok r) then
        raise RuntimeError
          ("Groq error " +:+ pretty (status_code r) +:+ ": " +:+ text r)
      else
        data ← lift (json r);
        content ← lift (reply_content data);
        mret (LLMResponse.mk content data)
  end.

(** [GroqClient.chat], under its [@with_retry(attempts=4)]. *)
Definition GroqClient_chat_http `{Externals} {S}
    (post : string → list (string * string) → PyDict → M S Response)
    (self : GroqClient.t) (messages : list Message) (temperature : float)
    (max_tokens : Z) (json_mode : bool) : M S LLMResponse.t :=
  with_retry 4 (chat_once post self messages temperature max_tokens json_mode).

(** ** The service endpoint ([RunRequest], [run], [src/main.py]) *)

Module RunRequest.
Record t : Type := mk { task : string; max_rounds : Z }.
End RunRequest.

(** [Field(..., le=n)] *)
Definition check_le (field : string) (n v : Z) : Res Z :=
  if v <=? n then Ok v
  else throw ValidationError (field +:+ ": input should be less than or equal to "
                              +:+ pretty n).

(** [RunRequest(task=..., max_rounds=...)]; an absent [max_rounds] is 2. *)
Definition RunRequest_init (task : string) (max_rounds : option Z)
    : Res RunRequest.t :=
  let r_task := check_min_length "task" 1 task in
  let r_rounds :=
    match max_rounds with
    | None => Ok 2
    | Some n => m ← check_ge "max_rounds" 1 n; check_le "max_rounds" 5 m
    end in
  t ← r_task; n ← r_rounds; Ok (RunRequest.mk t n).

Module HTTPException.
Record t : Type := mk { status_code : Z; detail : string }.
End HTTPException.

(** [isinstance(e, RuntimeError)]: [RetryableError] derives from it. *)
Definition is_runtime_error (e : Exn) : bool :=
  match exn_kind e with
  | RuntimeError | RetryableError => true
  | _ => false
  end.

(** The handler [run] of [POST /run]: what it returns, or the
    [HTTPException] it raises instead. [None] is the loop of [run_task] out
    of fuel. *)
Definition run_endpoint `{Externals} (fuel : nat) (req : RunRequest.t)
    : M Sys (option (RunResponse.t + HTTPException.t)) :=
  rr ← attempt (run_task fuel (RunRequest.task req) (RunRequest.max_rounds req));
  match rr with
  | Ok (Some resp) => mret (Some (inl resp))
  | Ok None => mret None
  | Raise e =>
      if is_runtime_error e
      then mret (Some (inr (HTTPException.mk 400 (exn_msg e))))
      else mret (Some (inr (HTTPException.mk 500 (exn_msg e))))
  end.

(** ** More vocabulary *)

(** [after_retryable k f σ]: the state reached from [σ] by [k] calls of [f]
    in a row that each raised [RetryableError]; [None] when one of them did
    something else. *)
Fixpoint after_retryable {S A} (k : nat) (f : M S A) (σ : S) : option S :=
  match k with
  | O => Some σ
  | S k' =>
      match f σ with
      | (Raise e, σ') => if is_retryable e then after_retryable k' f σ' else None
      | (Ok _, _) => None
      end
  end.

Definition raises_retryable {A} (r : Res A) : bool :=
  match r with Raise e => is_retryable e | Ok _ => false end.

(** [raises_only Q m]: an exception that leaves [m] satisfies [Q], together
    with the state it leaves behind. *)
Definition raises_only {S A} (Q : Exn → S → Prop) (m : M S A) : Prop :=
  ∀ σ, match m σ with (Raise e, σ') => Q e σ' | (Ok _, _) => True end.

(** The three statuses a step can have. *)
Definition step_statuses : list string := ["ok"; "failed"; "skipped"].

(** The keys of the normalized weather payload. *)
Definition weather_fields : list string :=
  ["city"; "region"; "country"; "latitude"; "longitude"; "temperature_c";
   "apparent_temperature_c"; "humidity_pct"; "wind_kph"; "conditions";
   "observed_at"].

(** [tool.name] *)
Definition BaseTool_name (tool : BaseTool) : string :=
  match tool with
  | GitHub => GitHubTool.name
  | Weather _ => WeatherTool.name
  | News _ => NewsTool.name
  end.

(** A plan step that passes its own validation. *)
Definition valid_step (s : PlanStep.t) : Prop :=
  PlanStep_init (PlanStep.id s) (PlanStep.action s) (PlanStep.tool_name s)
    (PlanStep.tool_args s) (PlanStep.output_key s) (PlanStep.depends_on s) = Ok s.

Definition valid_fix_step (s : VerifierStep.t) : Prop :=
  VerifierStep_init (VerifierStep.id s) (VerifierStep.action s)
    (Some (VerifierStep.tool_name s)) (VerifierStep.tool_args s)
    (VerifierStep.output_key s) (VerifierStep.depends_on s) = Ok s.

(** The keys of the payload of a successful result, per tool. *)
Definition payload_fields (tool : BaseTool) : list string :=
  match tool with
  | GitHub => ["query"; "items"]
  | Weather _ => weather_fields
  | News _ => ["query"; "articles"; "provider"]
  end.

(** The list a successful search result holds under [key]. *)
Definition listed (key : string) (r : ToolResult.t) : option (list Json) :=
  match dict_lookup key (ToolResult.data r) with
  | Some (JArr xs) => Some xs
  | _ => None
  end.

(** [r.meta.get(key)] *)
Definition meta_at (key : string) (r : ToolResult.t) : option Json :=
  dict_lookup key (ToolResult.meta r).

(** The argument a tool cannot do without, and whether [tool_args] leaves
    it out or blank. *)
Definition required_argument (tool : BaseTool) : string :=
  match tool with
  | Weather _ => "city"
  | GitHub | News _ => "query"
  end.

Definition blank_argument `{Externals} (tool_args : PyDict) (key : string) : bool :=
  str_is_empty (py_strip (py_str (dict_get tool_args key (JStr "")))).

(** The two search tools read [top_n] before anything else. *)
Definition reads_top_n (tool : BaseTool) : bool :=
  match tool with
  | Weather _ => false
  | GitHub | News _ => true
  end.

(** The meta of a successful Open-Meteo result. *)
Definition open_meteo_meta (r : ToolResult.t) : Prop :=
  ToolResult.ok r = true →
  ∃ c, ToolResult.meta r = [("provider", JStr "open-meteo"); ("status_code", JInt c)].

(** The providers of the news tool in the order in which the property of
    the fallback has them asked: NewsAPI only with a key, then GDELT, then
    Google News RSS. *)
Definition news_providers `{Externals} (self : NewsTool.t) (query : string)
    (top_n : Z) : list (string * M World ToolResult.t) :=
  ((if str_is_empty (NewsTool.newsapi_key self) then []
    else [("newsapi", NewsTool._newsapi_search self query top_n)])
   ++ [("gdelt", NewsTool._gdelt_search query top_n);
       ("googlenews_rss", NewsTool._googlenews_rss_search query top_n)])%list.

(** Asking providers one after the other until one succeeds: the results
    obtained, in order, each under the name of its provider. *)
Fixpoint ask_in_turn {S} (providers : list (string * M S ToolResult.t))
    : M S (list (string * ToolResult.t)) :=
  match providers with
  | [] => mret []
  | (name, search) :: rest =>
      res ← search;
      if ToolResult.ok res then mret [(name, res)]
      else asked ← ask_in_turn rest; mret ((name, res) :: asked)
  end.

(** [r] is [res] but for its meta. *)
Definition same_but_meta (r res : ToolResult.t) : Prop :=
  ToolResult.ok r = ToolResult.ok res
  ∧ ToolResult.tool_name r = ToolResult.tool_name res
  ∧ ToolResult.data r = ToolResult.data res
  ∧ ToolResult.error r = ToolResult.error res.

(** A result as a news provider function makes it: its meta names the
    provider and says nothing of a fallback yet. *)
Definition provider_meta (p : string) (r : ToolResult.t) : Prop :=
  meta_at "provider" r = Some (JStr p)
  ∧ meta_at "fallback_from" r = None
  ∧ meta_at "gdelt_error" r = None
  ∧ meta_at "newsapi_error" r = None.


(** The field names of the four models. *)
Definition step_fields : list string :=
  ["id"; "action"; "tool_name"; "tool_args"; "output_key"; "depends_on"].
Definition plan_fields : list string := ["objective"; "assumptions"; "steps"].
Definition verdict_fields : list string :=
  ["status"; "issues"; "fix_steps"; "final_output"].

(** [r] is a validation error. *)
Definition rejected {A} (r : Res A) : Prop :=
  ∃ e, r = Raise e ∧ exn_kind e = ValidationError.

(** The plan step [run_fix_steps] builds from a fix step. *)
Definition as_plan_step (fs : VerifierStep.t) : PlanStep.t :=
  PlanStep.mk (VerifierStep.id fs) (VerifierStep.action fs)
    (Some (VerifierStep.tool_name fs)) (VerifierStep.tool_args fs)
    (VerifierStep.output_key fs) (VerifierStep.depends_on fs).

(** What [PlanStep] asks of a fix step beyond what [VerifierStep] does. *)
Definition fits_plan_step (fs : VerifierStep.t) : Prop :=
  VerifierStep.action fs ≠ ""
  ∧ VerifierStep.output_key fs ≠ ""
  ∧ VerifierStep.id fs ∉ VerifierStep.depends_on fs.

(** The three ways a step that returns can leave the state: turned away by
    the dependency gate, composed, or run through a tool. *)
Definition step_outcome (step : PlanStep.t) (state state' : ExecutionState.t)
    : Prop :=
  state' = skipped step state
  ∨ (PlanStep.tool_name step = None
     ∧ ∃ text line,
         state' = ExecutionState.append_log line
                    (ExecutionState.set_result (PlanStep.output_key step)
                       (JObj [("text", JStr text)])
                       (ExecutionState.set_status (PlanStep.id step) "ok" state)))
  ∨ (∃ tn r line1 line2,
       PlanStep.tool_name step = Some tn
       ∧ state' = ExecutionState.append_log line2
                    (ExecutionState.set_status (PlanStep.id step)
                       (if ToolResult.ok r then "ok" else "failed")
                       (ExecutionState.set_result (PlanStep.output_key step)
                          (ToolResult_model_dump r)
                          (ExecutionState.append_log line1 state)))).

(** The exception is the one the last chat turn of the trace ended with. *)
Definition raised_by_last_chat `{Externals} (e : Exn) (σ : Sys) : Prop :=
  ∃ messages, last (trace σ) = Some (EvChat messages false (Raise e)).

(** The exception is the one that [.strip()] raises on the content of the
    last chat turn of the trace, which is not a string. *)
Definition raised_by_strip `{Externals} (e : Exn) (σ : Sys) : Prop :=
  ∃ messages content,
    last (trace σ) = Some (EvChat messages false (Ok content))
    ∧ py_strip_any content = Raise e.

(** Whether [step] is a tool step that got past the gate, read off the
    state the batch ends in. *)
Definition ran_tool (state' : ExecutionState.t) (step : PlanStep.t) : bool :=
  match PlanStep.tool_name step with
  | Some _ =>
      negb (bool_decide (ExecutionState.step_status state' !! PlanStep.id step
                         = Some "skipped"))
  | None => false
  end.

(** A string that does not begin with white space. *)
Definition starts_clean (s : string) : Prop :=
  match s with
  | EmptyString => True
  | String a _ => py_isspace a = false
  end.

Definition missing_key_message : string :=
  "GROQ_API_KEY is missing. Set it in .env or environment variables.".

(** ** More of the scripted world *)

Module Cases.
(** The scripted world without an API key in the environment. *)
Definition keyless : Externals := {|
  World := Demo.Script;
  groq_chat := Demo.chat;
  requests_get := Demo.get;
  getenv := λ _, None;
  json_loads := Demo.loads;
  json_dumps := Demo.show;
  py_repr := Demo.show;
  int_of_float := λ _, throw ValueError "cannot convert float to integer";
  int_of_str := Demo.int_of_string;
  float_of_int := λ _, throw OverflowError "int too large to convert to float";
  float_as_int := λ _, None;
  str_upper := Demo.upper;
  str_lower := Demo.lower;
  utc_strftime := λ t, Ok (pretty t);
  rss_items := λ _, throw ParseError "syntax error";
  pydantic_int := λ v, match v with JInt z => Some z | _ => None end;
  PLANNER_SYSTEM := "You are PlannerAgent.";
  planner_user_prompt := λ task, "User task: " +:+ task;
  VERIFIER_SYSTEM := "You are VerifierAgent.";
  verifier_user_prompt := λ task plan_json results_json,
    "User task: " +:+ task +:+ " plan: " +:+ plan_json
    +:+ " results: " +:+ results_json;
|}.

(** A chat endpoint that gives the same answer to every request and counts
    the requests. *)
Definition answer (r : Response)
    : string → list (string * string) → PyDict → M nat Response :=
  λ _ _ _ n, (Ok r, S n).

Definition denied : Response :=
  mkResponse 401 "invalid key" (throw JSONDecodeError "Expecting value")
    "text/plain" "https://api.groq.com/openai/v1/chat/completions".

Definition busy : Response :=
  mkResponse 503 "try later" (throw JSONDecodeError "Expecting value")
    "text/plain" "https://api.groq.com/openai/v1/chat/completions".

(** A page of HTML served with status 200, and the world that serves it
    once. *)
Definition html_page : Response :=
  mkResponse 200 "<html></html>" (throw JSONDecodeError "Expecting value")
    "text/html" "https://example.org/".

Definition serves_html : Demo.Script := Demo.mkScript [] [Ok html_page].
Definition served : Demo.Script := Demo.mkScript [] [].

(** A good answer of the chat endpoint. *)
Definition greeting_body : Json :=
  JObj [("choices",
         JArr [JObj [("message", JObj [("role", JStr "assistant");
                                       ("content", JStr "hi")])]])].

Definition greeting : Response :=
  mkResponse 200 "..." (Ok greeting_body) "application/json"
    "https://api.groq.com/openai/v1/chat/completions".

Definition hello : list Message := [mkMessage "user" "hello"].
Definition client : GroqClient.t := GroqClient.mk "gsk" "llama".

(** A search step whose [top_n] is not a number. *)
Definition search_args : PyDict := [("query", JStr "rocq"); ("top_n", JStr "many")].

Definition search_step : PlanStep.t :=
  PlanStep.mk 1 "Find repositories" (Some "github_repo_search") search_args
    "repos" [].

Definition lone_step : PlanStep.t :=
  PlanStep.mk 1 "Say hello" None [] "final" [].

(** A model whose one reply has no text: its content is [null]. *)
Definition says_null : Demo.Script := Demo.mkScript [Ok JNull] [].

(** An executor with a model. *)
Definition composer : ExecutorAgent.t := ExecutorAgent.mk (Some client).

(** A plan as a model may send it, with the optional fields left out. *)
Definition terse_plan : Json :=
  JObj [("objective", JStr "weather in Paris");
        ("steps",
         JArr [JObj [("id", JInt 1); ("action", JStr "Get the weather in Paris");
                     ("tool_name", JStr "weather_current");
                     ("tool_args", JObj [("city", JStr "Paris")]);
                     ("output_key", JStr "weather")];
               JObj [("id", JInt 2); ("action", JStr "Summarise the weather");
                     ("output_key", JStr "final");
                     ("depends_on", JArr [JInt 1])]])].

Definition terse_verdict : Json := JObj [("status", JStr "complete")].

(** A fix step without an action: a valid [VerifierStep], not a valid
    [PlanStep]. *)
Definition blank_fix : VerifierStep.t :=
  VerifierStep.mk 1001 "" "weather_current" [("city", JStr "Paris")] "weather" [].

(** The outcome of the batch of the weather plan with every request
    failing. *)
Definition offline_batch : Res ExecutionState.t * @Sys Demo.ext :=
  ExecutorAgent._run_steps (H := Demo.ext) Demo.executor
    (AgentPlan.steps Demo.weather_plan)
    (Demo.fresh "weather in Paris" Demo.weather_plan)
    (Demo.start Demo.offline).

Definition offline_state : ExecutionState.t :=
  match offline_batch.1 with
  | Ok s => s
  | Raise _ => Demo.fresh "weather in Paris" Demo.weather_plan
  end.
End Cases.

(** * Properties *)

(** ** Reasoning about [Res] *)

Lemma res_bind_Ok {A B} (r : Res A) (f : A → Res B) (b : B) :
  r ≫= f = Ok b → ∃ a, r = Ok a ∧ f a = Ok b.
Proof. destruct r as [a|e]; simpl; [eauto | discriminate]. Qed.

Lemma res_bind_Raise {A B} (r : Res A) (f : A → Res B) (e : Exn) :
  r ≫= f = Raise e → r = Raise e ∨ ∃ a, r = Ok a ∧ f a = Raise e.
Proof. destruct r as [a|e']; simpl; [eauto | intros [= ->]; auto]. Qed.

(** Splits every hypothesis that says a chain of binds succeeded. *)
Ltac res_inv :=
  repeat match goal with
         | H : _ ≫= _ = Ok _ |- _ =>
             apply res_bind_Ok in H; destruct H as (? & ? & H)
         | H : Ok _ = Ok _ |- _ => injection H as H; subst
         | H : Raise _ = Ok _ |- _ => discriminate H
         | H : throw _ _ = Ok _ |- _ => discriminate H
         end.

Lemma check_ge_Ok field n v x : check_ge field n v = Ok x → x = v ∧ n ≤ v.
Proof.
  unfold check_ge. destruct (n <=? v) eqn:E; [|discriminate].
  intros [= <-]. split; [done | lia].
Qed.

Lemma check_min_length_Ok field n v x :
  check_min_length field n v = Ok x → x = v ∧ (n ≤ String.length v)%nat.
Proof.
  unfold check_min_length. destruct (n <=? String.length v)%nat eqn:E; [|discriminate].
  intros [= <-]. split; [done | by apply Nat.leb_le].
Qed.

Lemma check_literal_Ok field values v x :
  check_literal field values v = Ok x → x = v ∧ v ∈ values.
Proof.
  unfold check_literal. destruct (existsb _ _) eqn:E; [|discriminate].
  intros [= <-]. split; [done|].
  apply existsb_exists in E as (y & Hy & Heq).
  apply String.eqb_eq in Heq as ->. by apply list_elem_of_In.
Qed.

Lemma existsb_Zeqb x l : existsb (Z.eqb x) l = true ↔ x ∈ l.
Proof.
  rewrite existsb_exists. split.
  - intros (y & Hy & ->%Z.eqb_eq). by apply list_elem_of_In.
  - intros Hx. exists x. split; [by apply list_elem_of_In | apply Z.eqb_refl].
Qed.

Lemma as_validation_Ok {A} (r : Res A) a : as_validation r = Ok a → r = Ok a.
Proof. destruct r as [|e]; simpl; [done|]. by destruct (is_value_error e). Qed.

Lemma depends_on_no_self_Ok v i d :
  depends_on_no_self v (Some i) = Ok d → d = v ∧ (i = 0 ∨ i ∉ v).
Proof.
  unfold depends_on_no_self.
  destruct (negb (i =? 0)) eqn:E0; simpl.
  - destruct (existsb (Z.eqb i) v) eqn:E; [discriminate|].
    intros [= <-]. split; [done|]. right. rewrite <- existsb_Zeqb. by rewrite E.
  - intros [= <-]. split; [done|]. left.
    apply negb_false_iff, Z.eqb_eq in E0. done.
Qed.

(** What a successfully constructed step satisfies. *)
Lemma PlanStep_init_Ok i a tn ta k d s :
  PlanStep_init i a tn ta k d = Ok s →
  s = PlanStep.mk i a tn ta k d
  ∧ 1 ≤ i
  ∧ (1 ≤ String.length a)%nat
  ∧ (1 ≤ String.length k)%nat
  ∧ (∀ t, tn = Some t → t ∈ ToolName)
  ∧ i ∉ d.
Proof.
  unfold PlanStep_init. intros H. res_inv.
  match goal with H : check_ge _ _ _ = _ |- _ =>
    pose proof (check_ge_Ok _ _ _ _ H) as [-> Hi]; rewrite H in * end.
  repeat match goal with H : check_min_length _ _ _ = _ |- _ =>
    apply check_min_length_Ok in H as [-> ?] end.
  match goal with H : as_validation _ = _ |- _ =>
    apply as_validation_Ok, depends_on_no_self_Ok in H as [-> Hd] end.
  destruct tn as [t|]; res_inv.
  - match goal with H : check_literal _ _ _ = _ |- _ =>
      apply check_literal_Ok in H as [-> ?] end.
    repeat split; try done; [by intros ? [= <-] | destruct Hd; [lia | done]].
  - repeat split; try done. destruct Hd; [lia | done].
Qed.

Lemma res_bind_kind {A B} (r : Res A) (f : A → Res B) (P : Exn → Prop) e :
  r ≫= f = Raise e →
  (∀ e', r = Raise e' → P e') →
  (∀ a e', r = Ok a → f a = Raise e' → P e') →
  P e.
Proof. destruct r as [a|e']; simpl; intros H H1 H2; [eauto | injection H as <-; eauto]. Qed.

Lemma check_ge_Raise field n v e :
  check_ge field n v = Raise e → exn_kind e = ValidationError.
Proof. unfold check_ge. case_match; [done|]. by intros [= <-]. Qed.

Lemma check_min_length_Raise field n v e :
  check_min_length field n v = Raise e → exn_kind e = ValidationError.
Proof. unfold check_min_length. case_match; [done|]. by intros [= <-]. Qed.

Lemma check_literal_Raise field values v e :
  check_literal field values v = Raise e → exn_kind e = ValidationError.
Proof. unfold check_literal. case_match; [done|]. by intros [= <-]. Qed.

(** The constructor fails with a validation error only. *)
Lemma PlanStep_init_Raise i a tn ta k d e :
  PlanStep_init i a tn ta k d = Raise e → exn_kind e = ValidationError.
Proof.
  unfold PlanStep_init. intros E.
  eapply (res_bind_kind _ _ (λ x, exn_kind x = ValidationError));
    [exact E | apply check_ge_Raise |].
  intros i' e1 Hi E1.
  eapply (res_bind_kind _ _ (λ x, exn_kind x = ValidationError));
    [exact E1 | apply check_min_length_Raise |].
  intros a' e2 _ E2.
  eapply (res_bind_kind _ _ (λ x, exn_kind x = ValidationError)); [exact E2 | |].
  { destruct tn as [t|]; [|done]. intros e3 E3.
    eapply (res_bind_kind _ _ (λ x, exn_kind x = ValidationError));
      [exact E3 | apply check_literal_Raise | done]. }
  intros tn' e3 _ E3.
  eapply (res_bind_kind _ _ (λ x, exn_kind x = ValidationError));
    [exact E3 | apply check_min_length_Raise |].
  intros k' e4 _ E4.
  eapply (res_bind_kind _ _ (λ x, exn_kind x = ValidationError)); [exact E4 | | done].
  intros e5. rewrite Hi. simpl. unfold depends_on_no_self.
  destruct (negb (i' =? 0) && existsb (Z.eqb i') d); unfold throw; simpl; [|done].
  by intros [= <-].
Qed.

(** A step that names itself among its dependencies is not constructed. *)
Lemma PlanStep_init_self i a tn ta k d :
  i ∈ d → ∃ e, PlanStep_init i a tn ta k d = Raise e ∧ exn_kind e = ValidationError.
Proof.
  intros Hin. destruct (PlanStep_init i a tn ta k d) as [s|e] eqn:E.
  - pose proof (PlanStep_init_Ok _ _ _ _ _ _ _ E) as (_ & _ & _ & _ & _ & Hn). done.
  - exists e. split; [done|]. by eapply PlanStep_init_Raise.
Qed.

(** [len(ids) == len(set(ids))] says that the identifiers are distinct. *)
Lemma size_list_to_set_le (l : list Z) : (size (list_to_set l : gset Z) ≤ length l)%nat.
Proof.
  induction l as [|x l IH]; simpl; [done|].
  rewrite size_union_alt, size_singleton.
  assert (size (list_to_set l ∖ {[x]} : gset Z) ≤ size (list_to_set l : gset Z))%nat.
  { apply subseteq_size. set_solver. }
  lia.
Qed.

Lemma length_eq_size_NoDup (l : list Z) :
  length l = size (list_to_set l : gset Z) ↔ NoDup l.
Proof.
  split; [|intros; by rewrite size_list_to_set].
  induction l as [|x l IH]; simpl; [constructor|].
  intros Hlen. destruct (decide (x ∈ l)) as [Hin|Hnin].
  - exfalso.
    assert ({[x]} ∪ list_to_set l = (list_to_set l : gset Z)) as Heq by set_solver.
    rewrite Heq in Hlen. pose proof (size_list_to_set_le l). lia.
  - constructor; [done|]. apply IH.
    rewrite size_union in Hlen by set_solver.
    rewrite size_singleton in Hlen. lia.
Qed.

Lemma unique_ids_Ok steps st :
  unique_ids steps = Ok st →
  st = steps
  ∧ NoDup (map PlanStep.id steps)
  ∧ ∃ l, last steps = Some l
         ∧ PlanStep.tool_name l = None ∧ PlanStep.output_key l = "final".
Proof.
  unfold unique_ids.
  destruct (length _ =? size _)%nat eqn:El; simpl; [|discriminate].
  apply Nat.eqb_eq, length_eq_size_NoDup in El.
  destruct (last steps) as [l|]; [|discriminate].
  destruct (String.eqb (PlanStep.output_key l) "final") eqn:Ek; simpl; [|discriminate].
  destruct (PlanStep.tool_name l) eqn:Et; simpl; [discriminate|].
  intros [= <-]. apply String.eqb_eq in Ek. eauto 10.
Qed.

Lemma unique_ids_Raise steps e :
  steps ≠ [] → unique_ids steps = Raise e → exn_kind e = ValueError.
Proof.
  intros Hne. unfold unique_ids.
  case_match; [by intros [= <-]|].
  destruct (last steps) eqn:El.
  - case_match; [by intros [= <-] | done].
  - apply last_None in El. done.
Qed.

Lemma AgentPlan_init_Ok o asm steps p :
  AgentPlan_init o asm steps = Ok p →
  p = AgentPlan.mk o asm steps
  ∧ steps ≠ []
  ∧ NoDup (map PlanStep.id steps)
  ∧ ∃ l, last steps = Some l
         ∧ PlanStep.tool_name l = None ∧ PlanStep.output_key l = "final".
Proof.
  unfold AgentPlan_init. intros H. res_inv.
  match goal with H : check_min_length _ _ _ = _ |- _ =>
    apply check_min_length_Ok in H as [-> ?] end.
  destruct (1 <=? length steps)%nat eqn:El; [|discriminate].
  match goal with H : as_validation _ = _ |- _ =>
    apply as_validation_Ok, unique_ids_Ok in H as (-> & Hnd & Hl) end.
  repeat split; try done. intros ->. done.
Qed.

Lemma AgentPlan_init_Raise o asm steps e :
  AgentPlan_init o asm steps = Raise e → exn_kind e = ValidationError.
Proof.
  unfold AgentPlan_init. intros E.
  eapply (res_bind_kind _ _ (λ x, exn_kind x = ValidationError)); [exact E | apply check_min_length_Raise |].
  intros o' e1 _ E1.
  eapply (res_bind_kind _ _ (λ x, exn_kind x = ValidationError)); [exact E1 | | done].
  intros e2. destruct (1 <=? length steps)%nat eqn:El; [|by intros [= <-]].
  destruct (unique_ids steps) as [|e3] eqn:Eu; simpl; [done|].
  apply unique_ids_Raise in Eu as Hk; [|intros ->; done].
  unfold is_value_error. rewrite Hk. by intros [= <-].
Qed.

Lemma res_mapM_Ok {A B} (f : A → Res B) l ys :
  res_mapM f l = Ok ys → Forall2 (λ x y, f x = Ok y) l ys.
Proof.
  revert ys. induction l as [|x l IH]; simpl; intros ys H.
  - injection H as <-. constructor.
  - res_inv. constructor; auto.
Qed.

Lemma res_mapM_Raise {A B} (f : A → Res B) l x :
  x ∈ l → is_ok (f x) = false →
  ∃ e y, res_mapM f l = Raise e ∧ y ∈ l ∧ f y = Raise e.
Proof.
  intros Hin Hx. induction l as [|z l IH]; [by apply elem_of_nil in Hin|].
  simpl. destruct (f z) as [b|e] eqn:Ez; simpl.
  - apply elem_of_cons in Hin as [->|Hin]; [by rewrite Ez in Hx|].
    destruct (IH Hin) as (e & y & -> & Hy & Hfy). simpl.
    exists e, y. split_and!; [done | by right | done].
  - exists e, z. split_and!; [done | by left | done].
Qed.

Lemma res_mapM_Forall {A B} (f : A → Res B) l ys :
  res_mapM f l = Ok ys → Forall (λ y, ∃ x, f x = Ok y) ys.
Proof.
  intros H%res_mapM_Ok. induction H; constructor; eauto.
Qed.

Section schemas.
Context `{Ext : Externals}.

(** A step read from JSON went through the constructor. *)
Lemma PlanStep_model_validate_Ok data s :
  PlanStep_model_validate data = Ok s →
  ∃ i a tn ta k d, PlanStep_init i a tn ta k d = Ok s.
Proof. unfold PlanStep_model_validate. intros H. res_inv. eauto 10. Qed.

Lemma AgentPlan_model_validate_Ok data p :
  AgentPlan_model_validate data = Ok p →
  ∃ o asm steps,
    AgentPlan_init o asm steps = Ok p
    ∧ Forall (λ s, ∃ d, PlanStep_model_validate d = Ok s) steps.
Proof.
  unfold AgentPlan_model_validate. intros H. res_inv.
  do 3 eexists. split; [eassumption|].
  eapply res_mapM_Forall. eassumption.
Qed.

Lemma VerifierStep_init_Ok i a tn ta k d fs :
  VerifierStep_init i a tn ta k d = Ok fs →
  ∃ t, tn = Some t ∧ fs = VerifierStep.mk i a t ta k d ∧ 1000 ≤ i ∧ t ∈ ToolName.
Proof.
  unfold VerifierStep_init. intros H. res_inv.
  match goal with H : check_ge _ _ _ = _ |- _ => apply check_ge_Ok in H as [-> ?] end.
  destruct tn as [t|]; [|discriminate].
  match goal with H : check_literal _ _ _ = _ |- _ =>
    apply check_literal_Ok in H as [-> ?] end.
  eauto.
Qed.

Lemma VerifierStep_model_validate_Ok data fs :
  VerifierStep_model_validate data = Ok fs →
  ∃ i a t ta k d, VerifierStep_init i a (Some t) ta k d = Ok fs.
Proof. unfold VerifierStep_model_validate. intros H. res_inv. eauto 10. Qed.

(** The registry holds exactly the tool names of the schema. *)
Lemma registry_ToolName (s : string) :
  is_Some (_TOOL_REGISTRY !! s) ↔ s ∈ ToolName.
Proof.
  unfold _TOOL_REGISTRY, ToolName.
  rewrite !lookup_insert, lookup_empty.
  repeat case_decide; subst; split; intros Hs;
    try (by eexists); try (by inversion Hs); set_solver.
Qed.

Lemma get_tool_registered (s : string) :
  s ∈ ToolName → ∃ tool, get_tool s = Ok tool.
Proof.
  intros [tool Ht]%registry_ToolName. exists tool. unfold get_tool. by rewrite Ht.
Qed.

Lemma get_tool_unknown (s : string) :
  s ∉ ToolName →
  get_tool s = throw KeyError (py_repr (JStr ("Unknown tool: " +:+ s))).
Proof.
  intros Hs. unfold get_tool.
  destruct (_TOOL_REGISTRY !! s) eqn:E; [|done].
  exfalso. apply Hs, registry_ToolName. by eexists.
Qed.

End schemas.

Lemma res_bind_is_Raise {A B} (r : Res A) (f : A → Res B) :
  (∀ a, r = Ok a → ∃ e, f a = Raise e) → ∃ e, r ≫= f = Raise e.
Proof. destruct r as [a|e]; simpl; eauto. Qed.

Section schema_claims.
Context `{Ext : Externals}.

(** C5, as the code has it. A plan step that validation lets through never
    lists its own identifier among its dependencies, and the identifiers of
    the steps of a plan that validation lets through are pairwise distinct;
    a plan step that depends on itself and a plan with a repeated identifier
    are both rejected with a validation error. The same holds for a plan
    read from a model reply, step by step. A fix step is not checked in
    this way: validation lets every fix step through whose identifier is at
    least 1000 and whose tool is one of the three, whatever its dependencies
    are, its own identifier included. Such a fix step is only turned away
    when the executor rebuilds it as a plan step, with a validation error
    and before the fix batch is entered. *)
Theorem step_and_plan_identifiers :
  (∀ i a tn ta k d s,
     PlanStep_init i a tn ta k d = Ok s →
     PlanStep.id s ∉ PlanStep.depends_on s)
  ∧ (∀ i a tn ta k d,
       i ∈ d →
       ∃ e, PlanStep_init i a tn ta k d = Raise e ∧ exn_kind e = ValidationError)
  ∧ (∀ o asm steps p,
       AgentPlan_init o asm steps = Ok p →
       NoDup (map PlanStep.id (AgentPlan.steps p)))
  ∧ (∀ o asm steps,
       ¬ NoDup (map PlanStep.id steps) →
       ∃ e, AgentPlan_init o asm steps = Raise e ∧ exn_kind e = ValidationError)
  ∧ (∀ data p,
       AgentPlan_model_validate data = Ok p →
       NoDup (map PlanStep.id (AgentPlan.steps p))
       ∧ Forall (λ s, PlanStep.id s ∉ PlanStep.depends_on s) (AgentPlan.steps p))
  ∧ (∀ self state fix_steps σ fs,
       fs ∈ fix_steps →
       VerifierStep.id fs ∈ VerifierStep.depends_on fs →
       ∃ e, ExecutorAgent.run_fix_steps self state fix_steps σ = (Raise e, σ)
            ∧ exn_kind e = ValidationError)
  ∧ (∀ i a t ta k d,
       1000 ≤ i → t ∈ ToolName →
       VerifierStep_init i a (Some t) ta k d = Ok (VerifierStep.mk i a t ta k d)).
Proof.
  split_and!; cycle 6.
  { intros i a t ta k d Hi Ht.
    assert (check_ge "id" 1000 i = Ok i) as E1.
    { unfold check_ge. destruct (1000 <=? i) eqn:Ei; [done | lia]. }
    assert (check_literal "tool_name" ToolName t = Ok t) as E2.
    { unfold check_literal.
      destruct (existsb (String.eqb t) ToolName) eqn:Et; [done|].
      exfalso. apply not_true_iff_false in Et. apply Et, existsb_exists.
      exists t. split; [by apply list_elem_of_In | apply String.eqb_refl]. }
    unfold VerifierStep_init. cbv zeta. by rewrite E1, E2. }
  - intros * (-> & _ & _ & _ & _ & Hd)%PlanStep_init_Ok. done.
  - intros. by apply PlanStep_init_self.
  - intros * (-> & _ & Hnd & _)%AgentPlan_init_Ok. done.
  - intros o asm steps Hdup.
    destruct (AgentPlan_init o asm steps) as [p|e] eqn:E.
    + apply AgentPlan_init_Ok in E as (_ & _ & Hnd & _). done.
    + exists e. split; [done|]. by eapply AgentPlan_init_Raise.
  - intros data p (o & asm & steps & Hinit & Hsteps)%AgentPlan_model_validate_Ok.
    apply AgentPlan_init_Ok in Hinit as (-> & _ & Hnd & _). simpl.
    split; [done|].
    eapply Forall_impl; [exact Hsteps|]. simpl.
    intros s (d & (i & a & tn & ta & k & dd & Hs)%PlanStep_model_validate_Ok).
    apply PlanStep_init_Ok in Hs as (-> & _ & _ & _ & _ & Hd). done.
  - intros self state fix_steps σ fs Hin Hself.
    destruct (PlanStep_init_self (VerifierStep.id fs) (VerifierStep.action fs)
                (Some (VerifierStep.tool_name fs)) (VerifierStep.tool_args fs)
                (VerifierStep.output_key fs) (VerifierStep.depends_on fs) Hself)
      as (e0 & He0 & _).
    edestruct (res_mapM_Raise
                 (λ fs, PlanStep_init (VerifierStep.id fs) (VerifierStep.action fs)
                          (Some (VerifierStep.tool_name fs)) (VerifierStep.tool_args fs)
                          (VerifierStep.output_key fs) (VerifierStep.depends_on fs))
                 fix_steps fs Hin) as (e & y & Hmap & _ & Hy).
    { simpl. by rewrite He0. }
    exists e. split; [|by eapply PlanStep_init_Raise].
    unfold ExecutorAgent.run_fix_steps. rewrite Hmap. reflexivity.
Qed.

(** C10. A fix step that validation lets through has an identifier of at
    least 1000 and names one of the three registered tools; a fix step
    without a tool name is rejected, whether it is constructed directly or
    read from a model reply, so no fix step is a free-text compose step,
    although a plan step without a tool name is accepted. The plan step the
    executor derives from a fix step carries the same tool name. *)
Theorem fix_step_names_a_registered_tool :
  (∀ i a tn ta k d fs,
     VerifierStep_init i a tn ta k d = Ok fs →
     1000 ≤ VerifierStep.id fs
     ∧ tn = Some (VerifierStep.tool_name fs)
     ∧ VerifierStep.tool_name fs ∈ ToolName
     ∧ is_Some (_TOOL_REGISTRY !! VerifierStep.tool_name fs))
  ∧ (∀ i a ta k d,
       ∃ e, VerifierStep_init i a None ta k d = Raise e
            ∧ exn_kind e = ValidationError)
  ∧ (∀ kvs,
       dict_lookup "tool_name" kvs = None ∨ dict_lookup "tool_name" kvs = Some JNull →
       ∃ e, VerifierStep_model_validate (JObj kvs) = Raise e)
  ∧ (∀ data v,
       VerificationResult_model_validate data = Ok v →
       Forall (λ fs, 1000 ≤ VerifierStep.id fs
                     ∧ is_Some (_TOOL_REGISTRY !! VerifierStep.tool_name fs))
              (VerificationResult.fix_steps v))
  ∧ (∀ i a ta k d,
       1 ≤ i → a ≠ "" → k ≠ "" → i ∉ d →
       PlanStep_init i a None ta k d = Ok (PlanStep.mk i a None ta k d))
  ∧ (∀ fs s,
       PlanStep_init (VerifierStep.id fs) (VerifierStep.action fs)
         (Some (VerifierStep.tool_name fs)) (VerifierStep.tool_args fs)
         (VerifierStep.output_key fs) (VerifierStep.depends_on fs) = Ok s →
       PlanStep.tool_name s = Some (VerifierStep.tool_name fs)).
Proof.
  split_and!.
  - intros * (t & -> & -> & Hi & Ht)%VerifierStep_init_Ok. simpl.
    split_and!; try done. by apply registry_ToolName.
  - intros. unfold VerifierStep_init, check_ge.
    destruct (1000 <=? i); simpl; eexists; (split; [reflexivity|done]).
  - intros kvs Hk. unfold VerifierStep_model_validate. simpl.
    apply res_bind_is_Raise; intros _ _.
    apply res_bind_is_Raise; intros i _.
    apply res_bind_is_Raise; intros a _.
    unfold req_field. destruct Hk as [Hk | Hk]; rewrite Hk; simpl; eauto.
  - intros data v. unfold VerificationResult_model_validate. intros H. res_inv.
    unfold VerificationResult_init in *. res_inv. simpl.
    match goal with H : opt_field _ "fix_steps" _ _ = Ok _ |- _ =>
      unfold opt_field in H; destruct (dict_lookup "fix_steps" _) end;
      res_inv; [|constructor].
    match goal with H : res_mapM _ _ = _ |- _ => apply res_mapM_Forall in H end.
    eapply Forall_impl; [eassumption|]. simpl.
    intros fs (d & (i & a & t & ta & k & dd & Hs)%VerifierStep_model_validate_Ok).
    apply VerifierStep_init_Ok in Hs as (t' & [= <-] & -> & Hi & Ht). simpl.
    split; [done|]. by apply registry_ToolName.
  - intros i a ta k d Hi Ha Hk Hd. unfold PlanStep_init, check_ge, check_min_length.
    destruct (1 <=? i) eqn:Ei; [|lia]. simpl.
    destruct a; [done|]. destruct k; [done|]. simpl.
    unfold depends_on_no_self.
    destruct (existsb (Z.eqb i) d) eqn:Ex; [by apply existsb_Zeqb in Ex|].
    by rewrite andb_false_r.
  - intros fs s (-> & _)%PlanStep_init_Ok. done.
Qed.

End schema_claims.

(** C5, as the specification has it, fails for the steps the verifier
    proposes: the fix step below lists its own identifier among its
    dependencies, yet validation lets it through, on its own and inside a
    verdict read from a model reply. *)
Lemma fix_step_may_depend_on_itself :
  ¬ fix_step_free_of_itself 1000 "Get the weather in Paris again"
      (Some "weather_current") [("city", JStr "Paris")] "weather" [1000]
  ∧ VerificationResult_model_validate (H := Demo.ext)
      (JObj [("status", JStr "needs_fix");
             ("fix_steps",
              JArr [JObj [("id", JInt 1000);
                          ("action", JStr "Get the weather in Paris again");
                          ("tool_name", JStr "weather_current");
                          ("tool_args", JObj [("city", JStr "Paris")]);
                          ("output_key", JStr "weather");
                          ("depends_on", JArr [JInt 1000])]])])
    = Ok (VerificationResult.mk "needs_fix" []
            [VerifierStep.mk 1000 "Get the weather in Paris again"
               "weather_current" [("city", JStr "Paris")] "weather" [1000]]
            []).
Proof.
  split; [|vm_compute; reflexivity].
  unfold fix_step_free_of_itself. simpl. intros H. apply H, list_elem_of_here.
Qed.

(** ** Reasoning about [M] *)

Lemma ensures_ret {S A} (P : A → Prop) (a : A) : P a → ensures (S := S) P (mret a).
Proof. intros H σ. exact H. Qed.

Lemma ensures_bind {S A B} (Q : A → Prop) (P : B → Prop) (m : M S A) (f : A → M S B) :
  ensures Q m → (∀ a, Q a → ensures P (f a)) → ensures P (m ≫= f).
Proof.
  intros Hm Hf σ. specialize (Hm σ).
  unfold mbind, M_bind. destruct (m σ) as [[a|e] σ']; simpl in *; [|done].
  apply (Hf a Hm σ').
Qed.

Lemma ensures_true {S A} (m : M S A) : ensures (λ _, True) m.
Proof. intros σ. by destruct (m σ).1. Qed.

Lemma ensures_lift {S A} (P : A → Prop) (r : Res A) :
  (∀ a, r = Ok a → P a) → ensures (S := S) P (lift r).
Proof. intros H σ. simpl. destruct r; auto. Qed.

Lemma ensures_raise {S A} (P : A → Prop) (e : Exn) : ensures (S := S) P (raise_exn e).
Proof. intros σ. exact I. Qed.

Lemma ensures_init {S} (ok : bool) name data err meta :
  (is_Some err ↔ ok = false) →
  ensures (S := S) tool_result_invariant (lift (ToolResult_init ok name data err meta)).
Proof.
  intros H. apply ensures_lift. unfold ToolResult_init.
  destruct (is_ToolName name); [|discriminate]. intros r [= <-]. exact H.
Qed.

Lemma invariant_failed (s : string) : is_Some (Some s) ↔ false = false.
Proof. split; [done | by eexists]. Qed.

Lemma invariant_succeeded : is_Some (@None string) ↔ true = false.
Proof. split; [by intros [? ?] | done]. Qed.

(** One step through the body of a tool. *)
Ltac tool_step :=
  cbv zeta;
  lazymatch goal with
  | |- ensures _ (lift (ToolResult_init false _ _ (Some _) _)) =>
      apply ensures_init, invariant_failed
  | |- ensures _ (lift (ToolResult_init true _ _ None _)) =>
      apply ensures_init, invariant_succeeded
  | |- ensures _ (raise_exn _) => apply ensures_raise
  | |- ensures _ (raise _ _) => apply ensures_raise
  | |- ensures _ (_ ≫= _) =>
      eapply ensures_bind; [apply ensures_true | intros ? _]
  | |- ensures _ (if ?b then _ else _) => destruct b
  | |- ensures _ (match ?x with _ => _ end) => destruct x
  end.

Section tool_results.
Context `{Ext : Externals}.

Lemma GitHubTool_call_invariant tool_args :
  ensures tool_result_invariant (GitHubTool.call tool_args).
Proof. unfold GitHubTool.call. repeat tool_step. Qed.

Lemma openweather_current_invariant self city :
  ensures tool_result_invariant (WeatherTool._openweather_current self city).
Proof. unfold WeatherTool._openweather_current. repeat tool_step. Qed.

Lemma open_meteo_current_invariant city :
  ensures tool_result_invariant (WeatherTool._open_meteo_current city).
Proof. unfold WeatherTool._open_meteo_current. repeat tool_step. Qed.

Lemma with_meta_invariant r meta :
  tool_result_invariant r → tool_result_invariant (WeatherTool.with_meta r meta).
Proof. done. Qed.

Lemma set_meta_invariant k v r :
  tool_result_invariant r → tool_result_invariant (NewsTool.set_meta k v r).
Proof. done. Qed.

Lemma WeatherTool_call_invariant self tool_args :
  ensures tool_result_invariant (WeatherTool.call self tool_args).
Proof.
  unfold WeatherTool.call. cbv zeta.
  destruct (str_is_empty _); [tool_step|].
  eapply (ensures_bind (λ x, ∀ r, x = inl r → tool_result_invariant r)).
  - destruct (negb _); [|by apply ensures_ret].
    eapply ensures_bind; [apply openweather_current_invariant|].
    intros ow_res Hr. destruct (ToolResult.ok ow_res); apply ensures_ret.
    + by intros ? [= <-].
    + done.
  - intros [ow_res|ow_error] Hfirst; [by apply ensures_ret, Hfirst|].
    eapply ensures_bind; [apply open_meteo_current_invariant|].
    intros om_res Hom. destruct (ToolResult.ok om_res); [|tool_step].
    by apply ensures_ret, with_meta_invariant.
Qed.

Lemma newsapi_search_invariant self query top_n :
  ensures tool_result_invariant (NewsTool._newsapi_search self query top_n).
Proof. unfold NewsTool._newsapi_search. repeat tool_step. Qed.

Lemma gdelt_search_invariant query top_n :
  ensures tool_result_invariant (NewsTool._gdelt_search query top_n).
Proof. unfold NewsTool._gdelt_search. repeat tool_step. Qed.

Lemma googlenews_rss_search_invariant query top_n :
  ensures tool_result_invariant (NewsTool._googlenews_rss_search query top_n).
Proof. unfold NewsTool._googlenews_rss_search. repeat tool_step. Qed.

Lemma NewsTool_call_invariant self tool_args :
  ensures tool_result_invariant (NewsTool.call self tool_args).
Proof.
  unfold NewsTool.call. cbv zeta.
  eapply ensures_bind; [apply ensures_true | intros top_n _].
  destruct (str_is_empty _); [tool_step|].
  destruct (negb _).
  - eapply ensures_bind; [apply newsapi_search_invariant | intros res Hres].
    destruct (ToolResult.ok res); [by apply ensures_ret|].
    eapply ensures_bind; [apply gdelt_search_invariant | intros gd Hgd].
    destruct (ToolResult.ok gd); [by apply ensures_ret; repeat apply set_meta_invariant|].
    eapply ensures_bind; [apply googlenews_rss_search_invariant | intros rss Hrss].
    destruct (ToolResult.ok rss); by apply ensures_ret; repeat apply set_meta_invariant.
  - eapply ensures_bind; [apply gdelt_search_invariant | intros gd Hgd].
    destruct (ToolResult.ok gd); [by apply ensures_ret|].
    eapply ensures_bind; [apply googlenews_rss_search_invariant | intros rss Hrss].
    destruct (ToolResult.ok rss); by apply ensures_ret; repeat apply set_meta_invariant.
Qed.

(** Whatever a registered capability returns satisfies the invariant. *)
Lemma BaseTool_call_invariant tool tool_args :
  ensures tool_result_invariant (BaseTool_call tool tool_args).
Proof.
  destruct tool; simpl.
  - apply GitHubTool_call_invariant.
  - apply WeatherTool_call_invariant.
  - apply NewsTool_call_invariant.
Qed.

End tool_results.

(** ** Dictionaries *)

Lemma dict_lookup_set_eq k v d : dict_lookup k (dict_set k v d) = Some v.
Proof.
  induction d as [|[k' v'] d IH]; simpl.
  - by rewrite String.eqb_refl.
  - destruct (String.eqb k k') eqn:E; simpl; rewrite ?String.eqb_refl, ?E; done.
Qed.

Lemma dict_lookup_set_ne k k' v d :
  k ≠ k' → dict_lookup k' (dict_set k v d) = dict_lookup k' d.
Proof.
  intros Hne. induction d as [|[k0 v0] d IH]; simpl.
  - destruct (String.eqb k' k) eqn:E; [|done]. apply String.eqb_eq in E. congruence.
  - destruct (String.eqb k k0) eqn:E; simpl.
    + apply String.eqb_eq in E as <-.
      destruct (String.eqb k' k) eqn:E'; [|done]. apply String.eqb_eq in E'. congruence.
    + destruct (String.eqb k' k0); [done | apply IH].
Qed.

Lemma dict_set_keeps k v d k' :
  is_Some (dict_lookup k' d) → is_Some (dict_lookup k' (dict_set k v d)).
Proof.
  intros H. destruct (decide (k = k')) as [->|Hne].
  - rewrite dict_lookup_set_eq. by eexists.
  - by rewrite dict_lookup_set_ne.
Qed.

(** ** The executor's state only grows *)

#[local] Instance extends_refl : Reflexive extends.
Proof. intros s. unfold extends. split_and!; done. Qed.

#[local] Instance extends_trans : Transitive extends.
Proof.
  intros s1 s2 s3 (Ht1 & Hp1 & Hr1 & Hs1 & Hl1) (Ht2 & Hp2 & Hr2 & Hs2 & Hl2).
  unfold extends. split_and!; [congruence | congruence | auto | set_solver | by etrans].
Qed.

Lemma extends_set_status i v s : extends s (ExecutionState.set_status i v s).
Proof.
  unfold extends; simpl. split_and!; try done. rewrite dom_insert. set_solver.
Qed.

Lemma extends_set_result k v s : extends s (ExecutionState.set_result k v s).
Proof.
  unfold extends; simpl. split_and!; try done. intros k'. apply dict_set_keeps.
Qed.

Lemma extends_append_log line s : extends s (ExecutionState.append_log line s).
Proof.
  unfold extends; simpl. split_and!; try done. by apply prefix_app_r.
Qed.

Lemma ensures_in_world `{Externals} {A} (P : A → Prop) (m : M World A) :
  ensures P m → ensures P (in_world m).
Proof.
  intros Hm σ. specialize (Hm (world σ)). unfold in_world.
  by destruct (m (world σ)) as [[a|e] w].
Qed.

Lemma ensures_attempt {S A} (P : A → Prop) (m : M S A) :
  ensures P m → ensures (λ r, ∀ a, r = Ok a → P a) (attempt m).
Proof.
  intros Hm σ. specialize (Hm σ). unfold attempt.
  destruct (m σ) as [[a|e] σ']; simpl in *; [by intros ? [= <-] | done].
Qed.

Lemma ensures_weaken {S A} (P Q : A → Prop) (m : M S A) :
  (∀ a, P a → Q a) → ensures P m → ensures Q m.
Proof. intros HPQ Hm σ. specialize (Hm σ). destruct (m σ).1; auto. Qed.

Lemma ensures_run {S A} (P : A → Prop) (m : M S A) σ a σ' :
  ensures P m → m σ = (Ok a, σ') → P a.
Proof. intros Hm E. specialize (Hm σ). by rewrite E in Hm. Qed.

Lemma m_bind_Ok {S A B} (m : M S A) (f : A → M S B) σ b σ' :
  (m ≫= f) σ = (Ok b, σ') → ∃ a σ1, m σ = (Ok a, σ1) ∧ f a σ1 = (Ok b, σ').
Proof.
  unfold mbind, M_bind. destruct (m σ) as [[a|e] σ1]; [eauto | discriminate].
Qed.

Lemma m_bind_run {S A B} (m : M S A) (f : A → M S B) σ a σ1 :
  m σ = (Ok a, σ1) → (m ≫= f) σ = f a σ1.
Proof. unfold mbind, M_bind. by intros ->. Qed.

Lemma m_bind_raise {S A B} (m : M S A) (f : A → M S B) σ e σ1 :
  m σ = (Raise e, σ1) → (m ≫= f) σ = (Raise e, σ1).
Proof. unfold mbind, M_bind. by intros ->. Qed.

Lemma m_ret_Ok {S A} (a b : A) (σ σ' : S) :
  mret (M := M S) a σ = (Ok b, σ') → b = a ∧ σ' = σ.
Proof. by intros [= <- <-]. Qed.

(** Splits a hypothesis that says a chain of binds in [M] returned. *)
Ltac m_inv :=
  repeat match goal with
         | H : (_ ≫= _) _ = (Ok _, _) |- _ =>
             apply m_bind_Ok in H; destruct H as (? & ? & ? & H)
         | H : mret _ _ = (Ok _, _) |- _ =>
             apply m_ret_Ok in H; destruct H as [-> ->]
         end.

Section executor.
Context `{Ext : Externals}.
Implicit Types (self : ExecutorAgent.t) (step : PlanStep.t) (state : ExecutionState.t).

Lemma deps_all_ok_true deps state :
  ExecutorAgent.deps_all_ok deps state = true ↔
  ∀ dep, dep ∈ deps → ExecutionState.step_status state !! dep = Some "ok".
Proof.
  induction deps as [|d deps IH]; simpl.
  - split; [intros _ dep Hd; by apply elem_of_nil in Hd | done].
  - unfold ExecutorAgent.status_is_ok at 1.
    destruct (ExecutionState.step_status state !! d) as [s|] eqn:Es; simpl.
    + destruct (String.eqb s "ok") eqn:E; simpl.
      * apply String.eqb_eq in E as ->. rewrite IH. split.
        -- intros H dep [->|Hd]%elem_of_cons; auto.
        -- intros H dep Hd. apply H. by right.
      * split; [done|]. intros H. specialize (H d (list_elem_of_here _ _)).
        rewrite Es in H. injection H as ->. by rewrite String.eqb_refl in E.
    + split; [done|]. intros H. specialize (H d (list_elem_of_here _ _)).
      by rewrite Es in H.
Qed.

(** The gate turns a step away exactly when some dependency is not
    recorded as ok. *)
Lemma deps_ok_false step state :
  ExecutorAgent._deps_ok step state = false ↔
  ∃ dep, dep ∈ PlanStep.depends_on step
         ∧ ExecutionState.step_status state !! dep ≠ Some "ok".
Proof.
  unfold ExecutorAgent._deps_ok. split.
  - induction (PlanStep.depends_on step) as [|d deps IH]; simpl; [done|].
    destruct (ExecutorAgent.status_is_ok state d) eqn:E; simpl.
    + intros (dep & Hin & Hne)%IH. exists dep. split; [by right | done].
    + intros _. exists d. split; [by left|].
      unfold ExecutorAgent.status_is_ok in E. intros Hs. rewrite Hs in E.
      by rewrite String.eqb_refl in E.
  - intros (dep & Hin & Hne). apply not_true_iff_false. rewrite deps_all_ok_true.
    intros H. by apply Hne, H.
Qed.

Lemma run_step_skipped self step state σ :
  ExecutorAgent._deps_ok step state = false →
  ExecutorAgent._run_step self step state σ = (Ok (skipped step state), σ).
Proof. unfold ExecutorAgent._run_step. by intros ->. Qed.

Lemma run_step_unknown self step state σ tn :
  ExecutorAgent._deps_ok step state = true →
  PlanStep.tool_name step = Some tn →
  tn ∉ ToolName →
  ExecutorAgent._run_step self step state σ
  = (Raise (mkExn KeyError (py_repr (JStr ("Unknown tool: " +:+ tn)))), σ).
Proof.
  unfold ExecutorAgent._run_step. intros -> -> Hn. simpl.
  by rewrite get_tool_unknown.
Qed.

(** What a tool step leaves behind. *)
Lemma run_step_tool self step state σ tn state' σ' :
  ExecutorAgent._deps_ok step state = true →
  PlanStep.tool_name step = Some tn →
  ExecutorAgent._run_step self step state σ = (Ok state', σ') →
  ∃ r line1 line2,
    tool_result_invariant r
    ∧ state' = ExecutionState.append_log line2
                 (ExecutionState.set_status (PlanStep.id step)
                    (if ToolResult.ok r then "ok" else "failed")
                    (ExecutionState.set_result (PlanStep.output_key step)
                       (ToolResult_model_dump r)
                       (ExecutionState.append_log line1 state))).
Proof.
  unfold ExecutorAgent._run_step. intros -> -> H. simpl in H.
  apply m_bind_Ok in H as (tool & σ1 & Htool & H).
  cbv zeta in H.
  apply m_bind_Ok in H as (rr & σ2 & Hrr & H).
  apply m_bind_Ok in H as (tool_res & σ3 & Hres & H).
  assert (tool_result_invariant tool_res) as Hinv.
  { destruct rr as [r|e].
    - apply m_ret_Ok in Hres as [-> ->].
      eapply (ensures_run _ _ _ _ _ (ensures_attempt _ _
               (ensures_in_world _ _ (BaseTool_call_invariant tool _)))); eauto.
    - eapply ensures_run; [|exact Hres]. apply ensures_init, invariant_failed. }
  exists tool_res. destruct (ToolResult.ok tool_res) eqn:Eok;
    apply m_ret_Ok in H as [-> ->]; eauto.
Qed.

Lemma run_step_extends self step state :
  ensures (extends state) (ExecutorAgent._run_step self step state).
Proof.
  unfold ExecutorAgent._run_step. cbv zeta.
  destruct (negb _).
  - apply ensures_ret.
    etrans; [apply extends_set_status | apply extends_append_log].
  - destruct (PlanStep.tool_name step) as [tn|].
    + eapply ensures_bind; [apply ensures_true | intros tool _].
      eapply ensures_bind; [apply ensures_true | intros rr _].
      eapply ensures_bind; [apply ensures_true | intros tool_res _].
      destruct (ToolResult.ok tool_res); apply ensures_ret;
        (etrans; [apply extends_append_log|]);
        (etrans; [apply extends_set_result|]);
        (etrans; [apply extends_set_status|]); apply extends_append_log.
    + eapply ensures_bind; [apply ensures_true | intros text _].
      apply ensures_ret.
      etrans; [apply extends_set_status|].
      etrans; [apply extends_set_result|]. apply extends_append_log.
Qed.

Lemma run_steps_for_extends self steps state :
  ensures (extends state) (ExecutorAgent._run_steps_for self steps state).
Proof.
  revert state. induction steps as [|step rest IH]; intros state; simpl.
  - by apply ensures_ret.
  - eapply ensures_bind; [apply run_step_extends|].
    intros s1 H1. eapply ensures_weaken; [|apply IH].
    intros s2 H2. by etrans.
Qed.

Lemma run_steps_for_app self l1 l2 state σ :
  ExecutorAgent._run_steps_for self (l1 ++ l2) state σ
  = match ExecutorAgent._run_steps_for self l1 state σ with
    | (Ok s1, σ1) => ExecutorAgent._run_steps_for self l2 s1 σ1
    | (Raise e, σ1) => (Raise e, σ1)
    end.
Proof.
  revert state σ. induction l1 as [|step l1 IH]; intros state σ; simpl; [done|].
  unfold mbind, M_bind.
  destruct (ExecutorAgent._run_step self step state σ) as [[s1|e] σ1]; [apply IH | done].
Qed.

(** A step only writes the status of its own identifier. *)
Lemma run_step_other_status self step state σ state' σ' i :
  ExecutorAgent._run_step self step state σ = (Ok state', σ') →
  i ≠ PlanStep.id step →
  ExecutionState.step_status state' !! i = ExecutionState.step_status state !! i.
Proof.
  intros H Hne.
  destruct (ExecutorAgent._deps_ok step state) eqn:Eg.
  - destruct (PlanStep.tool_name step) as [tn|] eqn:Et.
    + eapply run_step_tool in H as (r & l1 & l2 & _ & ->); [|done..].
      simpl. by rewrite lookup_insert_ne.
    + unfold ExecutorAgent._run_step in H. rewrite Eg, Et in H. simpl in H.
      m_inv. simpl. by rewrite lookup_insert_ne.
  - rewrite run_step_skipped in H by done. injection H as <- <-.
    simpl. by rewrite lookup_insert_ne.
Qed.

Lemma run_steps_for_other_status self steps state σ state' σ' i :
  ExecutorAgent._run_steps_for self steps state σ = (Ok state', σ') →
  i ∉ map PlanStep.id steps →
  ExecutionState.step_status state' !! i = ExecutionState.step_status state !! i.
Proof.
  revert state σ. induction steps as [|step rest IH]; intros state σ; simpl.
  - by intros [= <- <-].
  - intros H Hi. apply m_bind_Ok in H as (s1 & σ1 & H1 & H).
    apply not_elem_of_cons in Hi as [Hne Hi].
    rewrite (IH _ _ H Hi). by eapply run_step_other_status.
Qed.

(** In a batch with distinct identifiers, started where none of them is
    recorded as ok, a step with a dependency that does not end as ok ends as
    skipped. *)
Lemma run_steps_for_skip_propagation self steps state σ state' σ' :
  ExecutorAgent._run_steps_for self steps state σ = (Ok state', σ') →
  NoDup (map PlanStep.id steps) →
  (∀ i, i ∈ map PlanStep.id steps →
        ExecutionState.step_status state !! i ≠ Some "ok") →
  ∀ a dep,
    a ∈ steps → dep ∈ PlanStep.depends_on a →
    ExecutionState.step_status state' !! dep ≠ Some "ok" →
    ExecutionState.step_status state' !! PlanStep.id a = Some "skipped".
Proof.
  revert state σ. induction steps as [|step rest IH]; intros state σ; simpl.
  - intros _ _ _ a dep Ha. by apply elem_of_nil in Ha.
  - intros H Hnd Hinit a dep Ha Hdep Hfinal.
    pose proof H as Hall.
    apply m_bind_Ok in H as (s1 & σ1 & H1 & H).
    apply NoDup_cons in Hnd as [Hfresh Hnd].
    apply elem_of_cons in Ha as [->|Ha].
    + (* the step at the head: it met the gate in the initial state *)
      rewrite (run_steps_for_other_status _ _ _ _ _ _ _ H Hfresh).
      assert (ExecutionState.step_status state !! dep ≠ Some "ok") as Hdep0.
      { destruct (decide (dep ∈ PlanStep.id step :: map PlanStep.id rest)) as [Hin|Hout].
        - by apply Hinit.
        - by rewrite <- (run_steps_for_other_status self (step :: rest)
                          state σ state' σ' dep Hall Hout). }
      assert (ExecutorAgent._deps_ok step state = false) as Hgate
        by (apply deps_ok_false; eauto).
      rewrite run_step_skipped in H1 by done. injection H1 as <- <-.
      simpl. by rewrite lookup_insert_eq.
    + (* a later step: the head did not touch the other identifiers *)
      eapply (IH s1 σ1); eauto.
      intros i Hi.
      rewrite (run_step_other_status _ _ _ _ _ _ i H1) by (intros ->; done).
      apply Hinit. by right.
Qed.

End executor.

Section executor_claims.
Context `{Ext : Externals}.

(** C3. A step runs only if every identifier in its dependency list is
    recorded as ok. Otherwise the loop records the step as skipped, stores
    nothing (the results are untouched) and calls neither a tool nor the
    model (the world and the trace are untouched), whatever the step's tool
    would have done. Inside a batch: once a dependency of a step stands as
    skipped or failed when the step's turn comes, the batch goes on from the
    skipped state; and at the end of the batch of a plan with distinct
    identifiers, a step one of whose dependencies ended as skipped or failed
    has ended as skipped. *)
Theorem dependency_gate_skips :
  (∀ step state,
     ExecutorAgent._deps_ok step state = true ↔
     ∀ dep, dep ∈ PlanStep.depends_on step →
            ExecutionState.step_status state !! dep = Some "ok")
  ∧ (∀ self step state σ,
       (∃ dep, dep ∈ PlanStep.depends_on step
               ∧ ExecutionState.step_status state !! dep ≠ Some "ok") →
       ExecutorAgent._run_step self step state σ = (Ok (skipped step state), σ)
       ∧ ExecutionState.step_status (skipped step state) !! PlanStep.id step
         = Some "skipped"
       ∧ ExecutionState.results (skipped step state) = ExecutionState.results state)
  ∧ (∀ self before a rest state σ s1 σ1 dep,
       ExecutorAgent._run_steps_for self before state σ = (Ok s1, σ1) →
       dep ∈ PlanStep.depends_on a →
       ExecutionState.step_status s1 !! dep = Some "skipped"
       ∨ ExecutionState.step_status s1 !! dep = Some "failed" →
       ExecutorAgent._run_steps_for self (before ++ a :: rest) state σ
       = ExecutorAgent._run_steps_for self rest (skipped a s1) σ1)
  ∧ (∀ self task plan σ state' σ',
       NoDup (map PlanStep.id (AgentPlan.steps plan)) →
       ExecutorAgent.run self task plan σ = (Ok state', σ') →
       ∀ a b,
         a ∈ AgentPlan.steps plan → b ∈ AgentPlan.steps plan →
         PlanStep.id b ∈ PlanStep.depends_on a →
         ExecutionState.step_status state' !! PlanStep.id b = Some "skipped"
         ∨ ExecutionState.step_status state' !! PlanStep.id b = Some "failed" →
         ExecutionState.step_status state' !! PlanStep.id a = Some "skipped").
Proof.
  split_and!.
  - intros. apply deps_all_ok_true.
  - intros self step state σ Hdep%deps_ok_false.
    split_and!; [by apply run_step_skipped | | done].
    simpl. by rewrite lookup_insert_eq.
  - intros self before a rest state σ s1 σ1 dep Hbefore Hin Hst.
    assert (ExecutorAgent._deps_ok a s1 = false) as Hgate.
    { apply deps_ok_false. exists dep. split; [done|].
      destruct Hst as [-> | ->]; done. }
    rewrite run_steps_for_app, Hbefore. simpl.
    by rewrite (m_bind_run _ _ _ _ _ (run_step_skipped self a s1 σ1 Hgate)).
  - intros self task plan σ state' σ' Hnd Hrun a b Ha _ Hdep Hst.
    unfold ExecutorAgent.run, ExecutorAgent._run_steps in Hrun.
    apply m_bind_Ok in Hrun as ([] & σ1 & _ & Hrun).
    refine (run_steps_for_skip_propagation self _ _ _ _ _ Hrun Hnd _
              a (PlanStep.id b) Ha Hdep _).
    + intros i _. simpl. by rewrite lookup_empty.
    + destruct Hst as [-> | ->]; done.
Qed.

(** C8. Every Tool Result the system produces has an error exactly when it
    is not ok: the results returned by the three registered capabilities,
    the result the executor makes out of an exception, and therefore every
    result the executor stores for a tool step, whose status is ok or failed
    according to the same flag. *)
Theorem tool_result_error_iff_failed :
  (∀ tool tool_args w r w',
     BaseTool_call tool tool_args w = (Ok r, w') → tool_result_invariant r)
  ∧ (∀ tool_name e r,
       ToolResult_init false tool_name [] (Some (exn_msg e)) [] = Ok r →
       tool_result_invariant r)
  ∧ (∀ self step state σ state' σ' tn,
       PlanStep.tool_name step = Some tn →
       ExecutorAgent._deps_ok step state = true →
       ExecutorAgent._run_step self step state σ = (Ok state', σ') →
       ∃ r, tool_result_invariant r
            ∧ dict_lookup (PlanStep.output_key step) (ExecutionState.results state')
              = Some (ToolResult_model_dump r)
            ∧ ExecutionState.step_status state' !! PlanStep.id step
              = Some (if ToolResult.ok r then "ok" else "failed")).
Proof.
  split_and!.
  - intros tool tool_args w r w' H.
    eapply ensures_run; [apply BaseTool_call_invariant | exact H].
  - intros tool_name e r H.
    eapply (ensures_run (S := unit) _ (lift _) tt r tt).
    + apply ensures_init, invariant_failed.
    + unfold lift. by rewrite H.
  - intros self step state σ state' σ' tn Ht Hg H.
    eapply run_step_tool in H as (r & l1 & l2 & Hinv & ->); [|done..].
    exists r. split_and!; [done | |]; simpl.
    + apply dict_lookup_set_eq.
    + apply lookup_insert_eq.
Qed.

(** C9. A batch only adds to the Execution State: after [_run_steps], and
    after [run_fix_steps], every key of the results mapping and every
    identifier of the status mapping that was there before is still there,
    the log is the old log with lines appended, and the task and the plan
    are the same. *)
Theorem executor_rounds_only_add :
  (∀ self steps state σ state' σ',
     ExecutorAgent._run_steps self steps state σ = (Ok state', σ') →
     extends state state')
  ∧ (∀ self state fix_steps σ state' σ',
       ExecutorAgent.run_fix_steps self state fix_steps σ = (Ok state', σ') →
       extends state state').
Proof.
  assert (∀ self steps state,
            ensures (extends state) (ExecutorAgent._run_steps self steps state)) as Hrun.
  { intros. unfold ExecutorAgent._run_steps.
    eapply ensures_bind; [apply ensures_true | intros _ _].
    apply run_steps_for_extends. }
  split.
  - intros self steps state σ state' σ' H. eapply ensures_run; [apply Hrun | exact H].
  - intros self state fix_steps σ state' σ' H.
    eapply ensures_run; [|exact H]. unfold ExecutorAgent.run_fix_steps.
    eapply ensures_bind; [apply ensures_true | intros pseudo_steps _]. apply Hrun.
Qed.

(** C1, as the code has it. A step whose tool name is not in the registry
    and whose dependencies are all ok makes the step loop raise the
    unknown-tool [KeyError]: the lookup happens before the [try], so the
    exception leaves [_run_step], the steps after it are not run, and the
    batch ends with the exception. Validation keeps such steps out: the tool
    name of a validated step is always in the registry. *)
Theorem unknown_tool_aborts_batch :
  (∀ self step state σ tn,
     PlanStep.tool_name step = Some tn →
     _TOOL_REGISTRY !! tn = None →
     ExecutorAgent._deps_ok step state = true →
     let e := mkExn KeyError (py_repr (JStr ("Unknown tool: " +:+ tn))) in
     ExecutorAgent._run_step self step state σ = (Raise e, σ)
     ∧ (∀ rest, ExecutorAgent._run_steps_for self (step :: rest) state σ = (Raise e, σ))
     ∧ (∀ before rest state0 σ0,
          ExecutorAgent._run_steps_for self before state0 σ0 = (Ok state, σ) →
          ExecutorAgent._run_steps_for self (before ++ step :: rest) state0 σ0
          = (Raise e, σ))
     ∧ (∀ rest,
          ExecutorAgent._run_steps self (step :: rest) state σ
          = (Raise e, mkSys (world σ) (trace σ ++ [EvBatch (step :: rest)]))))
  ∧ (∀ i a tn ta k d s t,
       PlanStep_init i a tn ta k d = Ok s →
       PlanStep.tool_name s = Some t →
       is_Some (_TOOL_REGISTRY !! t)).
Proof.
  split.
  - intros self step state σ tn Ht Hreg Hg e.
    assert (tn ∉ ToolName) as Hn.
    { intros Hin%registry_ToolName. rewrite Hreg in Hin. by destruct Hin. }
    assert (∀ σ, ExecutorAgent._run_step self step state σ = (Raise e, σ)) as Hstep
      by (intros; by apply run_step_unknown).
    split_and!.
    + apply Hstep.
    + intros rest. simpl. by rewrite (m_bind_raise _ _ _ _ _ (Hstep σ)).
    + intros before rest state0 σ0 Hb. rewrite run_steps_for_app, Hb. simpl.
      by rewrite (m_bind_raise _ _ _ _ _ (Hstep σ)).
    + intros rest. unfold ExecutorAgent._run_steps.
      unfold mbind at 1, M_bind at 1. simpl.
      by rewrite (m_bind_raise _ _ _ _ _ (Hstep _)).
  - intros i a tn ta k d s t (-> & _ & _ & _ & Htool & _)%PlanStep_init_Ok Ht.
    simpl in Ht. subst tn. apply registry_ToolName. by apply Htool.
Qed.

End executor_claims.

(** C1, as the specification has it, fails: with the step asking for a tool
    that is not registered, the one-step batch ends with an exception
    instead of a failed step. *)
Lemma unknown_tool_not_contained :
  ¬ unknown_tool_is_contained (H := Demo.ext)
      (ExecutorAgent.mk None)
      (PlanStep.mk 1 "look the quote up" (Some "stock_quote") [] "quote" [])
      (ExecutionState.mk "quote for ACME"
         (AgentPlan.mk "quote" []
            [PlanStep.mk 1 "look the quote up" (Some "stock_quote") [] "quote" []])
         [] ∅ [])
      (Demo.start (Demo.mkScript [] [])).
Proof. vm_compute. exact (λ H, H). Qed.

(** ** Traces *)

Lemma batches_app t1 t2 : batches (t1 ++ t2) = batches t1 ++ batches t2.
Proof. apply omap_app. Qed.

Lemma chats_app t1 t2 : chats (t1 ++ t2) = chats t1 ++ chats t2.
Proof. apply omap_app. Qed.

Section traces.
Context `{Ext : Externals}.

Lemma adds_ret {A} (a : A) : adds 0 (mret a).
Proof. intros σ. exists []. by rewrite app_nil_r. Qed.

Lemma adds_lift {A} (r : Res A) : adds 0 (lift r).
Proof. intros σ. exists []. by rewrite app_nil_r. Qed.

Lemma adds_raise {A} (e : Exn) : adds (A := A) 0 (raise_exn e).
Proof. intros σ. exists []. by rewrite app_nil_r. Qed.

Lemma adds_bind {A B} k1 k2 (m : M Sys A) (f : A → M Sys B) :
  adds k1 m → (∀ a, adds k2 (f a)) → adds (k1 + k2) (m ≫= f).
Proof.
  intros Hm Hf σ. destruct (Hm σ) as (b1 & E1 & L1).
  unfold mbind, M_bind. destruct (m σ) as [[a|e] σ1]; simpl in *.
  - destruct (Hf a σ1) as (b2 & E2 & L2).
    exists (b1 ++ b2). rewrite E2, E1, length_app, (assoc_L (++)). split; [done | lia].
  - exists b1. split; [done | lia].
Qed.

Lemma adds_weaken {A} k k' (m : M Sys A) : (k ≤ k')%nat → adds k m → adds k' m.
Proof. intros Hk Hm σ. destruct (Hm σ) as (bs & E & L). exists bs. split; [done | lia]. Qed.

Lemma adds_attempt {A} k (m : M Sys A) : adds k m → adds k (attempt m).
Proof.
  intros Hm σ. specialize (Hm σ). unfold attempt. by destruct (m σ) as [r σ'].
Qed.

Lemma adds_in_world {A} (m : M World A) : adds 0 (in_world m).
Proof.
  intros σ. exists []. rewrite app_nil_r. split; [|done].
  unfold in_world. by destruct (m (world σ)) as [r w].
Qed.

Lemma adds_chat llm messages temperature max_tokens json_mode :
  adds 0 (GroqClient_chat llm messages temperature max_tokens json_mode).
Proof.
  intros σ. exists []. rewrite app_nil_r. split; [|done].
  unfold GroqClient_chat.
  destruct (groq_chat _ _ _ _ _ _) as [r w]; simpl.
  by rewrite batches_app, app_nil_r.
Qed.

Lemma adds_emit_batch steps : adds 1 (emit (EvBatch steps)).
Proof. intros σ. exists [steps]. simpl. by rewrite batches_app. Qed.

Lemma adds_repair_loop {T} llm system max_tokens (mv : Json → Res T) failure n
    messages last_err last_text :
  adds 0 (repair_loop llm system max_tokens mv failure n messages last_err last_text).
Proof.
  revert messages last_err last_text.
  induction n as [|n IH]; intros; simpl; [apply adds_raise|].
  apply (adds_bind 0 0); [apply adds_chat | intros resp].
  destruct (parse_and_validate _ _); [apply adds_ret | apply IH].
Qed.

Lemma adds_run_step self step state : adds 0 (ExecutorAgent._run_step self step state).
Proof.
  unfold ExecutorAgent._run_step. cbv zeta.
  destruct (negb _); [apply adds_ret|].
  destruct (PlanStep.tool_name step) as [tn|].
  - apply (adds_bind 0 0); [apply adds_lift | intros tool].
    apply (adds_bind 0 0); [apply adds_attempt, adds_in_world | intros rr].
    apply (adds_bind 0 0).
    + destruct rr; [apply adds_ret | apply adds_lift].
    + intros tool_res. destruct (ToolResult.ok tool_res); apply adds_ret.
  - apply (adds_bind 0 0); [|intros; apply adds_ret].
    unfold ExecutorAgent._compose_text. destruct (ExecutorAgent.llm self).
    + apply (adds_bind 0 0); [apply adds_chat | intros; apply adds_lift].
    + apply adds_ret.
Qed.

Lemma adds_run_steps_for self steps state :
  adds 0 (ExecutorAgent._run_steps_for self steps state).
Proof.
  revert state. induction steps as [|step rest IH]; intros state; simpl.
  - apply adds_ret.
  - apply (adds_bind 0 0); [apply adds_run_step | intros; apply IH].
Qed.

Lemma adds_run_steps self steps state :
  adds 1 (ExecutorAgent._run_steps self steps state).
Proof.
  unfold ExecutorAgent._run_steps.
  apply (adds_bind 1 0); [apply adds_emit_batch | intros; apply adds_run_steps_for].
Qed.

Lemma adds_run_fix_steps self state fix_steps :
  adds 1 (ExecutorAgent.run_fix_steps self state fix_steps).
Proof.
  unfold ExecutorAgent.run_fix_steps.
  apply (adds_bind 0 1); [apply adds_lift | intros; apply adds_run_steps].
Qed.

Lemma adds_verify self task plan results :
  adds 0 (VerifierAgent.verify self task plan results).
Proof. apply adds_repair_loop. Qed.

Lemma adds_plan self task : adds 0 (PlannerAgent.plan self task).
Proof. apply adds_repair_loop. Qed.

(** The guard holds only while rounds remain. *)
Lemma wants_fix_rounds v rounds max_rounds :
  wants_fix v rounds max_rounds = true → rounds < max_rounds.
Proof. unfold wants_fix. intros (_ & H%Z.ltb_lt)%andb_true_iff. done. Qed.

Lemma adds_verify_fix_loop fuel executor verifier task plan max_rounds
    state verification rounds :
  adds (Z.to_nat (max_rounds - rounds))
    (verify_fix_loop fuel executor verifier task plan max_rounds
       state verification rounds).
Proof.
  revert state verification rounds.
  induction fuel as [|fuel IH]; intros state verification rounds; simpl.
  - destruct (wants_fix _ _ _); eapply adds_weaken; try apply adds_ret; lia.
  - destruct (wants_fix _ _ _) eqn:Hw.
    + apply wants_fix_rounds in Hw.
      eapply adds_weaken;
        [|apply (adds_bind 1 (Z.to_nat (max_rounds - (rounds + 1))));
          [apply adds_run_fix_steps|]].
      * lia.
      * intros st.
        apply (adds_bind 0 _); [apply adds_verify | intros v; apply IH].
    + eapply adds_weaken; [|apply adds_ret]. lia.
Qed.

(** Fuel for the remaining rounds is enough: the loop then ends because its
    guard fails, never because the fuel ran out. *)
Lemma verify_fix_loop_enough_fuel fuel executor verifier task plan max_rounds
    state verification rounds :
  (Z.to_nat (max_rounds - rounds) ≤ fuel)%nat →
  ensures (λ out, out ≠ None)
    (verify_fix_loop fuel executor verifier task plan max_rounds
       state verification rounds).
Proof.
  revert state verification rounds.
  induction fuel as [|fuel IH]; intros state verification rounds Hf; simpl.
  - destruct (wants_fix _ _ _) eqn:Hw; [|by apply ensures_ret].
    apply wants_fix_rounds in Hw. lia.
  - destruct (wants_fix _ _ _) eqn:Hw; [|by apply ensures_ret].
    apply wants_fix_rounds in Hw.
    eapply ensures_bind; [apply ensures_true | intros st _].
    eapply ensures_bind; [apply ensures_true | intros v _].
    apply IH. lia.
Qed.

End traces.

(** ** The schema-repair loop *)

Section repair.
Context `{Ext : Externals} {T : Type}.
Variables (llm : GroqClient.t) (system : string) (max_tokens : Z)
          (mv : Json → Res T) (failure : string).

Lemma repair_loop_calls n messages last_err last_text σ :
  ∃ calls,
    trace (repair_loop llm system max_tokens mv failure n messages
             last_err last_text σ).2
    = trace σ ++ map (λ c, EvChat c.1 true c.2) calls
    ∧ (length calls ≤ n)%nat
    ∧ (∀ c, head calls = Some c → c.1 = messages)
    ∧ chained system mv calls
    ∧ match (repair_loop llm system max_tokens mv failure n messages
               last_err last_text σ).1 with
      | Ok v =>
          ∃ m txt, last calls = Some (m, Ok txt) ∧ parse_and_validate mv txt = Ok v
      | Raise e =>
          (∃ m, last calls = Some (m, Raise e))
          ∨ (length calls = n
             ∧ match last calls with
               | Some (_, Ok txt) =>
                   ∃ e', parse_and_validate mv txt = Raise e'
                         ∧ e = mkExn RuntimeError (failure +:+ exn_msg e')
               | Some (_, Raise _) => False
               | None => e = mkExn RuntimeError (failure +:+ str_opt last_err)
               end)
      end.
Proof.
  revert messages last_err last_text σ.
  induction n as [|n IH]; intros messages last_err last_text σ.
  - exists []. simpl. rewrite app_nil_r. split_and!; try done.
    right. done.
  - simpl. unfold mbind at 1 2, M_bind at 1 2. unfold GroqClient_chat at 1 2.
    destruct (groq_chat llm messages _ max_tokens true (world σ)) as [[txt|e] w] eqn:Echat.
    + destruct (parse_and_validate mv txt) as [v|e'] eqn:Epv.
      * exists [(messages, Ok txt)]. simpl.
        split_and!; try done; try lia; try (by intros c [= <-]); eauto.
      * match goal with |- context [repair_loop _ _ _ _ _ n ?ms ?le ?lt ?s] =>
          destruct (IH ms le lt s) as (calls & Htr & Hlen & Hhd & Hch & Hres) end.
        exists ((messages, Ok txt) :: calls). split_and!.
        -- rewrite Htr. simpl. by rewrite <- (assoc_L (++)).
        -- simpl. lia.
        -- by intros c [= <-].
        -- intros [|i] msgs rep Hi; simpl in *.
           ++ exists messages, txt, e'. split_and!; try done.
              apply (Hhd (msgs, rep)). by destruct calls; simplify_eq/=.
           ++ exact (Hch i msgs rep Hi).
        -- rewrite last_cons.
           match goal with |- match ?r with _ => _ end => destruct r as [v|e] end.
           ++ destruct Hres as (m & t & -> & Ht). eauto.
           ++ destruct Hres as [(m & ->) | (Hn & Hlast)]; [left; eauto|].
              right. split; [simpl; lia|].
              destruct (last calls) as [[m [t|e0]]|]; [done | done |].
              exists e'. split; [done|]. exact Hlast.
    + exists [(messages, Raise e)]. simpl.
      split_and!; try done; try lia; try (by intros c [= <-]); eauto.
Qed.

(** Three attempts, as both agents ask for. *)
Lemma repair_loop_run messages σ :
  repair_run system mv failure messages σ
    (repair_loop llm system max_tokens mv failure 3 messages None None σ).
Proof.
  destruct (repair_loop_calls 3 messages None None σ)
    as (calls & Htr & Hlen & Hhd & Hch & Hres).
  remember (repair_loop llm system max_tokens mv failure 3 messages None None σ)
    as out eqn:Eout.
  clear Eout. destruct out as [r σ']. simpl in Htr, Hres.
  exists calls.
  assert (calls ≠ []) as Hne.
  { intros ->. simpl in Hres.
    destruct r; [by destruct Hres as (? & ? & ? & _) | by destruct Hres as [[? ?] | [? _]]]. }
  split_and!; try done.
  - destruct calls; [done | simpl; lia].
  - destruct calls as [|[m rep] calls]; [done|].
    exists rep. simpl. f_equal. f_equal. by apply (Hhd (m, rep)).
  - simpl. destruct r as [v|e]; [done|].
    destruct Hres as [?|[Hn Hlast]]; [by left | right]. split; [done|].
    destruct (last calls) as [[m [t|e0]]|] eqn:El; [| done | by apply last_None in El].
    destruct Hlast as (e' & ? & ?). eauto 10.
Qed.

End repair.

Section planning_claims.
Context `{Ext : Externals}.

(** C6. The schema-repair loop of the planner and of the verifier asks the
    model at most three times, whatever it replies. Every turn after the
    first consists of exactly two messages, the system prompt and a repair
    request that contains the validation error and the reply that caused it;
    a turn follows only a reply that failed, so the first reply that parses
    and validates is returned at once; and when three replies have failed,
    one [RuntimeError] is raised whose message ends with the last validation
    error. *)
Theorem schema_repair_loop_bounded :
  (∀ self task σ,
     repair_run PLANNER_SYSTEM AgentPlan_model_validate
       "PlannerAgent failed to produce valid plan. Last error: "
       [mkMessage "system" PLANNER_SYSTEM;
        mkMessage "user" (planner_user_prompt task)]
       σ (PlannerAgent.plan self task σ))
  ∧ (∀ self task plan results σ,
       repair_run VERIFIER_SYSTEM VerificationResult_model_validate
         "VerifierAgent failed to produce valid verification JSON. Last error: "
         [mkMessage "system" VERIFIER_SYSTEM;
          mkMessage "user"
            (verifier_user_prompt task
               (json_dumps (JObj (AgentPlan_model_dump plan)))
               (json_dumps (JObj results)))]
         σ (VerifierAgent.verify self task plan results σ))
  ∧ (∀ err txt,
       ∃ before between,
         repair_user (Some err) (Some txt) = before +:+ err +:+ between +:+ txt).
Proof.
  split_and!.
  - intros. apply repair_loop_run.
  - intros. apply repair_loop_run.
  - intros err txt.
    exists ("Your previous output was invalid JSON or did not match the schema. "
            +:+ "Fix it and output ONLY valid JSON." +:+ nl +:+ "Error: "),
           (nl +:+ "Previous output:" +:+ nl).
    reflexivity.
Qed.

Lemma plan_Ok_validated self task σ p σ' :
  PlannerAgent.plan self task σ = (Ok p, σ') →
  (∃ data, AgentPlan_model_validate data = Ok p)
  ∧ batches (trace σ') = batches (trace σ).
Proof.
  intros H. split.
  - destruct (repair_loop_run (PlannerAgent.llm self) PLANNER_SYSTEM 1400
                AgentPlan_model_validate
                "PlannerAgent failed to produce valid plan. Last error: "
                [mkMessage "system" PLANNER_SYSTEM;
                 mkMessage "user" (planner_user_prompt task)] σ)
      as (calls & _ & _ & _ & _ & Hres).
    unfold PlannerAgent.plan in H. cbv zeta in H. rewrite H in Hres. simpl in Hres.
    destruct Hres as (m & txt & _ & Hpv). unfold parse_and_validate in Hpv.
    destruct txt; try discriminate Hpv.
    apply res_bind_Ok in Hpv as (data & _ & Hmv). eauto.
  - destruct (adds_plan self task σ) as (bs & E & L). rewrite H in E. simpl in E.
    destruct bs; [by rewrite app_nil_r in E | simpl in L; lia].
Qed.

(** C4. A plan that validation lets through has at least one step, and its
    last step has no tool name and the output key [final]. A step list that
    is empty, or whose last step names a tool or has another output key, is
    rejected with a validation error. The planner hands on only plans that
    came out of this validation, and no batch has been entered by then. *)
Theorem plan_ends_with_compose_final :
  (∀ data p,
     AgentPlan_model_validate data = Ok p →
     ∃ l, last (AgentPlan.steps p) = Some l
          ∧ PlanStep.tool_name l = None ∧ PlanStep.output_key l = "final")
  ∧ (∀ o asm steps p,
       AgentPlan_init o asm steps = Ok p →
       AgentPlan.steps p = steps
       ∧ ∃ l, last steps = Some l
              ∧ PlanStep.tool_name l = None ∧ PlanStep.output_key l = "final")
  ∧ (∀ o asm steps,
       (∀ l, last steps = Some l →
             PlanStep.tool_name l ≠ None ∨ PlanStep.output_key l ≠ "final") →
       ∃ e, AgentPlan_init o asm steps = Raise e ∧ exn_kind e = ValidationError)
  ∧ (∀ self task σ p σ',
       PlannerAgent.plan self task σ = (Ok p, σ') →
       (∃ data, AgentPlan_model_validate data = Ok p)
       ∧ batches (trace σ') = batches (trace σ)).
Proof.
  split_and!.
  - intros data p (o & asm & steps & Hinit & _)%AgentPlan_model_validate_Ok.
    apply AgentPlan_init_Ok in Hinit as (-> & _ & _ & Hl). done.
  - intros o asm steps p (-> & _ & _ & Hl)%AgentPlan_init_Ok. done.
  - intros o asm steps Hbad.
    destruct (AgentPlan_init o asm steps) as [p|e] eqn:E.
    + apply AgentPlan_init_Ok in E as (_ & _ & _ & l & Hl & Ht & Hk).
      destruct (Hbad l Hl); done.
    + exists e. split; [done|]. by eapply AgentPlan_init_Raise.
  - apply plan_Ok_validated.
Qed.

End planning_claims.

Section orchestrator.
Context `{Ext : Externals}.

Lemma adds_0_eq {A} (m : M Sys A) σ :
  adds 0 m → batches (trace (m σ).2) = batches (trace σ).
Proof.
  intros Hm. destruct (Hm σ) as (bs & E & L).
  destruct bs; [by rewrite app_nil_r in E | simpl in L; lia].
Qed.

(** A batch is entered exactly once by [_run_steps], whatever its steps
    do. *)
Lemma run_steps_batches self steps state σ :
  batches (trace (ExecutorAgent._run_steps self steps state σ).2)
  = batches (trace σ) ++ [steps].
Proof.
  unfold ExecutorAgent._run_steps. unfold mbind at 1, M_bind at 1. simpl.
  rewrite (adds_0_eq _ _ (adds_run_steps_for self steps state)). simpl.
  by rewrite batches_app.
Qed.

Lemma adds_run_task fuel task max_rounds :
  1 ≤ max_rounds → adds (Z.to_nat max_rounds) (run_task fuel task max_rounds).
Proof.
  intros Hn. unfold run_task.
  eapply adds_weaken;
    [|apply (adds_bind 0 (1 + Z.to_nat (max_rounds - 1))); [apply adds_lift|]].
  { lia. }
  intros [[planner executor] verifier].
  apply (adds_bind 0 _); [apply adds_plan | intros plan].
  apply (adds_bind 1 _); [apply adds_run_steps | intros state].
  apply (adds_bind 0 _); [apply adds_verify | intros verification].
  cbv zeta.
  eapply adds_weaken;
    [|apply (adds_bind (Z.to_nat (max_rounds - 1)) 0);
      [apply adds_verify_fix_loop|]].
  { fold (Z.to_nat (max_rounds - 1)). lia. }
  intros [[st v]|]; apply adds_ret.
Qed.

Lemma run_task_enough_fuel fuel task max_rounds :
  (Z.to_nat max_rounds - 1 ≤ fuel)%nat →
  ensures (λ out, out ≠ None) (run_task fuel task max_rounds).
Proof.
  intros Hf. unfold run_task.
  eapply ensures_bind; [apply ensures_true | intros [[planner executor] verifier] _].
  eapply ensures_bind; [apply ensures_true | intros plan _].
  eapply ensures_bind; [apply ensures_true | intros state _].
  eapply ensures_bind; [apply ensures_true | intros verification _].
  cbv zeta.
  eapply ensures_bind; [apply verify_fix_loop_enough_fuel; lia|].
  intros [[st v]|] Hout; [by apply ensures_ret | done].
Qed.

(** C2. For a round budget N between 1 and 5 the orchestrator enters at
    most N executor batches, the first one and at most N - 1 fix batches,
    and its loop ends because the guard fails: N - 1 iterations of fuel are
    always enough. With N = 1 the loop body never runs: once the plan, the
    first batch and the verification are there, that verification is
    returned as it is, fix steps or not, and the plan's batch is the only one
    entered. *)
Theorem round_loop_bounded N fuel task σ :
  1 ≤ N ≤ 5 →
  (∃ bs, batches (trace (run_task fuel task N σ).2) = batches (trace σ) ++ bs
         ∧ (length bs ≤ Z.to_nat N)%nat)
  ∧ ((Z.to_nat N - 1 ≤ fuel)%nat → (run_task fuel task N σ).1 ≠ Ok None)
  ∧ (N = 1 →
     ∀ planner executor verifier plan σ1 state σ2 v σ3,
       _build_agents = Ok (planner, executor, verifier) →
       PlannerAgent.plan planner task σ = (Ok plan, σ1) →
       ExecutorAgent.run executor task plan σ1 = (Ok state, σ2) →
       VerifierAgent.verify verifier task plan (ExecutionState.results state) σ2
       = (Ok v, σ3) →
       run_task fuel task N σ
       = (Ok (Some (RunResponse.mk task
                      (AgentPlan_model_dump plan)
                      (ExecutionState.results state)
                      (VerificationResult_model_dump v)
                      (VerificationResult.final_output v)
                      (ExecutionState.logs state))), σ3)
       ∧ batches (trace σ3) = batches (trace σ) ++ [AgentPlan.steps plan]).
Proof.
  intros HN. split_and!.
  - apply adds_run_task. lia.
  - intros Hf Hnone.
    pose proof (run_task_enough_fuel fuel task N Hf σ) as H.
    rewrite Hnone in H. done.
  - intros -> planner executor verifier plan σ1 state σ2 v σ3 Hb Hp Hr Hv. split.
    + unfold run_task. rewrite Hb.
      unfold mbind at 1, M_bind at 1. simpl.
      rewrite (m_bind_run _ _ _ _ _ Hp), (m_bind_run _ _ _ _ _ Hr),
        (m_bind_run _ _ _ _ _ Hv).
      cbv zeta.
      assert (wants_fix v 1 1 = false) as Hw
        by (unfold wants_fix; apply andb_false_r).
      destruct fuel; simpl; rewrite Hw; reflexivity.
    + pose proof (adds_0_eq _ σ2 (adds_verify verifier task plan
                                    (ExecutionState.results state))) as H3.
      rewrite Hv in H3. simpl in H3. rewrite H3.
      pose proof (run_steps_batches executor (AgentPlan.steps plan)
                    (ExecutionState.mk task plan [] ∅ []) σ1) as H2.
      unfold ExecutorAgent.run in Hr. cbv zeta in Hr. rewrite Hr in H2.
      simpl in H2. rewrite H2.
      pose proof (adds_0_eq _ σ (adds_plan planner task)) as H1.
      rewrite Hp in H1. simpl in H1. by rewrite H1.
Qed.

End orchestrator.

(** ** The span taken out of a reply *)

Lemma through_last_None c s : through_last c s = None → ¬ occurs c s.
Proof.
  induction s as [|a r IH]; simpl; [by intros _ []|].
  destruct (through_last c r); [done|].
  destruct (Ascii.eqb a c) eqn:E; [done|].
  intros _ [->|H]; [by rewrite Ascii.eqb_refl in E | by apply IH].
Qed.

Lemma through_last_Some c s p :
  through_last c s = Some p →
  ∃ body post,
    p = body +:+ String c EmptyString ∧ s = p +:+ post ∧ ¬ occurs c post.
Proof.
  revert p. induction s as [|a r IH]; simpl; intros p; [done|].
  destruct (through_last c r) as [p'|] eqn:E.
  - intros [= <-]. destruct (IH p' eq_refl) as (body & post & -> & -> & Hn).
    exists (String a body), post. done.
  - destruct (Ascii.eqb a c) eqn:Ea; [|done].
    apply Ascii.eqb_eq in Ea as ->. intros [= <-].
    exists EmptyString, r. split_and!; try done. by apply through_last_None.
Qed.

Lemma match_delimited_Some o c s m :
  match_delimited o c s = Some m →
  ∃ body post,
    m = String o (body +:+ String c EmptyString)
    ∧ s = m +:+ post ∧ ¬ occurs c post.
Proof.
  destruct s as [|a r]; simpl; [done|].
  destruct (Ascii.eqb a o) eqn:E; [|done].
  apply Ascii.eqb_eq in E as ->.
  destruct (through_last c r) as [p|] eqn:Ep; [|done].
  intros [= <-]. apply through_last_Some in Ep as (body & post & -> & -> & Hn).
  by exists body, post.
Qed.

Lemma match_delimited_None o c r :
  match_delimited o c (String o r) = None → ¬ occurs c r.
Proof.
  simpl. rewrite Ascii.eqb_refl.
  destruct (through_last c r) eqn:E; [done|]. intros _. by apply through_last_None.
Qed.

Lemma unmatched_openers_nil rest : unmatched_openers EmptyString rest.
Proof. intros [|b p1] a p2 H; discriminate. Qed.

Lemma unmatched_openers_cons a pre rest :
  (a = "{"%char → ¬ occurs "}" (pre +:+ rest)) →
  (a = "["%char → ¬ occurs "]" (pre +:+ rest)) →
  unmatched_openers pre rest →
  unmatched_openers (String a pre) rest.
Proof.
  intros H1 H2 Hpre [|b p1] x p2 Heq; simpl in Heq.
  - injection Heq as <- <-. done.
  - injection Heq as <- Hp. exact (Hpre p1 x p2 Hp).
Qed.

Lemma re_search_span_Some s m : re_search_span s = Some m → greedy_span s m.
Proof.
  revert m. induction s as [|a r IH]; intros m; [done|].
  cbn [re_search_span].
  destruct (match_delimited "{" "}" (String a r)) as [m1|] eqn:E1.
  { intros [= <-]. apply match_delimited_Some in E1 as (body & post & Hm & Hs & Hn).
    exists EmptyString, post, "{"%char, "}"%char, body.
    split_and!; try done; [by left | apply unmatched_openers_nil]. }
  destruct (match_delimited "[" "]" (String a r)) as [m2|] eqn:E2.
  { intros [= <-]. apply match_delimited_Some in E2 as (body & post & Hm & Hs & Hn).
    exists EmptyString, post, "["%char, "]"%char, body.
    split_and!; try done; [by right | apply unmatched_openers_nil]. }
  intros (pre & post & o & c & body & -> & Hm & Hoc & Hn & Hpre)%IH.
  exists (String a pre), post, o, c, body.
  split_and!; try done.
  apply unmatched_openers_cons; [| |done].
  - intros ->. by apply match_delimited_None in E1.
  - intros ->. by apply match_delimited_None in E2.
Qed.

Lemma re_search_span_None s : re_search_span s = None → unmatched_openers s EmptyString.
Proof.
  assert (∀ t, t +:+ EmptyString = t) as Hnil
    by (intros t; induction t as [|b t IHt]; [done | exact (f_equal (String b) IHt)]).
  induction s as [|a r IH]; [intros _; apply unmatched_openers_nil|].
  cbn [re_search_span].
  destruct (match_delimited "{" "}" (String a r)) as [m1|] eqn:E1; [done|].
  destruct (match_delimited "[" "]" (String a r)) as [m2|] eqn:E2; [done|].
  intros Hr%IH. apply unmatched_openers_cons; [| |done]; rewrite Hnil.
  - intros ->. by apply match_delimited_None in E1.
  - intros ->. by apply match_delimited_None in E2.
Qed.

Section parsing_claims.
Context `{Ext : Externals}.

(** C7, as the code has it. The parser first parses the whole trimmed
    reply. If that fails it takes the stretch that starts at the first
    opening brace or bracket with a closing delimiter of its own kind after
    it and ends at the last such closing delimiter of the reply, whether or
    not the two balance, and parses that stretch on its own. If there is no
    such stretch it raises [ValueError]; a value it returns is the parse of
    the whole reply or of the whole stretch, never of less. *)
Theorem safe_json_loads_policy text :
  let t := py_strip text in
  (∀ v, json_loads t = Ok v → safe_json_loads text = Ok v)
  ∧ (∀ e, json_loads t = Raise e →
       match re_search_span t with
       | Some span => safe_json_loads text = json_loads span ∧ greedy_span t span
       | None =>
           safe_json_loads text
           = throw ValueError "Could not parse JSON from model output."
           ∧ unmatched_openers t EmptyString
       end)
  ∧ (∀ v, safe_json_loads text = Ok v →
       json_loads t = Ok v
       ∨ ∃ span, greedy_span t span ∧ json_loads span = Ok v).
Proof.
  intros t. unfold safe_json_loads. fold t. split_and!.
  - by intros v ->.
  - intros e ->. destruct (re_search_span t) as [span|] eqn:E.
    + split; [done | by apply re_search_span_Some].
    + split; [done | by apply re_search_span_None].
  - intros v. destruct (json_loads t) as [v'|e]; [by left|].
    destruct (re_search_span t) as [span|] eqn:E; [|done].
    intros H. right. exists span. split; [by apply re_search_span_Some | done].
Qed.

End parsing_claims.

(** C7, as the specification has it, fails: in the reply below the first
    top-level bracket-delimited span parses on its own, yet the parser,
    which takes everything up to the last closing bracket, raises. *)
Lemma greedy_span_is_not_first_top_level_span :
  safe_json_loads (H := Demo.ext) "[1] x [2]"
  ≠ spec_safe_json_loads (H := Demo.ext) "[1] x [2]".
Proof. vm_compute. discriminate. Qed.

(** ** Retrying *)

Lemma with_retry_step {S A} (n : nat) (f : M S A) (σ : S) :
  with_retry (Datatypes.S (Datatypes.S n)) f σ =
  match f σ with
  | (Ok a, σ') => (Ok a, σ')
  | (Raise e, σ') =>
      if is_retryable e then with_retry (Datatypes.S n) f σ' else (Raise e, σ')
  end.
Proof.
  change (with_retry (Datatypes.S (Datatypes.S n)) f) with
    (r ← attempt f;
     match r with
     | Ok a => mret a
     | Raise e => if is_retryable e then with_retry (Datatypes.S n) f else raise_exn e
     end).
  unfold mbind, M_bind, attempt.
  destruct (f σ) as [[a|e] σ']; [done|]. by destruct (is_retryable e).
Qed.

Lemma ensures_with_retry {S A} (P : A → Prop) (n : nat) (f : M S A) :
  ensures P f → ensures P (with_retry n f).
Proof.
  intros Hf. destruct n as [|n]; [exact Hf|].
  induction n as [|n IH]; [exact Hf|].
  intros σ. rewrite with_retry_step.
  specialize (Hf σ). destruct (f σ) as [[a|e] σ']; [exact Hf|].
  destruct (is_retryable e); [apply IH | done].
Qed.

Lemma with_retry_outcome {S A} (n : nat) (f : M S A) (σ : S) :
  ∃ k σk, (k < Nat.max 1 n)%nat
    ∧ after_retryable k f σ = Some σk
    ∧ with_retry n f σ = f σk.
Proof.
  destruct n as [|n]; [exists 0%nat, σ; simpl; split_and!; [lia|done|done]|].
  revert σ. induction n as [|n IH]; intros σ.
  { exists 0%nat, σ. simpl. split_and!; [lia|done|done]. }
  rewrite with_retry_step.
  destruct (f σ) as [[a|e] σ'] eqn:E.
  - exists 0%nat, σ. rewrite E. simpl. split_and!; [lia|done|done].
  - destruct (is_retryable e) eqn:Er.
    + destruct (IH σ') as (k & σk & Hk & Haft & Hrun).
      exists (Datatypes.S k), σk. split_and!; [lia | | done].
      simpl. by rewrite E, Er.
    + exists 0%nat, σ. rewrite E. simpl. split_and!; [lia|done|done].
Qed.

Section retry.
Context {S A : Type}.

(** X1. [with_retry]: the decorated call is a run of at most
    [max(1, attempts)] calls of the function, each but the last ending in
    [RetryableError]; its outcome and final state are those of the last
    call, and that outcome is a [RetryableError] only when every attempt
    has been used. *)
Theorem with_retry_calls (attempts : nat) (f : M S A) (σ : S) :
  ∃ k σk, (k < Nat.max 1 attempts)%nat
    ∧ after_retryable k f σ = Some σk
    ∧ with_retry attempts f σ = f σk
    ∧ (raises_retryable (f σk).1 = true → Datatypes.S k = Nat.max 1 attempts).
Proof.
  destruct attempts as [|n].
  { exists 0%nat, σ. simpl. split_and!; [lia|done|done|done]. }
  revert σ. induction n as [|n IH]; intros σ.
  { exists 0%nat, σ. simpl. split_and!; [lia|done|done|done]. }
  rewrite with_retry_step.
  destruct (f σ) as [[a|e] σ'] eqn:E.
  - exists 0%nat, σ. rewrite E. simpl. split_and!; [lia|done|done|done].
  - destruct (is_retryable e) eqn:Er.
    + destruct (IH σ') as (k & σk & Hk & Haft & Hrun & Hlast).
      exists (Datatypes.S k), σk. split_and!.
      * lia.
      * simpl. by rewrite E, Er.
      * done.
      * intros H. specialize (Hlast H). lia.
    + exists 0%nat, σ. rewrite E. simpl. rewrite Er.
      split_and!; [lia|done|done|done].
Qed.

End retry.

Section requests.
Context `{Ext : Externals}.

(** X2. A response that [_get] of a tool hands to its caller never carries
    one of the transient statuses 429, 500, 502, 503, 504; the GitHub one
    is never a rate-limit 403 either, and the news one never has a blank
    body when a body is required. *)
Theorem get_never_returns_transient :
  (∀ path params,
     ensures (λ r, transient_status (status_code r) = false
                   ∧ ((status_code r =? 403)
                      && str_contains "rate limit" (str_lower (text r)) = false))
       (GitHubTool._get path params))
  ∧ (∀ u params,
       ensures (λ r, transient_status (status_code r) = false)
         (WeatherTool._get u params))
  ∧ (∀ u params headers require_body,
       ensures (λ r, transient_status (status_code r) = false
                     ∧ (require_body = true
                        → str_is_empty (py_strip (text r)) = false))
         (NewsTool._get u params headers require_body)).
Proof.
  split_and!; intros; apply ensures_with_retry; cbv zeta;
    (eapply ensures_bind; [apply ensures_true | intros [r|e] _]);
    try (destruct (exn_kind e); apply ensures_raise).
  - destruct (transient_status _) eqn:Et; [apply ensures_raise|].
    destruct (_ && _) eqn:E4; [apply ensures_raise|].
    by apply ensures_ret.
  - destruct (transient_status _) eqn:Et; [apply ensures_raise|].
    by apply ensures_ret.
  - destruct (transient_status _) eqn:Et; [apply ensures_raise|].
    destruct (_ && _) eqn:Eb; [apply ensures_raise|].
    apply ensures_ret. split; [done|]. intros ->. exact Eb.
Qed.

(** ** The chat client *)

Section chat.
Context {S : Type} (post : string → list (string * string) → PyDict → M S Response).
Context (self : GroqClient.t) (messages : list Message) (temperature : float)
  (max_tokens : Z) (json_mode : bool).

Lemma chat_once_Ok r σ σ' :
  post chat_url (chat_headers self)
    (chat_payload self messages temperature max_tokens json_mode) σ = (Ok r, σ') →
  chat_once post self messages temperature max_tokens json_mode σ =
  (if transient_status (status_code r) then
     Raise (mkExn RetryableError
              ("Groq transient error " +:+ pretty (status_code r) +:+ ": "
               +:+ str_take 200 (text r)))
   else if negb (Response_ok r) then
     Raise (mkExn RuntimeError
              ("Groq error " +:+ pretty (status_code r) +:+ ": " +:+ text r))
   else
     data ← json r; content ← reply_content data;
     Ok (LLMResponse.mk content data), σ').
Proof.
  intros Hp. unfold chat_once. cbv zeta.
  unfold mbind at 1, M_bind at 1, attempt. rewrite Hp.
  destruct (transient_status _); [done|].
  destruct (negb _); [done|].
  unfold mbind, M_bind, lift. simpl.
  destruct (json r) as [data|e]; [|done]. simpl.
  by destruct (reply_content data).
Qed.

(** X3. What the chat call returns comes from the last request it made:
    that request, made after at most three that were retried, was answered
    with a status that is neither an error nor transient; [raw] is the
    decoded body of that answer, whole; the content is what the body holds
    at [choices[0].message.content]; and the call ends in the state that
    request left. *)
Theorem chat_content_read_off_raw σ resp σ' :
  GroqClient_chat_http post self messages temperature max_tokens json_mode σ
  = (Ok resp, σ') →
  ∃ (k : nat) σk r,
    (k < 4)%nat
    ∧ after_retryable k
        (chat_once post self messages temperature max_tokens json_mode) σ
      = Some σk
    ∧ post chat_url (chat_headers self)
        (chat_payload self messages temperature max_tokens json_mode) σk
      = (Ok r, σ')
    ∧ transient_status (status_code r) = false
    ∧ Response_ok r = true
    ∧ json r = Ok (LLMResponse.raw resp)
    ∧ reply_content (LLMResponse.raw resp) = Ok (LLMResponse.content resp).
Proof.
  unfold GroqClient_chat_http. intros H.
  destruct (with_retry_outcome 4
              (chat_once post self messages temperature max_tokens json_mode) σ)
    as (k & σk & Hk & Haft & Hrun).
  rewrite Hrun in H. exists k, σk.
  destruct (post chat_url (chat_headers self)
              (chat_payload self messages temperature max_tokens json_mode) σk)
    as [[r|e] σ1] eqn:Hp.
  - rewrite (chat_once_Ok _ _ _ Hp) in H. exists r.
    destruct (transient_status (status_code r)) eqn:Et; [discriminate H|].
    destruct (Response_ok r) eqn:Eok; [|discriminate H]. simpl in H.
    destruct (json r) as [data|e] eqn:Ej; [|discriminate H]. simpl in H.
    destruct (reply_content data) as [content|e] eqn:Ec; [|discriminate H].
    simpl in H. injection H as <- <-. simpl.
    split_and!; [simpl in Hk; lia | done..].
  - exfalso. unfold chat_once in H. cbv zeta in H.
    unfold mbind, M_bind, attempt in H. rewrite Hp in H.
    destruct (exn_kind e); discriminate H.
Qed.

(** X4. An error status that is not transient ends the chat call at once:
    one request, and a [RuntimeError] that carries the status and the whole
    body. *)
Theorem chat_error_status_not_retried r σ σ' :
  post chat_url (chat_headers self)
    (chat_payload self messages temperature max_tokens json_mode) σ = (Ok r, σ') →
  transient_status (status_code r) = false →
  Response_ok r = false →
  GroqClient_chat_http post self messages temperature max_tokens json_mode σ
  = (Raise (mkExn RuntimeError
              ("Groq error " +:+ pretty (status_code r) +:+ ": " +:+ text r)), σ').
Proof.
  intros Hp Ht Hok. unfold GroqClient_chat_http.
  rewrite with_retry_step, (chat_once_Ok _ _ _ Hp), Ht, Hok. done.
Qed.

(** X5. While every request is answered with a transient status, or fails
    in transport, the chat call makes exactly four requests and then
    raises [RetryableError]. *)
Theorem chat_gives_up_after_four_requests σ :
  let request := post chat_url (chat_headers self)
    (chat_payload self messages temperature max_tokens json_mode) in
  (∀ σ0, match (request σ0).1 with
         | Ok r => transient_status (status_code r) = true
         | Raise e => exn_kind e = RequestException
         end) →
  ∃ e, exn_kind e = RetryableError
    ∧ GroqClient_chat_http post self messages temperature max_tokens json_mode σ
      = (Raise e, (request (request (request (request σ).2).2).2).2).
Proof.
  intros request Hall.
  assert (Hone : ∀ σ0, ∃ e, exn_kind e = RetryableError
    ∧ chat_once post self messages temperature max_tokens json_mode σ0
      = (Raise e, (request σ0).2)).
  { intros σ0. specialize (Hall σ0). unfold chat_once. cbv zeta.
    fold request. unfold mbind, M_bind, attempt.
    destruct (request σ0) as [[r|e] σ1]; simpl in *.
    - rewrite Hall. eexists. split; [|reflexivity]. done.
    - rewrite Hall. eexists. split; [|reflexivity]. done. }
  unfold GroqClient_chat_http.
  destruct (Hone σ) as (e1 & K1 & E1).
  destruct (Hone (request σ).2) as (e2 & K2 & E2).
  destruct (Hone (request (request σ).2).2) as (e3 & K3 & E3).
  destruct (Hone (request (request (request σ).2).2).2) as (e4 & K4 & E4).
  exists e4. split; [done|].
  rewrite with_retry_step, E1. unfold is_retryable. rewrite K1.
  rewrite with_retry_step, E2. unfold is_retryable. rewrite K2.
  rewrite with_retry_step, E3. unfold is_retryable. rewrite K3.
  simpl. exact E4.
Qed.

End chat.
End requests.

(** ** What the tools return *)

Lemma ensures_init_with {S} (P : ToolResult.t → Prop) ok name data err meta :
  P (ToolResult.mk ok name data err meta) →
  ensures (S := S) P (lift (ToolResult_init ok name data err meta)).
Proof.
  intros H. apply ensures_lift. unfold ToolResult_init.
  destruct (is_ToolName name); [|discriminate]. by intros r [= <-].
Qed.

(** One step through the body of a tool, towards the results it builds. *)
Ltac tool_walk :=
  cbv zeta;
  lazymatch goal with
  | |- ensures _ (lift (ToolResult_init _ _ _ _ _)) => apply ensures_init_with
  | |- ensures _ (raise_exn _) => apply ensures_raise
  | |- ensures _ (raise _ _) => apply ensures_raise
  | |- ensures _ (_ ≫= _) =>
      eapply ensures_bind; [apply ensures_true | intros ? _]
  | |- ensures _ (if ?b then _ else _) => destruct b
  | |- ensures _ (match ?x with _ => _ end) => destruct x
  end.

Lemma str_take_length n s :
  (length (list_ascii_of_string (str_take n s)) ≤ n)%nat.
Proof.
  revert s. induction n as [|n IH]; intros [|a s]; simpl; try lia.
  specialize (IH s). lia.
Qed.

Lemma sliced_length {B} (f : Json → Res B) x n ys :
  (sl ← py_slice_to x n; its ← py_iter sl; res_mapM f its) = Ok ys →
  (length ys ≤ Z.to_nat n)%nat.
Proof.
  intros H. res_inv.
  match goal with H : res_mapM _ _ = _ |- _ =>
    apply res_mapM_Ok, Forall2_length in H; rewrite <- H end.
  destruct x; try discriminate; simpl in *; res_inv; simpl in *; res_inv.
  - rewrite length_map. apply str_take_length.
  - rewrite length_take. lia.
Qed.

Section tool_payloads.
Context `{Ext : Externals}.

(** How [WeatherTool.call] and [NewsTool.call] put their results together
    from those of the providers. *)
Lemma WeatherTool_call_ensures (P : ToolResult.t → Prop) self tool_args :
  (∀ city, ensures P (WeatherTool._openweather_current self city)) →
  (∀ city, ensures (λ r, ∀ meta, P (WeatherTool.with_meta r meta))
             (WeatherTool._open_meteo_current city)) →
  (∀ err meta, P (ToolResult.mk false WeatherTool.name [] (Some err) meta)) →
  ensures P (WeatherTool.call self tool_args).
Proof.
  intros How Hom Hfail. unfold WeatherTool.call. cbv zeta.
  destruct (str_is_empty _); [by apply ensures_init_with|].
  eapply (ensures_bind (λ x, ∀ r, x = inl r → P r)).
  - destruct (negb _); [|by apply ensures_ret].
    eapply ensures_bind; [apply How|].
    intros ow_res Hr. destruct (ToolResult.ok ow_res); apply ensures_ret.
    + by intros ? [= <-].
    + done.
  - intros [ow_res|ow_error] Hfirst; [by apply ensures_ret, Hfirst|].
    eapply ensures_bind; [apply Hom|].
    intros om_res Hr. destruct (ToolResult.ok om_res).
    + apply ensures_ret, Hr.
    + by apply ensures_init_with.
Qed.

Lemma NewsTool_call_ensures (P : ToolResult.t → Prop) self tool_args :
  (∀ query top_n, 1 ≤ top_n ≤ 20 →
     ensures P (NewsTool._newsapi_search self query top_n)) →
  (∀ query top_n, 1 ≤ top_n ≤ 20 → ensures P (NewsTool._gdelt_search query top_n)) →
  (∀ query top_n, 1 ≤ top_n ≤ 20 →
     ensures P (NewsTool._googlenews_rss_search query top_n)) →
  (∀ k v r, P r → P (NewsTool.set_meta k v r)) →
  (∀ err, P (ToolResult.mk false NewsTool.name [] (Some err) [])) →
  ensures P (NewsTool.call self tool_args).
Proof.
  intros Hna Hgd Hrss Hset Hfail. unfold NewsTool.call. cbv zeta.
  eapply ensures_bind; [apply ensures_true | intros top_n _].
  destruct (str_is_empty _); [by apply ensures_init_with|].
  assert (1 ≤ Z.max 1 (Z.min top_n 20) ≤ 20) as Hn by lia.
  destruct (negb _).
  - eapply ensures_bind; [by apply Hna | intros res Hres].
    destruct (ToolResult.ok res); [by apply ensures_ret|].
    eapply ensures_bind; [by apply Hgd | intros gd Hg].
    destruct (ToolResult.ok gd); [by apply ensures_ret; repeat apply Hset|].
    eapply ensures_bind; [by apply Hrss | intros rss Hr].
    destruct (ToolResult.ok rss); by apply ensures_ret; repeat apply Hset.
  - eapply ensures_bind; [by apply Hgd | intros gd Hg].
    destruct (ToolResult.ok gd); [by apply ensures_ret|].
    eapply ensures_bind; [by apply Hrss | intros rss Hr].
    destruct (ToolResult.ok rss); by apply ensures_ret; repeat apply Hset.
Qed.

(** X6. A result returned by a tool names that tool, and the registry files
    every tool under its own name: whatever a registry entry returns is
    labelled with the name it was looked up by. *)
Theorem tool_results_carry_the_tool_name :
  (∀ tool tool_args,
     ensures (λ r, ToolResult.tool_name r = BaseTool_name tool)
       (BaseTool_call tool tool_args))
  ∧ (∀ s tool, _TOOL_REGISTRY !! s = Some tool → BaseTool_name tool = s).
Proof.
  split.
  - intros [|self|self] tool_args; simpl.
    + unfold GitHubTool.call. repeat tool_walk; done.
    + apply WeatherTool_call_ensures; [..|done]; intros city.
      * unfold WeatherTool._openweather_current. repeat tool_walk; done.
      * unfold WeatherTool._open_meteo_current. repeat tool_walk; done.
    + apply NewsTool_call_ensures; [..|done|done]; intros query top_n _.
      * unfold NewsTool._newsapi_search. repeat tool_walk; done.
      * unfold NewsTool._gdelt_search. repeat tool_walk; done.
      * unfold NewsTool._googlenews_rss_search. repeat tool_walk; done.
  - intros s tool. unfold _TOOL_REGISTRY.
    rewrite !lookup_insert, lookup_empty.
    repeat case_decide; subst; by intros [= <-].
Qed.

(** X7. The payload of a tool result has a fixed shape: empty when the
    result is a failure, and on success exactly the keys of the tool, in
    order. For the weather tool these are the eleven normalized fields,
    whichever provider answered. *)
Theorem tool_payload_shape tool tool_args :
  ensures (λ r, (ToolResult.data r).*1
                = if ToolResult.ok r then payload_fields tool else [])
    (BaseTool_call tool tool_args).
Proof.
  destruct tool as [|self|self]; simpl.
  - unfold GitHubTool.call. repeat tool_walk; done.
  - apply WeatherTool_call_ensures; [..|done]; intros city.
    + unfold WeatherTool._openweather_current. repeat tool_walk; done.
    + unfold WeatherTool._open_meteo_current. repeat tool_walk; done.
  - apply NewsTool_call_ensures; [..|done|done]; intros query top_n _.
    + unfold NewsTool._newsapi_search. repeat tool_walk; done.
    + unfold NewsTool._gdelt_search. repeat tool_walk; done.
    + unfold NewsTool._googlenews_rss_search. repeat tool_walk; done.
Qed.

Lemma github_items_bound tool_args :
  ensures (λ r, ToolResult.ok r = true →
                ∃ items, listed "items" r = Some items ∧ (length items ≤ 20)%nat)
    (GitHubTool.call tool_args).
Proof.
  unfold GitHubTool.call. cbv zeta.
  eapply ensures_bind; [apply ensures_true | intros top_n _].
  destruct (str_is_empty _); [by apply ensures_init_with|].
  eapply ensures_bind; [apply ensures_true | intros [r|e] _];
    [|by apply ensures_init_with].
  destruct (negb _); [by apply ensures_init_with|].
  eapply ensures_bind; [apply ensures_true | intros data _].
  eapply (ensures_bind (λ items, (length items ≤ 20)%nat)).
  { apply ensures_lift. intros items H. res_inv.
    match goal with H : py_get _ _ _ = _ |- _ => clear H end.
    match goal with H1 : py_slice_to ?x ?n = Ok ?sl, H2 : py_iter ?sl = Ok ?its,
                    H3 : res_mapM ?f ?its = Ok _ |- _ =>
      pose proof (sliced_length f x n items) as Hl;
      rewrite H1 in Hl; simpl in Hl; rewrite H2 in Hl; simpl in Hl;
      specialize (Hl H3) end.
    lia. }
  intros items Hlen.
  eapply ensures_bind; [apply ensures_true | intros total _].
  apply ensures_init_with. intros _. exists items. done.
Qed.

Lemma news_articles_ensures (f : Json → Res Json) articles_in top_n :
  1 ≤ top_n ≤ 20 →
  ensures (S := World) (λ articles, (length articles ≤ 20)%nat)
    (lift (sl ← py_slice_to articles_in top_n; its ← py_iter sl; res_mapM f its)).
Proof.
  intros Hn. apply ensures_lift. intros articles H.
  apply sliced_length in H. lia.
Qed.

(** X8. [top_n] is clamped: a successful repository search lists at most
    20 repositories and a successful news search at most 20 articles,
    whatever number was asked for and however many the provider sent. *)
Theorem search_results_hold_at_most_20 :
  (∀ tool_args,
     ensures (λ r, ToolResult.ok r = true →
                   ∃ items, listed "items" r = Some items ∧ (length items ≤ 20)%nat)
       (GitHubTool.call tool_args))
  ∧ (∀ self tool_args,
       ensures (λ r, ToolResult.ok r = true →
                     ∃ articles, listed "articles" r = Some articles
                                 ∧ (length articles ≤ 20)%nat)
         (NewsTool.call self tool_args)).
Proof.
  split; [apply github_items_bound|].
  intros self tool_args.
  apply NewsTool_call_ensures; [..|done|done].
  - intros query top_n Hn. unfold NewsTool._newsapi_search. cbv zeta.
    eapply ensures_bind; [apply ensures_true | intros [r|e] _];
      [|by apply ensures_init_with].
    destruct (negb _); [by apply ensures_init_with|].
    eapply ensures_bind; [apply ensures_true | intros [data parse_err] _].
    destruct (opt_truthy _); [by apply ensures_init_with|].
    eapply ensures_bind; [apply ensures_true | intros st _].
    destruct (negb _); [repeat tool_walk; done|].
    eapply ensures_bind; [apply ensures_true | intros jarts _].
    eapply ensures_bind; [by apply news_articles_ensures|].
    intros articles Hlen. apply ensures_init_with. intros _. by exists articles.
  - intros query top_n Hn. unfold NewsTool._gdelt_search. cbv zeta.
    eapply ensures_bind; [apply ensures_true | intros [r|e] _];
      [|by apply ensures_init_with].
    destruct (negb _); [by apply ensures_init_with|].
    eapply ensures_bind; [apply ensures_true | intros [data parse_err] _].
    destruct (opt_truthy _); [by apply ensures_init_with|].
    eapply ensures_bind; [apply ensures_true | intros jarts _].
    eapply ensures_bind; [by apply news_articles_ensures|].
    intros articles Hlen. apply ensures_init_with. intros _. by exists articles.
  - intros query top_n Hn. unfold NewsTool._googlenews_rss_search. cbv zeta.
    eapply ensures_bind; [apply ensures_true | intros [r|e] _];
      [|by apply ensures_init_with].
    destruct (negb _); [by apply ensures_init_with|].
    destruct (rss_items _) as [items|e].
    + apply ensures_init_with. intros _. eexists. split; [reflexivity|].
      rewrite length_map, length_take. lia.
    + destruct (exn_kind e); try apply ensures_raise. by apply ensures_init_with.
Qed.

End tool_payloads.

Lemma meta_at_set_eq k v r : meta_at k (NewsTool.set_meta k v r) = Some v.
Proof. apply dict_lookup_set_eq. Qed.

Lemma meta_at_set_ne k k' v r :
  k ≠ k' → meta_at k' (NewsTool.set_meta k v r) = meta_at k' r.
Proof. apply dict_lookup_set_ne. Qed.

Section tool_edges.
Context `{Ext : Externals}.

(** X9. A missing or blank required argument ([query] for the two search
    tools, [city] for the weather tool) gives the failed result
    [Missing '...'] without any request being made: the world is left as it
    was. The search tools read [top_n] first, so it has to be readable. *)
Theorem missing_argument_makes_no_request tool tool_args w :
  blank_argument tool_args (required_argument tool) = true →
  (reads_top_n tool = true →
   is_ok (py_int (dict_get tool_args "top_n" (JInt 5))) = true) →
  BaseTool_call tool tool_args w
  = (Ok (ToolResult.mk false (BaseTool_name tool) []
           (Some ("Missing '" +:+ required_argument tool +:+ "'")) []), w).
Proof.
  unfold blank_argument. intros Hblank Htop.
  destruct tool as [|self|self]; simpl in *.
  - unfold GitHubTool.call. cbv zeta.
    destruct (py_int _) as [n|e]; [|by specialize (Htop eq_refl)].
    unfold mbind, M_bind, lift. simpl. by rewrite Hblank.
  - unfold WeatherTool.call. cbv zeta. by rewrite Hblank.
  - unfold NewsTool.call. cbv zeta.
    destruct (py_int _) as [n|e]; [|by specialize (Htop eq_refl)].
    unfold mbind, M_bind, lift. simpl. by rewrite Hblank.
Qed.

(** X10. A [top_n] that [int()] cannot read makes the two search tools
    raise, before the query is looked at and before any request. *)
Theorem unreadable_top_n_raises tool_args e w :
  py_int (dict_get tool_args "top_n" (JInt 5)) = Raise e →
  GitHubTool.call tool_args w = (Raise e, w)
  ∧ ∀ self, NewsTool.call self tool_args w = (Raise e, w).
Proof.
  intros H. split; [|intros self]; unfold GitHubTool.call, NewsTool.call;
    cbv zeta; unfold mbind, M_bind, lift; by rewrite H.
Qed.

(** X11. A NewsAPI or GDELT answer whose body is not JSON does not raise:
    the provider function returns a failed result that reports a parse
    error and keeps the response's status, content type and final URL. *)
Theorem news_body_not_json_is_a_failed_result self query top_n r e w w' :
  (∀ u params headers, NewsTool._get u params headers true w = (Ok r, w')) →
  Response_ok r = true →
  json r = Raise e →
  is_value_error e = true →
  (∃ detail,
     NewsTool._newsapi_search self query top_n w
     = (Ok (ToolResult.mk false NewsTool.name []
              (Some ("NewsAPI parse error: " +:+ detail))
              (NewsTool.failure_meta "newsapi" r)), w'))
  ∧ (∃ detail,
       NewsTool._gdelt_search query top_n w
       = (Ok (ToolResult.mk false NewsTool.name []
                (Some ("GDELT parse error: " +:+ detail))
                (NewsTool.failure_meta "gdelt" r)), w')).
Proof.
  intros Hget Hok Hjson Hval. split.
  - eexists. unfold NewsTool._newsapi_search. cbv zeta.
    unfold mbind at 1, M_bind at 1, attempt. rewrite Hget, Hok. simpl.
    unfold NewsTool._safe_json. rewrite Hjson, Hval.
    unfold mbind, M_bind, lift. simpl. reflexivity.
  - eexists. unfold NewsTool._gdelt_search. cbv zeta.
    unfold mbind at 1, M_bind at 1, attempt. rewrite Hget, Hok. simpl.
    unfold NewsTool._safe_json. rewrite Hjson, Hval.
    unfold mbind, M_bind, lift. simpl. reflexivity.
Qed.

(** X12. The repository search decodes the body outside its [try]: an
    answer with a good status whose body cannot be decoded makes [call]
    raise the decoding error instead of returning a failed result. *)
Theorem github_body_not_json_raises tool_args n r e w w' :
  py_int (dict_get tool_args "top_n" (JInt 5)) = Ok n →
  blank_argument tool_args "query" = false →
  (∀ params, GitHubTool._get "/search/repositories" params w = (Ok r, w')) →
  Response_ok r = true →
  json r = Raise e →
  GitHubTool.call tool_args w = (Raise e, w').
Proof.
  unfold blank_argument. intros Hn Hq Hget Hok Hjson.
  unfold GitHubTool.call. cbv zeta. rewrite Hn.
  unfold mbind at 1, M_bind at 1, lift at 1. rewrite Hq.
  unfold mbind at 1, M_bind at 1, attempt. rewrite Hget, Hok. simpl.
  unfold mbind at 1, M_bind at 1, lift at 1. by rewrite Hjson.
Qed.

(** ** Fallbacks *)

Lemma open_meteo_current_meta city :
  ensures open_meteo_meta (WeatherTool._open_meteo_current city).
Proof.
  unfold WeatherTool._open_meteo_current, open_meteo_meta.
  repeat tool_walk; simpl; try done. intros _. by eexists.
Qed.

Lemma openweather_current_meta self city :
  ensures (λ r, ToolResult.ok r = true → meta_at "provider" r = Some (JStr "openweather")
                                         ∧ meta_at "fallback_from" r = None)
    (WeatherTool._openweather_current self city).
Proof.
  unfold WeatherTool._openweather_current. repeat tool_walk; simpl; done.
Qed.

(** X13. Which provider a successful weather result comes from is recorded
    in its meta. Without an OpenWeather key it is Open-Meteo and nothing is
    said of a fallback. With a key it is OpenWeather, or else Open-Meteo
    with [fallback_from] set to [openweather] and a non-empty
    [openweather_error]. *)
Theorem weather_fallback_is_recorded self tool_args :
  ensures (λ r, ToolResult.ok r = true →
     if str_is_empty (WeatherTool.openweather_key self) then
       meta_at "provider" r = Some (JStr "open-meteo")
       ∧ meta_at "fallback_from" r = None
       ∧ meta_at "openweather_error" r = None
     else
       (meta_at "provider" r = Some (JStr "openweather")
        ∧ meta_at "fallback_from" r = None)
       ∨ (meta_at "provider" r = Some (JStr "open-meteo")
          ∧ meta_at "fallback_from" r = Some (JStr "openweather")
          ∧ ∃ msg, str_is_empty msg = false
                   ∧ meta_at "openweather_error" r = Some (JStr msg)))
    (WeatherTool.call self tool_args).
Proof.
  unfold WeatherTool.call. cbv zeta.
  destruct (str_is_empty (py_strip _)); [by apply ensures_init_with|].
  destruct (str_is_empty (WeatherTool.openweather_key self)) eqn:Ekey; simpl.
  - eapply (ensures_bind (λ x, x = inr None)); [by apply ensures_ret|].
    intros ? ->.
    eapply ensures_bind; [apply open_meteo_current_meta | intros om Hom].
    destruct (ToolResult.ok om) eqn:Eok; [|by apply ensures_init_with].
    apply ensures_ret. intros _. destruct (Hom Eok) as [c Hc].
    unfold meta_at. simpl. by rewrite Hc.
  - eapply (ensures_bind (λ x,
      match x with
      | inl r => ToolResult.ok r = true →
                 meta_at "provider" r = Some (JStr "openweather")
                 ∧ meta_at "fallback_from" r = None
      | inr None => False
      | inr (Some msg) => str_is_empty msg = false
      end)).
    + eapply ensures_bind; [apply openweather_current_meta | intros ow How].
      destruct (ToolResult.ok ow) eqn:Eok; apply ensures_ret; [done|].
      unfold opt_or. destruct (ToolResult.error ow) as [s|]; [|done].
      by destruct (str_is_empty s) eqn:Es.
    + intros [ow|[msg|]] Hfirst; [|  |done].
      * apply ensures_ret. intros Hok. left. by apply Hfirst.
      * eapply ensures_bind; [apply open_meteo_current_meta | intros om Hom].
        destruct (ToolResult.ok om) eqn:Eok; [|by apply ensures_init_with].
        apply ensures_ret. intros _. right. destruct (Hom Eok) as [c Hc].
        unfold meta_at, opt_truthy. rewrite Hfirst. simpl. rewrite Hc. simpl.
        split_and!; [done|done|]. by exists msg.
Qed.

Lemma newsapi_search_meta self query top_n :
  ensures (provider_meta "newsapi") (NewsTool._newsapi_search self query top_n).
Proof.
  unfold NewsTool._newsapi_search, provider_meta. repeat tool_walk; simpl; done.
Qed.

Lemma gdelt_search_meta query top_n :
  ensures (provider_meta "gdelt") (NewsTool._gdelt_search query top_n).
Proof.
  unfold NewsTool._gdelt_search, provider_meta. repeat tool_walk; simpl; done.
Qed.

Lemma googlenews_rss_search_meta query top_n :
  ensures (provider_meta "googlenews_rss") (NewsTool._googlenews_rss_search query top_n).
Proof.
  unfold NewsTool._googlenews_rss_search, provider_meta. repeat tool_walk; simpl; done.
Qed.

(** X14. The news tool asks its providers in turn, NewsAPI first (only
    with a key), then GDELT, then Google News RSS, each in the world the one
    before left, and stops at the first that succeeds. What it returns is
    the result of the last provider asked, with its meta extended: for
    every provider asked before, under that provider's [_error] key, the
    error that provider's result carried; and, when the last one succeeded
    after others, [fallback_from] with the name of the provider asked just
    before it. A failure is returned only when all providers have been
    asked. *)
Theorem news_fallback_is_recorded self tool_args n w :
  blank_argument tool_args "query" = false →
  py_int (dict_get tool_args "top_n" (JInt 5)) = Ok n →
  let query := py_strip (py_str (dict_get tool_args "query" (JStr ""))) in
  let top_n := Z.max 1 (Z.min n 20) in
  match ask_in_turn (news_providers self query top_n) w with
  | (Raise e, w') => NewsTool.call self tool_args w = (Raise e, w')
  | (Ok asked, w') =>
      ∃ earlier name res r,
        asked = earlier ++ [(name, res)]
        ∧ NewsTool.call self tool_args w = (Ok r, w')
        ∧ same_but_meta r res
        ∧ meta_at "provider" r = Some (JStr name)
        ∧ Forall (λ pf : string * ToolResult.t,
                    ToolResult.ok pf.2 = false
                    ∧ meta_at (pf.1 +:+ "_error") r
                      = Some (opt_json (ToolResult.error pf.2))) earlier
        ∧ meta_at "fallback_from" r
          = (if ToolResult.ok res
             then (λ pf : string * ToolResult.t, JStr pf.1) <$> last earlier
             else None)
        ∧ (ToolResult.ok res = false →
           asked.*1 = (news_providers self query top_n).*1)
  end.
Proof.
  unfold blank_argument. intros Hblank Hn. cbv zeta.
  unfold NewsTool.call. cbv zeta. rewrite Hn.
  rewrite (m_bind_run (lift (Ok n)) _ w n w eq_refl). cbv beta. rewrite Hblank.
  unfold news_providers.
  set (query := py_strip (py_str (dict_get tool_args "query" (JStr "")))).
  set (top_n := Z.max 1 (Z.min n 20)).
  destruct (str_is_empty (NewsTool.newsapi_key self)) eqn:Ekey; simpl;
    unfold mbind, M_bind.
  - (* no key: GDELT, then RSS *)
    destruct (NewsTool._gdelt_search query top_n w) as [[gd|e] w1] eqn:E1;
      [|reflexivity].
    pose proof (ensures_run _ _ _ _ _ (gdelt_search_meta query top_n) E1)
      as (Hp1 & Hf1 & Hg1 & Hn1).
    destruct (ToolResult.ok gd) eqn:Egd; simpl.
    { exists [], "gdelt", gd, gd. rewrite Egd.
      split_and!; try done; by split_and!. }
    destruct (NewsTool._googlenews_rss_search query top_n w1) as [[rss|e] w2] eqn:E2;
      [|reflexivity].
    pose proof (ensures_run _ _ _ _ _ (googlenews_rss_search_meta query top_n) E2)
      as (Hp2 & Hf2 & Hg2 & Hn2).
    destruct (ToolResult.ok rss) eqn:Erss; simpl.
    + eexists [("gdelt", gd)], "googlenews_rss", rss, _. rewrite Erss.
      split_and!; [done | reflexivity | by split_and! | | | | done].
      * by rewrite !meta_at_set_ne by done.
      * repeat constructor; [done|]. simpl. by rewrite meta_at_set_eq.
      * simpl. rewrite !meta_at_set_ne by done. by rewrite meta_at_set_eq.
    + eexists [("gdelt", gd)], "googlenews_rss", rss, _. rewrite Erss.
      split_and!; [done | reflexivity | by split_and! | | | | done].
      * by rewrite !meta_at_set_ne by done.
      * repeat constructor; [done|]. simpl. by rewrite meta_at_set_eq.
      * by rewrite !meta_at_set_ne by done.
  - (* with a key: NewsAPI, then GDELT, then RSS *)
    destruct (NewsTool._newsapi_search self query top_n w) as [[res|e] w0] eqn:E0;
      [|reflexivity].
    pose proof (ensures_run _ _ _ _ _ (newsapi_search_meta self query top_n) E0)
      as (Hp0 & Hf0 & Hg0 & Hn0).
    destruct (ToolResult.ok res) eqn:Eres; simpl.
    { exists [], "newsapi", res, res. rewrite Eres.
      split_and!; try done; by split_and!. }
    destruct (NewsTool._gdelt_search query top_n w0) as [[gd|e] w1] eqn:E1;
      [|reflexivity].
    pose proof (ensures_run _ _ _ _ _ (gdelt_search_meta query top_n) E1)
      as (Hp1 & Hf1 & Hg1 & Hn1).
    destruct (ToolResult.ok gd) eqn:Egd; simpl.
    { eexists [("newsapi", res)], "gdelt", gd, _. rewrite Egd.
      split_and!; [done | reflexivity | by split_and! | | | | done].
      * by rewrite !meta_at_set_ne by done.
      * repeat constructor; [done|]. simpl. by rewrite meta_at_set_eq.
      * simpl. rewrite !meta_at_set_ne by done. by rewrite meta_at_set_eq. }
    destruct (NewsTool._googlenews_rss_search query top_n w1) as [[rss|e] w2] eqn:E2;
      [|reflexivity].
    pose proof (ensures_run _ _ _ _ _ (googlenews_rss_search_meta query top_n) E2)
      as (Hp2 & Hf2 & Hg2 & Hn2).
    destruct (ToolResult.ok rss) eqn:Erss; simpl.
    + eexists [("newsapi", res); ("gdelt", gd)], "googlenews_rss", rss, _.
      rewrite Erss.
      split_and!; [done | reflexivity | by split_and! | | | | done].
      * by rewrite !meta_at_set_ne by done.
      * repeat constructor; try done; simpl.
        -- rewrite !meta_at_set_ne by done. by rewrite meta_at_set_eq.
        -- by rewrite meta_at_set_eq.
      * simpl. rewrite !meta_at_set_ne by done. by rewrite meta_at_set_eq.
    + eexists [("newsapi", res); ("gdelt", gd)], "googlenews_rss", rss, _.
      rewrite Erss.
      split_and!; [done | reflexivity | by split_and! | | | | done].
      * by rewrite !meta_at_set_ne by done.
      * repeat constructor; try done; simpl.
        -- rewrite !meta_at_set_ne by done. by rewrite meta_at_set_eq.
        -- by rewrite meta_at_set_eq.
      * by rewrite !meta_at_set_ne by done.
Qed.

End tool_edges.

(** ** Dumping and validating again *)

Lemma res_mapM_map {A B} (f : A → Res B) (g : B → A) (l : list B) :
  Forall (λ y, f (g y) = Ok y) l → res_mapM f (map g l) = Ok l.
Proof.
  induction 1 as [|y l Hy _ IH]; simpl; [done|]. by rewrite Hy, IH.
Qed.

Lemma forbid_extra_Raise allowed d k v :
  (k, v) ∈ d → k ∉ allowed → rejected (forbid_extra allowed d).
Proof.
  intros Hin Hk. unfold forbid_extra.
  destruct (forallb _ d) eqn:E; [|by eexists].
  exfalso. rewrite forallb_forall in E.
  specialize (E (k, v) (proj1 (list_elem_of_In _ _) Hin)). simpl in E.
  apply existsb_exists in E as (y & Hy & ->%String.eqb_eq).
  by apply Hk, list_elem_of_In.
Qed.

Section round_trips.
Context `{Ext : Externals}.
Hypothesis pydantic_int_JInt : ∀ z, pydantic_int (JInt z) = Some z.

Lemma as_int_JInt field (z : Z) : as_int field (JInt z) = Ok z.
Proof. unfold as_int. by rewrite pydantic_int_JInt. Qed.

Lemma as_int_JInts field (l : list Z) :
  res_mapM (as_int field) (map JInt l) = Ok l.
Proof.
  apply res_mapM_map, Forall_forall. intros z _. apply as_int_JInt.
Qed.

Lemma as_str_JStrs field (l : list string) :
  res_mapM (as_str field) (map JStr l) = Ok l.
Proof. apply res_mapM_map, Forall_forall. done. Qed.

Lemma PlanStep_round_trip s :
  valid_step s → PlanStep_model_validate (PlanStep_model_dump s) = Ok s.
Proof.
  intros Hs. unfold PlanStep_model_validate, PlanStep_model_dump.
  simpl. rewrite as_int_JInt. simpl.
  assert (opt_field
            [("id", JInt (PlanStep.id s)); ("action", JStr (PlanStep.action s));
             ("tool_name", opt_json (PlanStep.tool_name s));
             ("tool_args", JObj (PlanStep.tool_args s));
             ("output_key", JStr (PlanStep.output_key s));
             ("depends_on", JArr (map JInt (PlanStep.depends_on s)))]
            "tool_name" None
            (λ v, match v with
                  | JNull => Ok None
                  | JStr _ => s1 ← as_str "tool_name" v; Ok (Some s1)
                  | _ => s0 ← as_str "tool_name" v; Ok (Some s0)
                  end) = Ok (PlanStep.tool_name s)) as ->.
  { unfold opt_field. simpl. by destruct (PlanStep.tool_name s). }
  simpl. unfold opt_field. simpl. rewrite as_int_JInts. simpl. exact Hs.
Qed.

Lemma PlanStep_validated_valid data s :
  PlanStep_model_validate data = Ok s → valid_step s.
Proof.
  intros (i & a & tn & ta & k & d & H)%PlanStep_model_validate_Ok.
  pose proof (PlanStep_init_Ok _ _ _ _ _ _ _ H) as (-> & _). exact H.
Qed.

(** X15. A plan that validation let through dumps to a dictionary that
    validates to the same plan again (as long as pydantic reads an integer
    as itself): the plan handed out in the response is a faithful and
    itself valid copy. *)
Theorem plan_dump_validates_to_same_plan data p :
  AgentPlan_model_validate data = Ok p →
  AgentPlan_model_validate (JObj (AgentPlan_model_dump p)) = Ok p.
Proof.
  intros (o & asm & steps & Hinit & Hsteps)%AgentPlan_model_validate_Ok.
  pose proof (AgentPlan_init_Ok _ _ _ _ Hinit) as (-> & _).
  unfold AgentPlan_model_validate, AgentPlan_model_dump. simpl.
  unfold opt_field. simpl. rewrite as_str_JStrs. simpl.
  rewrite res_mapM_map; [exact Hinit|].
  eapply Forall_impl; [exact Hsteps|]. intros s [d Hd].
  by eapply PlanStep_round_trip, PlanStep_validated_valid.
Qed.

Lemma VerifierStep_round_trip fs :
  valid_fix_step fs → VerifierStep_model_validate (VerifierStep_model_dump fs) = Ok fs.
Proof.
  intros Hs. unfold VerifierStep_model_validate, VerifierStep_model_dump.
  simpl. rewrite as_int_JInt. simpl.
  unfold opt_field. simpl. rewrite as_int_JInts. simpl. exact Hs.
Qed.

Lemma VerifierStep_validated_valid data fs :
  VerifierStep_model_validate data = Ok fs → valid_fix_step fs.
Proof.
  intros (i & a & t & ta & k & d & H)%VerifierStep_model_validate_Ok.
  pose proof (VerifierStep_init_Ok _ _ _ _ _ _ _ H) as (t' & [= <-] & -> & _).
  exact H.
Qed.

Lemma VerificationResult_validated data v :
  VerificationResult_model_validate data = Ok v →
  VerificationResult_init (VerificationResult.status v) (VerificationResult.issues v)
    (VerificationResult.fix_steps v) (VerificationResult.final_output v) = Ok v
  ∧ Forall valid_fix_step (VerificationResult.fix_steps v).
Proof.
  unfold VerificationResult_model_validate. intros H.
  apply res_bind_Ok in H as (d & _ & H).
  apply res_bind_Ok in H as (_ & _ & H).
  apply res_bind_Ok in H as (st & _ & H).
  apply res_bind_Ok in H as (iss & _ & H).
  apply res_bind_Ok in H as (fs & Hfs & H).
  apply res_bind_Ok in H as (fo & _ & H).
  pose proof H as Hinit. unfold VerificationResult_init in H.
  apply res_bind_Ok in H as (st' & [-> _]%check_literal_Ok & [= <-]).
  split; [exact Hinit|]. simpl.
  unfold opt_field in Hfs. destruct (dict_lookup "fix_steps" d).
  - apply res_bind_Ok in Hfs as (l & _ & Hfs). apply res_mapM_Forall in Hfs.
    eapply Forall_impl; [exact Hfs|]. intros s [d' Hd'].
    by eapply VerifierStep_validated_valid.
  - injection Hfs as <-. constructor.
Qed.

(** X16. A verdict that validation let through dumps to a dictionary that
    validates to the same verdict again, fix steps included. *)
Theorem verdict_dump_validates_to_same_verdict data v :
  VerificationResult_model_validate data = Ok v →
  VerificationResult_model_validate (JObj (VerificationResult_model_dump v)) = Ok v.
Proof.
  intros [Hinit Hfs]%VerificationResult_validated.
  unfold VerificationResult_model_validate, VerificationResult_model_dump. simpl.
  unfold opt_field. simpl. rewrite as_str_JStrs. simpl.
  rewrite res_mapM_map; [exact Hinit|].
  eapply Forall_impl; [exact Hfs|]. intros fs Hv. by apply VerifierStep_round_trip.
Qed.

End round_trips.

Section strictness.
Context `{Ext : Externals}.

(** X17. The four models are closed ([extra=forbid]): a dictionary with a
    key that is not a field of the model is rejected with a validation
    error, whatever else it holds. *)
Theorem unknown_keys_are_rejected d k v :
  (k, v) ∈ d →
  (k ∉ step_fields → rejected (PlanStep_model_validate (JObj d))
                     ∧ rejected (VerifierStep_model_validate (JObj d)))
  ∧ (k ∉ plan_fields → rejected (AgentPlan_model_validate (JObj d)))
  ∧ (k ∉ verdict_fields → rejected (VerificationResult_model_validate (JObj d))).
Proof.
  intros Hin. split_and!; intros Hk;
    pose proof (forbid_extra_Raise _ _ _ _ Hin Hk) as (e & He & Hkind);
    try split; exists e;
    unfold PlanStep_model_validate, VerifierStep_model_validate,
      AgentPlan_model_validate, VerificationResult_model_validate; simpl;
    unfold step_fields, plan_fields, verdict_fields in He; by rewrite He.
Qed.

(** X18. The status of a verdict that validation let through is
    [complete] or [needs_fix], and any other status is rejected. *)
Theorem verdict_status_is_one_of_two :
  (∀ data v, VerificationResult_model_validate data = Ok v →
             VerificationResult.status v ∈ ["complete"; "needs_fix"])
  ∧ (∀ status issues fix_steps final_output,
       status ∉ ["complete"; "needs_fix"] →
       rejected (VerificationResult_init status issues fix_steps final_output)).
Proof.
  split.
  - intros data v H. unfold VerificationResult_model_validate in H. res_inv.
    match goal with H : VerificationResult_init _ _ _ _ = _ |- _ =>
      unfold VerificationResult_init in H; res_inv end.
    match goal with H : check_literal _ _ _ = _ |- _ =>
      apply check_literal_Ok in H as [-> ?] end.
    done.
  - intros status issues fix_steps final_output Hs.
    unfold VerificationResult_init.
    destruct (check_literal "status" ["complete"; "needs_fix"] status) as [x|e] eqn:E.
    + apply check_literal_Ok in E as [_ ?]. done.
    + exists e. split; [done|]. by eapply check_literal_Raise.
Qed.

End strictness.

(** ** More on the executor *)

Lemma is_ToolName_true s : s ∈ ToolName → is_ToolName s = true.
Proof.
  intros H. unfold is_ToolName. apply existsb_exists. exists s.
  split; [by apply list_elem_of_In | apply String.eqb_refl].
Qed.

Lemma raises_only_ret {S A} (Q : Exn → S → Prop) (a : A) : raises_only Q (mret a).
Proof. intros σ. exact I. Qed.

Lemma raises_only_bind {S A B} (Q : Exn → S → Prop) (m : M S A) (f : A → M S B) :
  raises_only Q m → (∀ a, raises_only Q (f a)) → raises_only Q (m ≫= f).
Proof.
  intros Hm Hf σ. specialize (Hm σ). unfold mbind, M_bind.
  destruct (m σ) as [[a|e] σ']; [apply Hf | exact Hm].
Qed.

Lemma raises_only_lift {S A} (Q : Exn → S → Prop) (r : Res A) :
  is_ok r = true → raises_only Q (lift r).
Proof. intros H σ. unfold lift. by destruct r. Qed.

Lemma raises_only_attempt {S A} (Q : Exn → S → Prop) (m : M S A) :
  raises_only Q (attempt m).
Proof. intros σ. unfold attempt. by destruct (m σ). Qed.

Lemma raises_only_weaken {S A} (Q Q' : Exn → S → Prop) (m : M S A) :
  (∀ e σ, Q e σ → Q' e σ) → raises_only Q m → raises_only Q' m.
Proof.
  intros HQ Hm σ. specialize (Hm σ). destruct (m σ) as [[a|e] σ']; auto.
Qed.

Lemma res_mapM_Raise_inv {A B} (f : A → Res B) l e :
  res_mapM f l = Raise e → ∃ x, x ∈ l ∧ f x = Raise e.
Proof.
  induction l as [|x l IH]; simpl; [discriminate|].
  destruct (f x) as [y|e'] eqn:Ex; simpl.
  - destruct (res_mapM f l) as [ys|e'']; simpl; [discriminate|].
    intros [= ->]. destruct IH as (z & Hz & Hfz); [done|].
    exists z. split; [by right | done].
  - intros [= ->]. exists x. split; [by left | done].
Qed.

Section executor_more.
Context `{Ext : Externals}.
Implicit Types (self : ExecutorAgent.t) (step : PlanStep.t) (state : ExecutionState.t).

Lemma run_step_cases self step state σ state' σ' :
  ExecutorAgent._run_step self step state σ = (Ok state', σ') →
  step_outcome step state state'.
Proof.
  intros H. destruct (ExecutorAgent._deps_ok step state) eqn:Eg.
  - destruct (PlanStep.tool_name step) as [tn|] eqn:Et.
    + eapply run_step_tool in H as (r & l1 & l2 & _ & ->); [|done..].
      right. right. rewrite Et. by exists tn, r, l1, l2.
    + unfold ExecutorAgent._run_step in H. rewrite Eg, Et in H. simpl in H.
      m_inv. right. left. split; [done|]. by eexists _, _.
  - rewrite run_step_skipped in H by done. injection H as <- <-. by left.
Qed.

Lemma step_outcome_status step state state' :
  step_outcome step state state' →
  ∃ s, ExecutionState.step_status state' !! PlanStep.id step = Some s
       ∧ s ∈ step_statuses.
Proof.
  unfold step_statuses.
  intros [-> | [(_ & text & line & ->) | (tn & r & l1 & l2 & _ & ->)]]; simpl;
    rewrite lookup_insert_eq; eexists; (split; [reflexivity|]).
  - set_solver.
  - set_solver.
  - destruct (ToolResult.ok r); set_solver.
Qed.

Lemma step_outcome_logs step state state' :
  step_outcome step state state' →
  (length (ExecutionState.logs state) + 1 ≤ length (ExecutionState.logs state')
   ≤ length (ExecutionState.logs state) + 2)%nat.
Proof.
  intros [-> | [(_ & text & line & ->) | (tn & r & l1 & l2 & _ & ->)]]; simpl;
    rewrite ?length_app; simpl; lia.
Qed.

Lemma step_outcome_lines step state state' :
  step_outcome step state state' →
  length (ExecutionState.logs state')
  = (length (ExecutionState.logs state)
     + (if ran_tool state' step then 2 else 1))%nat.
Proof.
  intros [-> | [(Hn & text & line & ->) | (tn & r & l1 & l2 & Ht & ->)]].
  - assert (ran_tool (skipped step state) step = false) as ->.
    { unfold ran_tool. destruct (PlanStep.tool_name step); [|done].
      apply negb_false_iff, bool_decide_eq_true_2. apply lookup_insert_eq. }
    simpl. rewrite length_app. simpl. lia.
  - unfold ran_tool. rewrite Hn. simpl. rewrite length_app. simpl. lia.
  - match goal with |- context [ran_tool ?s step] =>
      assert (ran_tool s step = true) as -> end.
    { unfold ran_tool. rewrite Ht.
      apply negb_true_iff, bool_decide_eq_false_2.
      simpl. rewrite lookup_insert_eq. by destruct (ToolResult.ok r). }
    simpl. rewrite !length_app. simpl. lia.
Qed.

Lemma ran_tool_status state1 state2 step :
  ExecutionState.step_status state1 !! PlanStep.id step
  = ExecutionState.step_status state2 !! PlanStep.id step →
  ran_tool state1 step = ran_tool state2 step.
Proof. unfold ran_tool. by intros ->. Qed.

Lemma step_outcome_result step state state' :
  step_outcome step state state' →
  ExecutionState.step_status state' !! PlanStep.id step ≠ Some "skipped" →
  is_Some (dict_lookup (PlanStep.output_key step) (ExecutionState.results state')).
Proof.
  intros [-> | [(_ & text & line & ->) | (tn & r & l1 & l2 & _ & ->)]]; simpl.
  - rewrite lookup_insert_eq. done.
  - intros _. rewrite dict_lookup_set_eq. by eexists.
  - intros _. rewrite dict_lookup_set_eq. by eexists.
Qed.

(** X19. An exception that a tool raises stays inside the step: the step
    returns, is marked failed, and stores under its output key a failed
    result that names the step's tool and carries the exception's message,
    with no data and no meta. *)
Theorem tool_exception_is_contained self step state σ tn tool e w' :
  ExecutorAgent._deps_ok step state = true →
  PlanStep.tool_name step = Some tn →
  get_tool tn = Ok tool →
  BaseTool_call tool (PlanStep.tool_args step) (world σ) = (Raise e, w') →
  ∃ state',
    ExecutorAgent._run_step self step state σ = (Ok state', mkSys w' (trace σ))
    ∧ ExecutionState.step_status state' !! PlanStep.id step = Some "failed"
    ∧ dict_lookup (PlanStep.output_key step) (ExecutionState.results state')
      = Some (ToolResult_model_dump
                (ToolResult.mk false tn [] (Some (exn_msg e)) [])).
Proof.
  intros Hg Ht Htool Hcall.
  assert (is_ToolName tn = true) as Hname.
  { apply is_ToolName_true, registry_ToolName. unfold get_tool in Htool.
    destruct (_TOOL_REGISTRY !! tn); [by eexists | discriminate]. }
  unfold ExecutorAgent._run_step. rewrite Hg, Ht. simpl. rewrite Htool.
  unfold mbind at 1, M_bind at 1, lift at 1. cbv zeta.
  unfold mbind at 1, M_bind at 1, attempt, in_world. rewrite Hcall.
  unfold ToolResult_init. rewrite Hname.
  unfold mbind, M_bind, lift. simpl.
  eexists. split; [reflexivity|]. simpl.
  by rewrite lookup_insert_eq, dict_lookup_set_eq.
Qed.

(** X20. A compose step (no tool name) whose dependencies are ok stores
    [{text: ...}] under its output key and ends as ok, whenever it returns.
    Without a model the text is the step's action and nothing outside is
    touched. With a model the step asks one chat turn of two messages,
    without JSON mode: a reply whose content is a string is stripped and
    stored; a reply whose content is not a string ([null], say) makes the
    step raise the [AttributeError] of [.strip()], nothing stored; and a
    failure of the turn leaves the step as that exception. *)
Theorem compose_step_stores_text self step state σ :
  ExecutorAgent._deps_ok step state = true →
  PlanStep.tool_name step = None →
  let stored text :=
    ExecutionState.append_log
      ("Step " +:+ pretty (PlanStep.id step) +:+ " composed text under '"
       +:+ PlanStep.output_key step +:+ "'")
      (ExecutionState.set_result (PlanStep.output_key step)
         (JObj [("text", JStr text)])
         (ExecutionState.set_status (PlanStep.id step) "ok" state)) in
  match ExecutorAgent.llm self with
  | None =>
      ExecutorAgent._run_step self step state σ
      = (Ok (stored (PlanStep.action step)), σ)
  | Some llm =>
      ∃ messages,
        map role messages = ["system"; "user"]
        ∧ ∀ reply w',
            groq_chat llm messages 0.2%float 500 false (world σ) = (reply, w') →
            ExecutorAgent._run_step self step state σ
            = (match reply with
               | Ok (JStr text) => Ok (stored (py_strip text))
               | Ok _ => throw AttributeError "object has no attribute 'strip'"
               | Raise e => Raise e
               end,
               mkSys w' (trace σ ++ [EvChat messages false reply]))
  end.
Proof.
  intros Hg Ht stored. unfold ExecutorAgent._run_step. rewrite Hg, Ht. simpl.
  unfold ExecutorAgent._compose_text.
  destruct (ExecutorAgent.llm self) as [llm|]; [|reflexivity].
  cbv zeta.
  match goal with |- context [GroqClient_chat _ ?m _ _ _] => exists m end.
  split; [reflexivity|]. intros reply w' Hchat.
  unfold mbind, M_bind, GroqClient_chat, lift. rewrite Hchat.
  destruct reply as [content|e]; [|reflexivity].
  by destruct content.
Qed.

Lemma run_steps_inv self steps state σ state' σ' :
  ExecutorAgent._run_steps self steps state σ = (Ok state', σ') →
  ExecutorAgent._run_steps_for self steps state
    (mkSys (world σ) (trace σ ++ [EvBatch steps])) = (Ok state', σ').
Proof.
  unfold ExecutorAgent._run_steps. unfold mbind at 1, M_bind at 1. done.
Qed.

Lemma run_steps_for_statuses self steps state σ state' σ' i :
  ExecutorAgent._run_steps_for self steps state σ = (Ok state', σ') →
  i ∈ map PlanStep.id steps →
  ∃ s, ExecutionState.step_status state' !! i = Some s ∧ s ∈ step_statuses.
Proof.
  revert state σ. induction steps as [|step rest IH]; intros state σ; simpl.
  - intros _ Hi. by apply elem_of_nil in Hi.
  - intros H Hi. apply m_bind_Ok in H as (s1 & σ1 & H1 & H).
    destruct (decide (i ∈ map PlanStep.id rest)) as [Hin|Hout].
    + by eapply IH.
    + apply elem_of_cons in Hi as [->|Hi]; [|done].
      rewrite (run_steps_for_other_status _ _ _ _ _ _ _ H Hout).
      by eapply step_outcome_status, run_step_cases.
Qed.

(** X21. When a batch is through, each of its steps has a status, and
    that status is one of [ok], [failed], [skipped]; the status of every
    identifier outside the batch is what it was. *)
Theorem batch_gives_every_step_a_status self steps state σ state' σ' :
  ExecutorAgent._run_steps self steps state σ = (Ok state', σ') →
  ∀ i,
    (i ∈ map PlanStep.id steps →
     ∃ s, ExecutionState.step_status state' !! i = Some s ∧ s ∈ step_statuses)
    ∧ (i ∉ map PlanStep.id steps →
       ExecutionState.step_status state' !! i
       = ExecutionState.step_status state !! i).
Proof.
  intros H%run_steps_inv i. split; intros Hi.
  - by eapply run_steps_for_statuses.
  - by eapply run_steps_for_other_status.
Qed.

Lemma run_steps_for_lines self steps state σ state' σ' :
  ExecutorAgent._run_steps_for self steps state σ = (Ok state', σ') →
  NoDup (map PlanStep.id steps) →
  length (ExecutionState.logs state')
  = (length (ExecutionState.logs state)
     + sum_list (map (λ step, if ran_tool state' step then 2 else 1) steps))%nat.
Proof.
  revert state σ. induction steps as [|step rest IH]; intros state σ; simpl.
  - intros [= <- <-] _. lia.
  - intros H Hnd. apply m_bind_Ok in H as (s1 & σ1 & H1 & H).
    apply NoDup_cons in Hnd as [Hfresh Hnd].
    rewrite (IH _ _ H Hnd).
    rewrite (step_outcome_lines _ _ _ (run_step_cases _ _ _ _ _ _ H1)).
    rewrite (ran_tool_status state' s1 step
               (run_steps_for_other_status _ _ _ _ _ _ _ H Hfresh)).
    lia.
Qed.

(** X22. A batch appends to the log one line for each step that is
    skipped or composed and two for each tool step that runs. In a batch
    with distinct identifiers, where the state at the end tells which tool
    steps ran, the log has grown by exactly that many lines; in any batch,
    by between one and two lines per step. *)
Theorem batch_log_growth self steps state σ state' σ' :
  ExecutorAgent._run_steps self steps state σ = (Ok state', σ') →
  (NoDup (map PlanStep.id steps) →
   length (ExecutionState.logs state')
   = (length (ExecutionState.logs state)
      + sum_list (map (λ step, if ran_tool state' step then 2 else 1) steps))%nat)
  ∧ (length (ExecutionState.logs state) + length steps
     ≤ length (ExecutionState.logs state')
     ≤ length (ExecutionState.logs state) + 2 * length steps)%nat.
Proof.
  intros H%run_steps_inv. split; [by eapply run_steps_for_lines|].
  revert H.
  generalize (mkSys (world σ) (trace σ ++ [EvBatch steps])). clear σ.
  revert state. induction steps as [|step rest IH]; intros state σ; simpl.
  - intros [= <- <-]. lia.
  - intros H. apply m_bind_Ok in H as (s1 & σ1 & H1 & H).
    apply run_step_cases, step_outcome_logs in H1.
    apply IH in H. lia.
Qed.

(** X23. In a batch with distinct identifiers, every step that does not
    end as skipped has a result under its output key when the batch is
    through. *)
Theorem unskipped_steps_leave_a_result self steps state σ state' σ' step :
  ExecutorAgent._run_steps self steps state σ = (Ok state', σ') →
  NoDup (map PlanStep.id steps) →
  step ∈ steps →
  ExecutionState.step_status state' !! PlanStep.id step ≠ Some "skipped" →
  is_Some (dict_lookup (PlanStep.output_key step) (ExecutionState.results state')).
Proof.
  intros H%run_steps_inv. revert H.
  generalize (mkSys (world σ) (trace σ ++ [EvBatch steps])). clear σ.
  revert state. induction steps as [|a rest IH]; intros state σ; simpl.
  - intros _ _ Hin. by apply elem_of_nil in Hin.
  - intros H Hnd Hin Hst. apply m_bind_Ok in H as (s1 & σ1 & H1 & H).
    apply NoDup_cons in Hnd as [Hfresh Hnd].
    apply elem_of_cons in Hin as [->|Hin]; [|by eapply IH].
    rewrite (run_steps_for_other_status _ _ _ _ _ _ _ H Hfresh) in Hst.
    pose proof (step_outcome_result _ _ _ (run_step_cases _ _ _ _ _ _ H1) Hst) as Hres.
    pose proof (ensures_run _ _ _ _ _ (run_steps_for_extends self rest s1) H)
      as (_ & _ & Hkeep & _).
    by apply Hkeep.
Qed.

Lemma run_step_raises self step state :
  (∀ tn, PlanStep.tool_name step = Some tn → tn ∈ ToolName) →
  raises_only (λ e σ', is_Some (ExecutorAgent.llm self)
                       ∧ PlanStep.tool_name step = None
                       ∧ (raised_by_last_chat e σ' ∨ raised_by_strip e σ'))
    (ExecutorAgent._run_step self step state).
Proof.
  intros Htool. unfold ExecutorAgent._run_step. cbv zeta.
  destruct (negb _); [apply raises_only_ret|].
  destruct (PlanStep.tool_name step) as [tn|] eqn:Et.
  - destruct (get_tool_registered tn (Htool tn eq_refl)) as [tool ->].
    apply raises_only_bind; [by apply raises_only_lift | intros tool'].
    apply raises_only_bind; [apply raises_only_attempt | intros rr].
    apply raises_only_bind.
    + destruct rr; [apply raises_only_ret|]. apply raises_only_lift.
      unfold ToolResult_init. by rewrite (is_ToolName_true tn (Htool tn eq_refl)).
    + intros tool_res. destruct (ToolResult.ok tool_res); apply raises_only_ret.
  - apply raises_only_bind; [|intros; apply raises_only_ret].
    unfold ExecutorAgent._compose_text.
    destruct (ExecutorAgent.llm self) as [llm|]; [|apply raises_only_ret].
    intros σ. unfold mbind, M_bind, GroqClient_chat, lift.
    destruct (groq_chat _ _ _ _ _ _) as [[content|e] w].
    + destruct (py_strip_any content) as [text|e] eqn:Es; [done|].
      split_and!; [by eexists | done |]. right.
      eexists _, content. simpl. by rewrite last_snoc.
    + split_and!; [by eexists | done |]. left.
      eexists. simpl. by rewrite last_snoc.
Qed.

Lemma run_steps_for_raises self steps state :
  (∀ step tn, step ∈ steps → PlanStep.tool_name step = Some tn → tn ∈ ToolName) →
  raises_only (λ e σ', is_Some (ExecutorAgent.llm self)
                       ∧ (∃ step, step ∈ steps ∧ PlanStep.tool_name step = None)
                       ∧ (raised_by_last_chat e σ' ∨ raised_by_strip e σ'))
    (ExecutorAgent._run_steps_for self steps state).
Proof.
  revert state. induction steps as [|a rest IH]; intros state Htool; simpl.
  - apply raises_only_ret.
  - apply raises_only_bind.
    + eapply raises_only_weaken; [|apply run_step_raises].
      * intros e σ' (Hl & Hn & Hc). split_and!; [done| |done].
        exists a. split; [by left | done].
      * intros tn. apply Htool. by left.
    + intros s1. eapply raises_only_weaken; [|apply IH].
      * intros e σ' (Hl & (step & Hin & Hn) & Hc). split_and!; [done| |done].
        exists step. split; [by right | done].
      * intros step tn Hin. apply Htool. by right.
Qed.

Lemma valid_step_tool step tn :
  valid_step step → PlanStep.tool_name step = Some tn → tn ∈ ToolName.
Proof.
  intros (_ & _ & _ & _ & Ht & _)%PlanStep_init_Ok. apply Ht.
Qed.

(** X24. On steps that validation let through, a batch can only fail in
    its composer: an exception that leaves [_run_steps] is either the one
    the last chat turn ended with, or the [AttributeError] that [.strip()]
    raises on the content of that turn's reply when it is not a string; in
    both cases the batch has a compose step and the executor a model. An
    executor without a model therefore always returns. *)
Theorem batch_raises_only_what_the_composer_raised self steps state σ :
  Forall valid_step steps →
  (∀ e σ', ExecutorAgent._run_steps self steps state σ = (Raise e, σ') →
           is_Some (ExecutorAgent.llm self)
           ∧ (∃ step, step ∈ steps ∧ PlanStep.tool_name step = None)
           ∧ (raised_by_last_chat e σ'
              ∨ (raised_by_strip e σ' ∧ exn_kind e = AttributeError)))
  ∧ (ExecutorAgent.llm self = None →
     ∃ state' σ', ExecutorAgent._run_steps self steps state σ = (Ok state', σ')).
Proof.
  intros Hvalid.
  assert (∀ e σ', ExecutorAgent._run_steps self steps state σ = (Raise e, σ') →
           is_Some (ExecutorAgent.llm self)
           ∧ (∃ step, step ∈ steps ∧ PlanStep.tool_name step = None)
           ∧ (raised_by_last_chat e σ'
              ∨ (raised_by_strip e σ' ∧ exn_kind e = AttributeError))) as Hraise.
  { intros e σ' H. unfold ExecutorAgent._run_steps in H.
    unfold mbind at 1, M_bind at 1 in H. simpl in H.
    assert (Hr := run_steps_for_raises self steps state).
    unfold raises_only in Hr.
    specialize (Hr (λ step tn Hin, valid_step_tool step tn
                      (proj1 (Forall_forall _ _) Hvalid step Hin))
                   (mkSys (world σ) (trace σ ++ [EvBatch steps]))).
    rewrite H in Hr. destruct Hr as (Hl & Hs & [Hc|Hc]).
    - split_and!; [done | done | by left].
    - split_and!; [done | done | right]. split; [done|].
      destruct Hc as (m & content & _ & Hstrip).
      destruct content; simpl in Hstrip; by inversion Hstrip. }
  split; [exact Hraise|]. intros Hnone.
  destruct (ExecutorAgent._run_steps self steps state σ) as [[state'|e] σ'] eqn:E.
  - by exists state', σ'.
  - destruct (Hraise e σ' eq_refl) as ([llm Hl] & _). congruence.
Qed.

(** X25. A fix round never fails on a tool and never asks the composer:
    whatever the fix steps are, the only exception that can leave
    [run_fix_steps] is a validation error from rebuilding a fix step as a
    plan step, raised before the batch is entered. *)
Theorem fix_round_raises_only_validation_errors self state fix_steps σ e σ' :
  ExecutorAgent.run_fix_steps self state fix_steps σ = (Raise e, σ') →
  exn_kind e = ValidationError ∧ σ' = σ.
Proof.
  unfold ExecutorAgent.run_fix_steps. unfold mbind at 1, M_bind at 1, lift at 1.
  destruct (res_mapM _ fix_steps) as [pseudo|e'] eqn:Em.
  - intros H. exfalso.
    assert (∀ step, step ∈ pseudo →
              valid_step step ∧ PlanStep.tool_name step ≠ None) as Hps.
    { apply res_mapM_Forall in Em. rewrite Forall_forall in Em.
      intros step [fs Hfs]%Em.
      pose proof (PlanStep_init_Ok _ _ _ _ _ _ _ Hfs) as (-> & _).
      split; [exact Hfs | done]. }
    unfold ExecutorAgent._run_steps in H.
    unfold mbind at 1, M_bind at 1 in H. simpl in H.
    assert (Hr := run_steps_for_raises self pseudo state).
    unfold raises_only in Hr.
    specialize (Hr (λ step tn Hin, valid_step_tool step tn (proj1 (Hps step Hin)))
                   (mkSys (world σ) (trace σ ++ [EvBatch pseudo]))).
    rewrite H in Hr. destruct Hr as (_ & (step & Hin & Hn) & _).
    by apply (Hps step Hin).
  - intros [= <- <-]. split; [|done].
    apply res_mapM_Raise_inv in Em as (fs & _ & Hfs).
    by eapply PlanStep_init_Raise.
Qed.

Lemma fits_plan_step_init fs :
  valid_fix_step fs →
  fits_plan_step fs →
  PlanStep_init (VerifierStep.id fs) (VerifierStep.action fs)
    (Some (VerifierStep.tool_name fs)) (VerifierStep.tool_args fs)
    (VerifierStep.output_key fs) (VerifierStep.depends_on fs)
  = Ok (as_plan_step fs).
Proof.
  intros (t & [= <-] & _ & Hid & Ht)%VerifierStep_init_Ok (Ha & Hk & Hd).
  assert (check_ge "id" 1 (VerifierStep.id fs) = Ok (VerifierStep.id fs)) as E1.
  { unfold check_ge. destruct (1 <=? VerifierStep.id fs) eqn:E; [done | lia]. }
  assert (∀ field v, v ≠ "" → check_min_length field 1 v = Ok v) as E2.
  { intros field [|c v] Hv; done. }
  assert (check_literal "tool_name" ToolName (VerifierStep.tool_name fs)
          = Ok (VerifierStep.tool_name fs)) as E3.
  { unfold check_literal. fold (is_ToolName (VerifierStep.tool_name fs)).
    by rewrite is_ToolName_true. }
  assert (depends_on_no_self (VerifierStep.depends_on fs) (Some (VerifierStep.id fs))
          = Ok (VerifierStep.depends_on fs)) as E4.
  { unfold depends_on_no_self.
    destruct (existsb _ _) eqn:E; [by apply existsb_Zeqb in E|].
    by rewrite andb_false_r. }
  unfold PlanStep_init. cbv zeta.
  rewrite E1, (E2 _ _ Ha), (E2 _ _ Hk), E3. cbn [res_to_option]. by rewrite E4.
Qed.

Lemma unfit_plan_step_init fs s :
  PlanStep_init (VerifierStep.id fs) (VerifierStep.action fs)
    (Some (VerifierStep.tool_name fs)) (VerifierStep.tool_args fs)
    (VerifierStep.output_key fs) (VerifierStep.depends_on fs) = Ok s →
  fits_plan_step fs.
Proof.
  intros (_ & _ & Ha & Hk & _ & Hd)%PlanStep_init_Ok.
  split_and!; [| |done].
  - intros E. rewrite E in Ha. simpl in Ha. lia.
  - intros E. rewrite E in Hk. simpl in Hk. lia.
Qed.

(** X26. A fix step is a valid [VerifierStep] with an action and an
    output key that may be empty, which a plan step does not allow. When
    every fix step has a non-empty action and output key and does not
    depend on itself, the fix round is the batch of the same steps read as
    plan steps; otherwise it raises a validation error and runs
    nothing. *)
Theorem fix_round_runs_the_fix_steps_as_plan_steps self state fix_steps σ :
  Forall valid_fix_step fix_steps →
  (Forall fits_plan_step fix_steps →
   ExecutorAgent.run_fix_steps self state fix_steps σ
   = ExecutorAgent._run_steps self (map as_plan_step fix_steps) state σ)
  ∧ (¬ Forall fits_plan_step fix_steps →
     ∃ e, ExecutorAgent.run_fix_steps self state fix_steps σ = (Raise e, σ)
          ∧ exn_kind e = ValidationError).
Proof.
  intros Hvalid. split.
  - intros Hfit. unfold ExecutorAgent.run_fix_steps.
    assert (res_mapM (λ fs,
              PlanStep_init (VerifierStep.id fs) (VerifierStep.action fs)
                (Some (VerifierStep.tool_name fs)) (VerifierStep.tool_args fs)
                (VerifierStep.output_key fs) (VerifierStep.depends_on fs))
              fix_steps = Ok (map as_plan_step fix_steps)) as ->; [|done].
    induction fix_steps as [|fs rest IH]; simpl; [done|].
    apply Forall_cons in Hvalid as [Hv Hvalid].
    apply Forall_cons in Hfit as [Hf Hfit].
    by rewrite (fits_plan_step_init fs Hv Hf), (IH Hvalid Hfit).
  - intros Hunfit. unfold ExecutorAgent.run_fix_steps.
    unfold mbind at 1, M_bind at 1, lift at 1.
    destruct (res_mapM _ fix_steps) as [pseudo|e] eqn:Em.
    + exfalso. apply Hunfit. apply res_mapM_Ok in Em.
      clear -Em. induction Em as [|fs s rest pseudo Hfs _ IH]; constructor; [|done].
      by eapply unfit_plan_step_init.
    + exists e. split; [done|].
      apply res_mapM_Raise_inv in Em as (fs & _ & Hfs).
      by eapply PlanStep_init_Raise.
Qed.

End executor_more.

(** ** White space around a reply *)

Lemma rstrip_idemp s : rstrip (rstrip s) = rstrip s.
Proof.
  induction s as [|a r IH]; simpl; [done|].
  destruct (rstrip r) as [|b r'] eqn:E.
  - destruct (py_isspace a) eqn:Ea; simpl; [done|]. by rewrite Ea.
  - change (rstrip (String a (String b r')))
      with (match rstrip (String b r') with
            | EmptyString =>
                if py_isspace a then EmptyString else String a EmptyString
            | r'' => String a r''
            end).
    by rewrite IH.
Qed.

Lemma lstrip_starts_clean s : starts_clean (lstrip s).
Proof.
  induction s as [|a r IH]; simpl; [done|].
  destruct (py_isspace a) eqn:Ea; [done|]. simpl. exact Ea.
Qed.

Lemma rstrip_starts_clean s : starts_clean s → starts_clean (rstrip s).
Proof.
  destruct s as [|a r]; simpl; [done|]. intros Ha.
  destruct (rstrip r); [by rewrite Ha | done].
Qed.

Lemma lstrip_clean s : starts_clean s → lstrip s = s.
Proof. destruct s as [|a r]; simpl; [done|]. by intros ->. Qed.

Lemma py_strip_idemp s : py_strip (py_strip s) = py_strip s.
Proof.
  unfold py_strip.
  rewrite (lstrip_clean (rstrip (lstrip s)))
    by apply rstrip_starts_clean, lstrip_starts_clean.
  apply rstrip_idemp.
Qed.

Section parsing_more.
Context `{Ext : Externals}.

(** X30. White space around a model reply never matters to
    [safe_json_loads]: the reply and the stripped reply parse alike. And
    the function fails the way its docstring says: when [json.loads] only
    raises [ValueError]s, so does [safe_json_loads]. *)
Theorem safe_json_loads_ignores_outer_space :
  (∀ text, safe_json_loads (py_strip text) = safe_json_loads text)
  ∧ ((∀ s e, json_loads s = Raise e → is_value_error e = true) →
     ∀ text e, safe_json_loads text = Raise e → is_value_error e = true).
Proof.
  split.
  - intros text. unfold safe_json_loads. cbv zeta. by rewrite py_strip_idemp.
  - intros Hloads text e. unfold safe_json_loads. cbv zeta.
    destruct (json_loads (py_strip text)) as [v|e0]; [discriminate|].
    destruct (re_search_span (py_strip text)) as [candidate|].
    + apply Hloads.
    + by intros [= <-].
Qed.

End parsing_more.

(** ** The orchestrator and the endpoint *)

Section orchestrator_more.
Context `{Ext : Externals}.

Lemma run_fix_steps_one_batch self state fix_steps σ state' σ' :
  ExecutorAgent.run_fix_steps self state fix_steps σ = (Ok state', σ') →
  length (batches (trace σ')) = S (length (batches (trace σ))).
Proof.
  unfold ExecutorAgent.run_fix_steps. intros H.
  apply m_bind_Ok in H as (pseudo & σ1 & Hl & H).
  unfold lift in Hl. injection Hl as _ <-.
  pose proof (run_steps_batches self pseudo state σ) as Hb.
  rewrite H in Hb. simpl in Hb. rewrite Hb, length_app. simpl. lia.
Qed.

Lemma verify_fix_loop_exit fuel executor verifier task plan max_rounds
    state verification rounds σ state' verification' σ' :
  verify_fix_loop fuel executor verifier task plan max_rounds
    state verification rounds σ = (Ok (Some (state', verification')), σ') →
  (∃ σv, VerifierAgent.verify verifier task plan (ExecutionState.results state) σv
         = (Ok verification, σ)) →
  (∃ σv, VerifierAgent.verify verifier task plan (ExecutionState.results state') σv
         = (Ok verification', σ'))
  ∧ ∃ k : nat,
      length (batches (trace σ')) = (length (batches (trace σ)) + k)%nat
      ∧ wants_fix verification' (rounds + Z.of_nat k) max_rounds = false.
Proof.
  revert state verification rounds σ.
  induction fuel as [|fuel IH]; intros state verification rounds σ; simpl;
    destruct (wants_fix verification rounds max_rounds) eqn:Hw.
  - discriminate.
  - intros [= <- <- <-] Hlast. split; [done|].
    exists 0%nat. rewrite Z.add_0_r. split; [lia | done].
  - intros H _. apply m_bind_Ok in H as (st1 & σ1 & H1 & H).
    apply m_bind_Ok in H as (v1 & σ2 & H2 & H).
    apply IH in H as (Hlast & k & Hk & Hexit); [|by exists σ1].
    split; [done|].
    apply run_fix_steps_one_batch in H1.
    pose proof (adds_0_eq _ σ1 (adds_verify verifier task plan
                                  (ExecutionState.results st1))) as Hv.
    rewrite H2 in Hv. simpl in Hv.
    exists (S k). split.
    + rewrite Hk, Hv, H1. lia.
    + by replace (rounds + Z.of_nat (S k)) with (rounds + 1 + Z.of_nat k) by lia.
  - intros [= <- <- <-] Hlast. split; [done|].
    exists 0%nat. rewrite Z.add_0_r. split; [lia | done].
Qed.

(** X28. What a response tells about the run. Its verdict is the one the
    last call of the verifier returned: that call was made on the very
    results the response holds, for the plan the planner gave (the one the
    response holds, dumped), and the run ends where that call ends. The
    number of batches run is the number of rounds, at least one. And if
    that verdict still says [needs_fix] and lists fix steps, the
    orchestrator stopped only because the round budget was used up. *)
Theorem run_task_stops_only_when_done fuel task max_rounds σ resp σ' :
  run_task fuel task max_rounds σ = (Ok (Some resp), σ') →
  ∃ planner executor verifier plan σp state σv (v : VerificationResult.t)
    (rounds : nat),
    _build_agents = Ok (planner, executor, verifier)
    ∧ PlannerAgent.plan planner task σ = (Ok plan, σp)
    ∧ VerifierAgent.verify verifier task plan (ExecutionState.results state) σv
      = (Ok v, σ')
    ∧ resp = RunResponse.mk task (AgentPlan_model_dump plan)
               (ExecutionState.results state)
               (VerificationResult_model_dump v)
               (VerificationResult.final_output v)
               (ExecutionState.logs state)
    ∧ length (batches (trace σ')) = (length (batches (trace σ)) + rounds)%nat
    ∧ (1 ≤ rounds)%nat
    ∧ (VerificationResult.status v = "needs_fix" →
       VerificationResult.fix_steps v ≠ [] →
       max_rounds ≤ Z.of_nat rounds).
Proof.
  unfold run_task. intros H.
  apply m_bind_Ok in H as ([[planner executor] verifier] & σ0 & Hb & H).
  unfold lift in Hb. injection Hb as Hb <-.
  apply m_bind_Ok in H as (plan & σ1 & Hp & H).
  apply m_bind_Ok in H as (state & σ2 & Hr & H).
  apply m_bind_Ok in H as (v0 & σ3 & Hv & H).
  cbv zeta in H.
  apply m_bind_Ok in H as (out & σ4 & Hloop & H).
  destruct out as [[state' v]|]; [|by apply m_ret_Ok in H as [? _]].
  apply m_ret_Ok in H as [[= ->] ->].
  apply verify_fix_loop_exit in Hloop as ((σv & Hlast) & k & Hk & Hexit);
    [|by exists σ2].
  exists planner, executor, verifier, plan, σ1, state', σv, v, (S k).
  split_and!; [done | done | done | done | | lia |].
  - rewrite Hk.
    pose proof (adds_0_eq _ σ2 (adds_verify verifier task plan
                                  (ExecutionState.results state))) as H3.
    rewrite Hv in H3. simpl in H3. rewrite H3.
    pose proof (run_steps_batches executor (AgentPlan.steps plan)
                  (ExecutionState.mk task plan [] ∅ []) σ1) as H2.
    unfold ExecutorAgent.run in Hr. cbv zeta in Hr. rewrite Hr in H2.
    simpl in H2. rewrite H2, length_app.
    pose proof (adds_0_eq _ σ (adds_plan planner task)) as H1.
    rewrite Hp in H1. simpl in H1. rewrite H1. simpl. lia.
  - intros Hs Hfs. unfold wants_fix in Hexit. rewrite Hs in Hexit. simpl in Hexit.
    destruct (VerificationResult.fix_steps v); [done|]. simpl in Hexit.
    apply Z.ltb_ge in Hexit. lia.
Qed.

(** X27. Without [GROQ_API_KEY] in the environment (unset or empty)
    nothing is run: [run_task] raises a [RuntimeError] at once, and the
    endpoint answers with status 400 and that message. *)
Theorem missing_api_key_fails_at_once fuel task max_rounds σ :
  opt_truthy (getenv "GROQ_API_KEY") = false →
  run_task fuel task max_rounds σ
  = (Raise (mkExn RuntimeError missing_key_message), σ)
  ∧ run_endpoint fuel (RunRequest.mk task max_rounds) σ
    = (Ok (Some (inr (HTTPException.mk 400 missing_key_message))), σ).
Proof.
  intros Hkey.
  assert (run_task fuel task max_rounds σ
          = (Raise (mkExn RuntimeError missing_key_message), σ)) as Hrun.
  { unfold run_task, _build_agents. cbv zeta. rewrite Hkey. reflexivity. }
  split; [exact Hrun|].
  unfold run_endpoint. unfold mbind, M_bind, attempt. simpl. by rewrite Hrun.
Qed.

Lemma RunRequest_init_Ok task max_rounds req :
  RunRequest_init task max_rounds = Ok req →
  RunRequest.task req = task
  ∧ task ≠ ""
  ∧ RunRequest.max_rounds req = default 2 max_rounds
  ∧ 1 ≤ RunRequest.max_rounds req ≤ 5.
Proof.
  unfold RunRequest_init. cbv zeta. intros H.
  apply res_bind_Ok in H as (t & [-> Ht]%check_min_length_Ok & H).
  apply res_bind_Ok in H as (n & Hn & [= <-]). simpl.
  assert (task ≠ "") as Hne by (intros ->; simpl in Ht; lia).
  destruct max_rounds as [m|]; simpl.
  - apply res_bind_Ok in Hn as (m' & [-> Hge]%check_ge_Ok & Hle).
    unfold check_le in Hle. destruct (m <=? 5) eqn:E; [|discriminate].
    injection Hle as <-. split_and!; [done | done | done | lia | lia].
  - injection Hn as <-. split_and!; [done | done | done | lia | lia].
Qed.

(** X29. A request that passes [RunRequest] has a non-empty task and a
    round budget from 1 to 5 (2 when left out). On such a request the
    handler always answers: it runs at most as many batches as the budget,
    its loop ends within four iterations, and it either returns the
    response or turns the exception into an HTTP error, 400 for a
    [RuntimeError] (a [RetryableError] is one) and 500 for anything
    else. *)
Theorem endpoint_always_answers task max_rounds req σ :
  RunRequest_init task max_rounds = Ok req →
  (RunRequest.task req ≠ "" ∧ 1 ≤ RunRequest.max_rounds req ≤ 5)
  ∧ ∃ out σ',
      run_endpoint 4 req σ = (Ok (Some out), σ')
      ∧ (∃ bs, batches (trace σ') = batches (trace σ) ++ bs
               ∧ (length bs ≤ Z.to_nat (RunRequest.max_rounds req))%nat)
      ∧ match out with
        | inl resp => RunResponse.task resp = RunRequest.task req
        | inr err =>
            ∃ e, (run_task 4 (RunRequest.task req) (RunRequest.max_rounds req) σ).1
                 = Raise e
                 ∧ HTTPException.detail err = exn_msg e
                 ∧ HTTPException.status_code err
                   = if is_runtime_error e then 400 else 500
        end.
Proof.
  intros (Ht & Hne & _ & Hn)%RunRequest_init_Ok.
  split; [by rewrite Ht|].
  pose proof (adds_run_task 4 (RunRequest.task req) (RunRequest.max_rounds req)
                (proj1 Hn) σ) as Hadds.
  pose proof (run_task_enough_fuel 4 (RunRequest.task req)
                (RunRequest.max_rounds req)) as Hfuel.
  specialize (Hfuel ltac:(lia) σ).
  unfold run_endpoint. unfold mbind, M_bind, attempt.
  destruct (run_task 4 (RunRequest.task req) (RunRequest.max_rounds req) σ)
    as [[[resp|]|e] σ'] eqn:E; simpl in *.
  - exists (inl resp), σ'. split_and!; [done | done |].
    unfold run_task in E.
    apply m_bind_Ok in E as ([[planner executor] verifier] & σ0 & _ & E).
    apply m_bind_Ok in E as (plan & σ1 & _ & E).
    apply m_bind_Ok in E as (state & σ2 & _ & E).
    apply m_bind_Ok in E as (v0 & σ3 & _ & E).
    cbv zeta in E.
    apply m_bind_Ok in E as (out & σ4 & _ & E).
    destruct out as [[state' v]|]; [|by apply m_ret_Ok in E as [? _]].
    by apply m_ret_Ok in E as [[= ->] _].
  - done.
  - destruct (is_runtime_error e) eqn:Er.
    + eexists (inr _), σ'. split_and!; [reflexivity | done |].
      exists e. simpl. by rewrite Er.
    + eexists (inr _), σ'. split_and!; [reflexivity | done |].
      exists e. simpl. by rewrite Er.
Qed.

End orchestrator_more.

(** ** The theorems at work in the scripted world *)

#[local] Existing Instance Demo.ext.

(** C1: the unregistered tool of [Demo.unknown_step] makes the step raise. *)
Lemma unknown_tool_aborts_batch_witness :
  PlanStep.tool_name Demo.unknown_step = Some "stock_quote"
  ∧ _TOOL_REGISTRY (H := Demo.ext) !! "stock_quote" = None
  ∧ ExecutorAgent._deps_ok Demo.unknown_step
      (Demo.fresh "quote for ACME" Demo.weather_plan) = true
  ∧ ExecutorAgent._run_step (H := Demo.ext) Demo.executor Demo.unknown_step
      (Demo.fresh "quote for ACME" Demo.weather_plan)
      (Demo.start Demo.offline)
    = (Raise (mkExn KeyError
                (py_repr (Externals := Demo.ext) (JStr "Unknown tool: stock_quote"))),
       Demo.start Demo.offline).
Proof.
  assert (_TOOL_REGISTRY (H := Demo.ext) !! "stock_quote" = None) as Hreg
    by (vm_compute; reflexivity).
  split_and!; [reflexivity | exact Hreg | reflexivity |].
  exact (proj1 (proj1 (unknown_tool_aborts_batch (Ext := Demo.ext))
                  Demo.executor Demo.unknown_step
                  (Demo.fresh "quote for ACME" Demo.weather_plan)
                  (Demo.start Demo.offline) "stock_quote"
                  eq_refl Hreg eq_refl)).
Defined.

(** C2: a budget of one round, with a verifier that asks for a fix. *)
Lemma round_loop_bounded_witness :
  1 ≤ 1 ≤ 5
  ∧ (∃ bs, batches (trace (run_task (H := Demo.ext) 0 "weather in Paris" 1
                             (Demo.start Demo.offline)).2)
           = batches (trace (Demo.start Demo.offline)) ++ bs
           ∧ (length bs ≤ Z.to_nat 1)%nat)
  ∧ (run_task (H := Demo.ext) 0 "weather in Paris" 1 (Demo.start Demo.offline)).1
    ≠ Ok None.
Proof.
  assert (1 ≤ 1 ≤ 5) as HN by lia.
  pose proof (round_loop_bounded (Ext := Demo.ext) 1 0 "weather in Paris"
                (Demo.start Demo.offline) HN) as (Hb & Hf & _).
  split; [exact HN | split; [exact Hb | apply Hf; simpl; lia]].
Defined.

(** C3: the final step of the weather plan, met with a failed first step. *)
Lemma dependency_gate_skips_witness :
  (∃ dep, dep ∈ PlanStep.depends_on Demo.final_step
          ∧ ExecutionState.step_status
              (ExecutionState.set_status 1 "failed"
                 (Demo.fresh "weather in Paris" Demo.weather_plan)) !! dep
            ≠ Some "ok")
  ∧ ExecutorAgent._run_step (H := Demo.ext) Demo.executor Demo.final_step
      (ExecutionState.set_status 1 "failed"
         (Demo.fresh "weather in Paris" Demo.weather_plan))
      (Demo.start Demo.offline)
    = (Ok (skipped Demo.final_step
             (ExecutionState.set_status 1 "failed"
                (Demo.fresh "weather in Paris" Demo.weather_plan))),
       Demo.start Demo.offline).
Proof.
  assert (∃ dep, dep ∈ PlanStep.depends_on Demo.final_step
                 ∧ ExecutionState.step_status
                     (ExecutionState.set_status 1 "failed"
                        (Demo.fresh "weather in Paris" Demo.weather_plan)) !! dep
                   ≠ Some "ok") as Hdep.
  { exists 1. split; [apply list_elem_of_here | vm_compute; discriminate]. }
  split; [exact Hdep|].
  exact (proj1 (proj1 (proj2 (dependency_gate_skips (Ext := Demo.ext)))
                  Demo.executor Demo.final_step _ (Demo.start Demo.offline) Hdep)).
Defined.

(** C4: the weather plan goes through the constructor. *)
Lemma plan_ends_with_compose_final_witness :
  AgentPlan_init "weather in Paris" [] [Demo.weather_step; Demo.final_step]
  = Ok Demo.weather_plan
  ∧ AgentPlan.steps Demo.weather_plan = [Demo.weather_step; Demo.final_step]
  ∧ ∃ l, last [Demo.weather_step; Demo.final_step] = Some l
         ∧ PlanStep.tool_name l = None ∧ PlanStep.output_key l = "final".
Proof.
  assert (AgentPlan_init "weather in Paris" [] [Demo.weather_step; Demo.final_step]
          = Ok Demo.weather_plan) as Hinit by (vm_compute; reflexivity).
  split; [exact Hinit|].
  exact (proj1 (proj2 (plan_ends_with_compose_final (Ext := Demo.ext)))
           _ _ _ _ Hinit).
Defined.

(** C5: the final step of the weather plan goes through the constructor. *)
Lemma step_and_plan_identifiers_witness :
  PlanStep_init 2 "Summarise the weather" None [] "final" [1] = Ok Demo.final_step
  ∧ PlanStep.id Demo.final_step ∉ PlanStep.depends_on Demo.final_step.
Proof.
  assert (PlanStep_init 2 "Summarise the weather" None [] "final" [1]
          = Ok Demo.final_step) as Hinit by reflexivity.
  split; [exact Hinit|].
  exact (proj1 (step_and_plan_identifiers (Ext := Demo.ext)) _ _ _ _ _ _ _ Hinit).
Defined.

(** C6: the planner, asked in the scripted world. *)
Lemma schema_repair_loop_bounded_witness :
  repair_run (H := Demo.ext) PLANNER_SYSTEM AgentPlan_model_validate
    "PlannerAgent failed to produce valid plan. Last error: "
    [mkMessage "system" PLANNER_SYSTEM;
     mkMessage "user" (planner_user_prompt "weather in Paris")]
    (Demo.start Demo.offline)
    (PlannerAgent.plan (PlannerAgent.mk (GroqClient.mk "gsk" "llama"))
       "weather in Paris" (Demo.start Demo.offline)).
Proof.
  exact (proj1 (schema_repair_loop_bounded (Ext := Demo.ext)) _ _ _).
Defined.

(** C7: a reply that is JSON but for the white space around it. *)
Lemma safe_json_loads_policy_witness :
  json_loads (Externals := Demo.ext) (py_strip "  [1, 2] ") = Ok (JArr [JInt 1; JInt 2])
  ∧ safe_json_loads (H := Demo.ext) "  [1, 2] " = Ok (JArr [JInt 1; JInt 2]).
Proof.
  assert (json_loads (Externals := Demo.ext) (py_strip "  [1, 2] ")
          = Ok (JArr [JInt 1; JInt 2])) as Hl by (vm_compute; reflexivity).
  split; [exact Hl|].
  exact (proj1 (safe_json_loads_policy (Ext := Demo.ext) "  [1, 2] ") _ Hl).
Defined.

(** C8: the result the executor makes out of an exception of the weather
    tool. *)
Lemma tool_result_error_iff_failed_witness :
  ToolResult_init false "weather_current" []
    (Some (exn_msg (mkExn RetryableError "HTTP request failed: connection refused")))
    []
  = Ok (ToolResult.mk false "weather_current" []
          (Some "HTTP request failed: connection refused") [])
  ∧ tool_result_invariant
      (ToolResult.mk false "weather_current" []
         (Some "HTTP request failed: connection refused") []).
Proof.
  assert (ToolResult_init false "weather_current" []
            (Some (exn_msg (mkExn RetryableError
                              "HTTP request failed: connection refused"))) []
          = Ok (ToolResult.mk false "weather_current" []
                  (Some "HTTP request failed: connection refused") [])) as Hinit
    by reflexivity.
  split; [exact Hinit|].
  exact (proj1 (proj2 (tool_result_error_iff_failed (Ext := Demo.ext)))
           _ (mkExn RetryableError "HTTP request failed: connection refused") _ Hinit).
Defined.

(** C9: the batch of the weather plan, run offline on a state that already
    holds a result. *)
Lemma executor_rounds_only_add_witness :
  ∃ state' σ',
    ExecutorAgent._run_steps (H := Demo.ext) Demo.executor
      (AgentPlan.steps Demo.weather_plan)
      (ExecutionState.set_result "earlier" JNull
         (Demo.fresh "weather in Paris" Demo.weather_plan))
      (Demo.start Demo.offline)
    = (Ok state', σ')
    ∧ extends (ExecutionState.set_result "earlier" JNull
                 (Demo.fresh "weather in Paris" Demo.weather_plan)) state'.
Proof.
  destruct (ExecutorAgent._run_steps (H := Demo.ext) Demo.executor
              (AgentPlan.steps Demo.weather_plan)
              (ExecutionState.set_result "earlier" JNull
                 (Demo.fresh "weather in Paris" Demo.weather_plan))
              (Demo.start Demo.offline)) as [[state'|e] σ'] eqn:E.
  - exists state', σ'. split; [reflexivity|].
    exact (proj1 (executor_rounds_only_add (Ext := Demo.ext)) _ _ _ _ _ _ E).
  - assert (is_ok (ExecutorAgent._run_steps (H := Demo.ext) Demo.executor
                     (AgentPlan.steps Demo.weather_plan)
                     (ExecutionState.set_result "earlier" JNull
                        (Demo.fresh "weather in Paris" Demo.weather_plan))
                     (Demo.start Demo.offline)).1 = true) as Hok
      by (vm_compute; reflexivity).
    rewrite E in Hok. discriminate Hok.
Defined.

(** C10: the fix step of [Demo.needs_fix] goes through the constructor. *)
Lemma fix_step_names_a_registered_tool_witness :
  VerifierStep_init 1001 "Get the weather in Paris again" (Some "weather_current")
    [("city", JStr "Paris")] "weather" []
  = Ok Demo.retry_weather
  ∧ 1000 ≤ VerifierStep.id Demo.retry_weather
  ∧ Some "weather_current" = Some (VerifierStep.tool_name Demo.retry_weather)
  ∧ VerifierStep.tool_name Demo.retry_weather ∈ ToolName
  ∧ is_Some (_TOOL_REGISTRY (H := Demo.ext) !! VerifierStep.tool_name Demo.retry_weather).
Proof.
  assert (VerifierStep_init 1001 "Get the weather in Paris again"
            (Some "weather_current") [("city", JStr "Paris")] "weather" []
          = Ok Demo.retry_weather) as Hinit by reflexivity.
  split; [exact Hinit|].
  exact (proj1 (fix_step_names_a_registered_tool (Ext := Demo.ext))
           _ _ _ _ _ _ _ Hinit).
Defined.

(** ** Scenarios of the specification, run *)

(** Budget of one round, weather unavailable: step 1 fails, step 2 is
    skipped, the verifier asks for a fix, and that verdict is what comes
    back; the plan's batch is the only one. *)
Example scenario_one_round :
  let out := run_task (H := Demo.ext) 0 "weather in Paris" 1 (Demo.start Demo.offline) in
  (RunResponse.verification <$> (res_to_option out.1 ≫= id))
  = Some (VerificationResult_model_dump Demo.needs_fix)
  ∧ batches (trace out.2) = [AgentPlan.steps Demo.weather_plan].
Proof. vm_compute. split; reflexivity. Qed.

(** Budget of two rounds: the fix step is the second and last batch. *)
Example scenario_two_rounds :
  let out := run_task (H := Demo.ext) 1 "weather in Paris" 2 (Demo.start Demo.offline) in
  (RunResponse.verification <$> (res_to_option out.1 ≫= id))
  = Some (VerificationResult_model_dump Demo.complete)
  ∧ length (batches (trace out.2)) = 2%nat.
Proof. vm_compute. split; reflexivity. Qed.

(** A first reply that is not JSON costs one repair turn. *)
Example scenario_one_repair :
  let out := PlannerAgent.plan (H := Demo.ext)
               (PlannerAgent.mk (GroqClient.mk "gsk" "llama")) "weather in Paris"
               (Demo.start
                  (Demo.mkScript
                     [Ok (JStr "Sure, here is the plan.");
                      Ok (JStr (Demo.show (JObj (AgentPlan_model_dump Demo.weather_plan))))]
                     [])) in
  out.1 = Ok Demo.weather_plan ∧ length (chats (trace out.2)) = 2%nat.
Proof. vm_compute. split; reflexivity. Qed.

(** The span the pattern takes and the span the specification describes. *)
Example spans_of_two_arrays :
  first_top_level_span "[1] x [2]" = Some "[1]"
  ∧ re_search_span "[1] x [2]" = Some "[1] x [2]"
  ∧ spec_safe_json_loads (H := Demo.ext) "[1] x [2]" = Ok (JArr [JInt 1])
  ∧ is_ok (safe_json_loads (H := Demo.ext) "[1] x [2]") = false.
Proof. vm_compute. split_and!; reflexivity. Qed.

(** A reply without text ([null] content) is a failed attempt like any
    other: the planner asks again, with the repair request made of that
    failure and of the content as [str] prints it. *)
Example scenario_null_content :
  let out := PlannerAgent.plan (H := Demo.ext)
               (PlannerAgent.mk (GroqClient.mk "gsk" "llama")) "weather in Paris"
               (Demo.start
                  (Demo.mkScript
                     [Ok JNull;
                      Ok (JStr (Demo.show (JObj (AgentPlan_model_dump Demo.weather_plan))))]
                     [])) in
  out.1 = Ok Demo.weather_plan
  ∧ (chats (trace out.2)).*1 !! 1%nat
    = Some (repair_messages (PLANNER_SYSTEM (Externals := Demo.ext))
              (mkExn AttributeError "object has no attribute 'strip'")
              (py_str (H := Demo.ext) JNull)).
Proof. vm_compute. split; reflexivity. Qed.

(** ** Further properties at work in the scripted world *)

(** X3: an endpoint that answers the first request with a greeting. *)
Lemma chat_content_read_off_raw_witness :
  GroqClient_chat_http (H := Demo.ext) (Cases.answer Cases.greeting)
    Cases.client Cases.hello 0.1%float 1200 false 0%nat
  = (Ok (LLMResponse.mk (JStr "hi") Cases.greeting_body), 1%nat)
  ∧ ∃ (k : nat) σk r,
      (k < 4)%nat
      ∧ after_retryable k
          (chat_once (H := Demo.ext) (Cases.answer Cases.greeting) Cases.client
             Cases.hello 0.1%float 1200 false) 0%nat
        = Some σk
      ∧ Cases.answer Cases.greeting chat_url (chat_headers Cases.client)
          (chat_payload Cases.client Cases.hello 0.1%float 1200 false) σk
        = (Ok r, 1%nat)
      ∧ transient_status (status_code r) = false
      ∧ Response_ok r = true
      ∧ json r = Ok Cases.greeting_body
      ∧ reply_content (H := Demo.ext) Cases.greeting_body = Ok (JStr "hi").
Proof.
  assert (GroqClient_chat_http (H := Demo.ext) (Cases.answer Cases.greeting)
            Cases.client Cases.hello 0.1%float 1200 false 0%nat
          = (Ok (LLMResponse.mk (JStr "hi") Cases.greeting_body), 1%nat)) as Hrun
    by reflexivity.
  split; [exact Hrun|].
  exact (chat_content_read_off_raw (Ext := Demo.ext) (Cases.answer Cases.greeting)
           Cases.client Cases.hello 0.1%float 1200 false 0%nat _ 1%nat Hrun).
Defined.

(** X4: a 401 from the chat endpoint. *)
Lemma chat_error_status_not_retried_witness :
  transient_status (status_code Cases.denied) = false
  ∧ Response_ok Cases.denied = false
  ∧ GroqClient_chat_http (H := Demo.ext) (Cases.answer Cases.denied)
      Cases.client Cases.hello 0.1%float 1200 false 0%nat
    = (Raise (mkExn RuntimeError
                ("Groq error " +:+ pretty (status_code Cases.denied) +:+ ": "
                 +:+ text Cases.denied)), 1%nat).
Proof.
  split; [reflexivity|]. split; [reflexivity|].
  exact (chat_error_status_not_retried (Ext := Demo.ext)
           (Cases.answer Cases.denied) Cases.client Cases.hello 0.1%float 1200
           false Cases.denied 0%nat 1%nat eq_refl eq_refl eq_refl).
Defined.

(** X5: an endpoint that always answers 503. *)
Lemma chat_gives_up_after_four_requests_witness :
  ∃ e, exn_kind e = RetryableError
       ∧ GroqClient_chat_http (H := Demo.ext) (Cases.answer Cases.busy)
           Cases.client Cases.hello 0.1%float 1200 true 0%nat
         = (Raise e, 4%nat).
Proof.
  exact (chat_gives_up_after_four_requests (Ext := Demo.ext)
           (Cases.answer Cases.busy) Cases.client Cases.hello 0.1%float 1200
           true 0%nat (λ σ0, eq_refl)).
Defined.

(** X9: a repository search without arguments. *)
Lemma missing_argument_makes_no_request_witness :
  blank_argument (H := Demo.ext) [] (required_argument GitHub) = true
  ∧ BaseTool_call (H := Demo.ext) GitHub [] Demo.offline
    = (Ok (ToolResult.mk false "github_repo_search" [] (Some "Missing 'query'") []),
       Demo.offline).
Proof.
  split; [reflexivity|].
  exact (missing_argument_makes_no_request (Ext := Demo.ext) GitHub []
           Demo.offline eq_refl (λ _, eq_refl)).
Defined.

(** X10: [top_n] given as a word. *)
Lemma unreadable_top_n_raises_witness :
  py_int (H := Demo.ext) (dict_get Cases.search_args "top_n" (JInt 5))
  = Raise (mkExn ValueError "invalid literal for int()")
  ∧ GitHubTool.call (H := Demo.ext) Cases.search_args Demo.offline
    = (Raise (mkExn ValueError "invalid literal for int()"), Demo.offline).
Proof.
  assert (py_int (H := Demo.ext) (dict_get Cases.search_args "top_n" (JInt 5))
          = Raise (mkExn ValueError "invalid literal for int()")) as Hn
    by (vm_compute; reflexivity).
  split; [exact Hn|].
  exact (proj1 (unreadable_top_n_raises (Ext := Demo.ext) Cases.search_args _
                  Demo.offline Hn)).
Defined.

(** X11: a page of HTML where NewsAPI and GDELT should answer. *)
Lemma news_body_not_json_is_a_failed_result_witness :
  ∃ detail,
    NewsTool._gdelt_search (H := Demo.ext) "rocq prover" 5 Cases.serves_html
    = (Ok (ToolResult.mk false NewsTool.name []
             (Some ("GDELT parse error: " +:+ detail))
             (NewsTool.failure_meta "gdelt" Cases.html_page)), Cases.served).
Proof.
  exact (proj2 (news_body_not_json_is_a_failed_result (Ext := Demo.ext)
                  (NewsTool.mk "") "rocq prover" 5 Cases.html_page
                  (mkExn JSONDecodeError "Expecting value")
                  Cases.serves_html Cases.served
                  (λ _ _ _, eq_refl) eq_refl eq_refl eq_refl)).
Defined.

(** X12: the same page where GitHub should answer. *)
Lemma github_body_not_json_raises_witness :
  blank_argument (H := Demo.ext) [("query", JStr "rocq")] "query" = false
  ∧ GitHubTool.call (H := Demo.ext) [("query", JStr "rocq")] Cases.serves_html
    = (Raise (mkExn JSONDecodeError "Expecting value"), Cases.served).
Proof.
  split; [reflexivity|].
  exact (github_body_not_json_raises (Ext := Demo.ext) [("query", JStr "rocq")]
           5 Cases.html_page (mkExn JSONDecodeError "Expecting value")
           Cases.serves_html Cases.served
           eq_refl eq_refl (λ _, eq_refl) eq_refl eq_refl).
Defined.

(** X14: a news search without a key, in a world that serves a page of
    HTML and then nothing: GDELT fails to parse, Google News RSS cannot be
    reached, and the failure handed back carries GDELT's error. *)
Lemma news_fallback_is_recorded_witness :
  blank_argument (H := Demo.ext) [("query", JStr "rocq prover")] "query" = false
  ∧ match ask_in_turn
            (news_providers (H := Demo.ext) (NewsTool.mk "")
               (py_strip (py_str (H := Demo.ext)
                            (dict_get [("query", JStr "rocq prover")] "query"
                               (JStr ""))))
               (Z.max 1 (Z.min 5 20)))
            Cases.serves_html with
    | (Raise e, w') =>
        NewsTool.call (H := Demo.ext) (NewsTool.mk "")
          [("query", JStr "rocq prover")] Cases.serves_html = (Raise e, w')
    | (Ok asked, w') =>
        ∃ earlier name res r,
          asked = earlier ++ [(name, res)]
          ∧ NewsTool.call (H := Demo.ext) (NewsTool.mk "")
              [("query", JStr "rocq prover")] Cases.serves_html = (Ok r, w')
          ∧ same_but_meta r res
          ∧ meta_at "provider" r = Some (JStr name)
          ∧ Forall (λ pf : string * ToolResult.t,
                      ToolResult.ok pf.2 = false
                      ∧ meta_at (pf.1 +:+ "_error") r
                        = Some (opt_json (ToolResult.error pf.2))) earlier
          ∧ meta_at "fallback_from" r
            = (if ToolResult.ok res
               then (λ pf : string * ToolResult.t, JStr pf.1) <$> last earlier
               else None)
          ∧ (ToolResult.ok res = false →
             asked.*1
             = (news_providers (H := Demo.ext) (NewsTool.mk "")
                  (py_strip (py_str (H := Demo.ext)
                               (dict_get [("query", JStr "rocq prover")] "query"
                                  (JStr ""))))
                  (Z.max 1 (Z.min 5 20))).*1)
    end.
Proof.
  split; [reflexivity|].
  exact (news_fallback_is_recorded (Ext := Demo.ext) (NewsTool.mk "")
           [("query", JStr "rocq prover")] 5 Cases.serves_html eq_refl eq_refl).
Defined.

(** X15: the weather plan, as sent with its optional fields left out. *)
Lemma plan_dump_validates_to_same_plan_witness :
  AgentPlan_model_validate (H := Demo.ext) Cases.terse_plan = Ok Demo.weather_plan
  ∧ AgentPlan_model_validate (H := Demo.ext)
      (JObj (AgentPlan_model_dump Demo.weather_plan))
    = Ok Demo.weather_plan.
Proof.
  assert (AgentPlan_model_validate (H := Demo.ext) Cases.terse_plan
          = Ok Demo.weather_plan) as Hv by (vm_compute; reflexivity).
  split; [exact Hv|].
  exact (plan_dump_validates_to_same_plan (Ext := Demo.ext) (λ z, eq_refl)
           Cases.terse_plan Demo.weather_plan Hv).
Defined.

(** X16: a verdict that only gives its status. *)
Lemma verdict_dump_validates_to_same_verdict_witness :
  VerificationResult_model_validate (H := Demo.ext) Cases.terse_verdict
  = Ok (VerificationResult.mk "complete" [] [] [])
  ∧ VerificationResult_model_validate (H := Demo.ext)
      (JObj (VerificationResult_model_dump (VerificationResult.mk "complete" [] [] [])))
    = Ok (VerificationResult.mk "complete" [] [] []).
Proof.
  assert (VerificationResult_model_validate (H := Demo.ext) Cases.terse_verdict
          = Ok (VerificationResult.mk "complete" [] [] [])) as Hv by reflexivity.
  split; [exact Hv|].
  exact (verdict_dump_validates_to_same_verdict (Ext := Demo.ext) (λ z, eq_refl)
           Cases.terse_verdict _ Hv).
Defined.

(** X17: a step with a colour. *)
Lemma unknown_keys_are_rejected_witness :
  ("colour", JStr "red") ∈ [("id", JInt 1); ("colour", JStr "red")]
  ∧ rejected (PlanStep_model_validate (H := Demo.ext)
                (JObj [("id", JInt 1); ("colour", JStr "red")])).
Proof.
  assert (("colour", JStr "red") ∈ [("id", JInt 1); ("colour", JStr "red")]) as Hin
    by (apply list_elem_of_further, list_elem_of_here).
  split; [exact Hin|].
  refine (proj1 (proj1 (unknown_keys_are_rejected (Ext := Demo.ext) _ _ _ Hin) _)).
  unfold step_fields. intros H. repeat (apply elem_of_cons in H as [H|H]; [discriminate H|]).
  by apply elem_of_nil in H.
Defined.

(** X19: the search step whose [top_n] is a word: the tool raises, the
    step fails. *)
Lemma tool_exception_is_contained_witness :
  ∃ state',
    ExecutorAgent._run_step (H := Demo.ext) Demo.executor Cases.search_step
      (Demo.fresh "find repositories" Demo.weather_plan) (Demo.start Demo.offline)
    = (Ok state', Demo.start Demo.offline)
    ∧ ExecutionState.step_status state' !! 1 = Some "failed"
    ∧ dict_lookup "repos" (ExecutionState.results state')
      = Some (ToolResult_model_dump
                (ToolResult.mk false "github_repo_search" []
                   (Some "invalid literal for int()") [])).
Proof.
  assert (get_tool (H := Demo.ext) "github_repo_search" = Ok GitHub) as Htool
    by (vm_compute; reflexivity).
  assert (BaseTool_call (H := Demo.ext) GitHub (PlanStep.tool_args Cases.search_step)
            (world (Demo.start Demo.offline))
          = (Raise (mkExn ValueError "invalid literal for int()"), Demo.offline))
    as Hcall by (vm_compute; reflexivity).
  exact (tool_exception_is_contained (Ext := Demo.ext) Demo.executor
           Cases.search_step (Demo.fresh "find repositories" Demo.weather_plan)
           (Demo.start Demo.offline) "github_repo_search" GitHub _ _
           eq_refl eq_refl Htool Hcall).
Defined.

(** X20: a compose step run by an executor whose model replies with a
    [null] content: the step raises, after the one chat turn. *)
Lemma compose_step_stores_text_witness :
  ExecutorAgent._deps_ok Cases.lone_step (Demo.fresh "say hello" Demo.weather_plan)
  = true
  ∧ ∃ messages,
      ExecutorAgent._run_step (H := Demo.ext) Cases.composer Cases.lone_step
        (Demo.fresh "say hello" Demo.weather_plan) (Demo.start Cases.says_null)
      = (throw AttributeError "object has no attribute 'strip'",
         mkSys (H := Demo.ext) (Demo.mkScript [] [])
           [EvChat messages false (Ok JNull)]).
Proof.
  split; [reflexivity|].
  pose proof (compose_step_stores_text (Ext := Demo.ext) Cases.composer
                Cases.lone_step (Demo.fresh "say hello" Demo.weather_plan)
                (Demo.start Cases.says_null) eq_refl eq_refl) as H.
  hnf in H. destruct H as (messages & _ & H). exists messages.
  exact (H (Ok JNull) (Demo.mkScript [] []) eq_refl).
Defined.

Lemma offline_batch_returns :
  Cases.offline_batch = (Ok Cases.offline_state, Cases.offline_batch.2).
Proof.
  assert (is_ok Cases.offline_batch.1 = true) as Hok by (vm_compute; reflexivity).
  unfold Cases.offline_state.
  destruct Cases.offline_batch as [[s|e] σ']; [reflexivity | discriminate Hok].
Qed.

(** X21: the batch of the weather plan, run offline. *)
Lemma batch_gives_every_step_a_status_witness :
  Cases.offline_batch = (Ok Cases.offline_state, Cases.offline_batch.2)
  ∧ ∃ s, ExecutionState.step_status Cases.offline_state !! 2 = Some s
         ∧ s ∈ step_statuses.
Proof.
  split; [exact offline_batch_returns|].
  refine (proj1 (batch_gives_every_step_a_status (Ext := Demo.ext) _ _ _ _ _ _
                   offline_batch_returns 2) _).
  apply list_elem_of_further, list_elem_of_here.
Defined.

(** X22: the same batch: the weather step runs and fails (two lines), the
    final step is skipped (one line). *)
Lemma batch_log_growth_witness :
  NoDup (map PlanStep.id (AgentPlan.steps Demo.weather_plan))
  ∧ length (ExecutionState.logs Cases.offline_state)
    = (length (ExecutionState.logs
                 (Demo.fresh "weather in Paris" Demo.weather_plan))
       + sum_list (map (λ step, if ran_tool Cases.offline_state step then 2 else 1)
                     (AgentPlan.steps Demo.weather_plan)))%nat.
Proof.
  assert (NoDup (map PlanStep.id (AgentPlan.steps Demo.weather_plan))) as Hnd
    by (apply NoDup_cons; split; [by intros [=]%list_elem_of_singleton | apply NoDup_singleton]).
  split; [exact Hnd|].
  exact (proj1 (batch_log_growth (Ext := Demo.ext) _ _ _ _ _ _
                  offline_batch_returns) Hnd).
Defined.

(** X23: the same batch: the weather step fails, and leaves its failed
    result. *)
Lemma unskipped_steps_leave_a_result_witness :
  NoDup (map PlanStep.id (AgentPlan.steps Demo.weather_plan))
  ∧ ExecutionState.step_status Cases.offline_state !! PlanStep.id Demo.weather_step
    ≠ Some "skipped"
  ∧ is_Some (dict_lookup "weather" (ExecutionState.results Cases.offline_state)).
Proof.
  assert (NoDup (map PlanStep.id (AgentPlan.steps Demo.weather_plan))) as Hnd
    by (apply NoDup_cons; split; [by intros [=]%list_elem_of_singleton | apply NoDup_singleton]).
  assert (ExecutionState.step_status Cases.offline_state !! PlanStep.id Demo.weather_step
          ≠ Some "skipped") as Hst by (vm_compute; discriminate).
  split; [exact Hnd|]. split; [exact Hst|].
  exact (unskipped_steps_leave_a_result (Ext := Demo.ext) _ _ _ _ _ _
           Demo.weather_step offline_batch_returns Hnd
           (list_elem_of_here _ _) Hst).
Defined.

(** X24: the weather plan and the executor without a model. *)
Lemma batch_raises_only_what_the_composer_raised_witness :
  Forall valid_step (AgentPlan.steps Demo.weather_plan)
  ∧ ∃ state' σ',
      ExecutorAgent._run_steps (H := Demo.ext) Demo.executor
        (AgentPlan.steps Demo.weather_plan)
        (Demo.fresh "weather in Paris" Demo.weather_plan) (Demo.start Demo.offline)
      = (Ok state', σ').
Proof.
  assert (Forall valid_step (AgentPlan.steps Demo.weather_plan)) as Hv
    by (repeat constructor).
  split; [exact Hv|].
  exact (proj2 (batch_raises_only_what_the_composer_raised (Ext := Demo.ext)
                  Demo.executor _ _ (Demo.start Demo.offline) Hv) eq_refl).
Defined.

(** X25, X26: a fix step without an action. *)
Lemma blank_fix_raises :
  ∃ e, ExecutorAgent.run_fix_steps (H := Demo.ext) Demo.executor
         (Demo.fresh "weather in Paris" Demo.weather_plan) [Cases.blank_fix]
         (Demo.start Demo.offline)
       = (Raise e, Demo.start Demo.offline).
Proof. eexists. reflexivity. Qed.

Lemma fix_round_raises_only_validation_errors_witness :
  ∃ e, ExecutorAgent.run_fix_steps (H := Demo.ext) Demo.executor
         (Demo.fresh "weather in Paris" Demo.weather_plan) [Cases.blank_fix]
         (Demo.start Demo.offline)
       = (Raise e, Demo.start Demo.offline)
       ∧ exn_kind e = ValidationError.
Proof.
  destruct blank_fix_raises as [e He]. exists e. split; [exact He|].
  exact (proj1 (fix_round_raises_only_validation_errors (Ext := Demo.ext)
                  _ _ _ _ _ _ He)).
Defined.

Lemma fix_round_runs_the_fix_steps_as_plan_steps_witness :
  Forall valid_fix_step [Demo.retry_weather]
  ∧ Forall fits_plan_step [Demo.retry_weather]
  ∧ ExecutorAgent.run_fix_steps (H := Demo.ext) Demo.executor
      (Demo.fresh "weather in Paris" Demo.weather_plan) [Demo.retry_weather]
      (Demo.start Demo.offline)
    = ExecutorAgent._run_steps (H := Demo.ext) Demo.executor
        [as_plan_step Demo.retry_weather]
        (Demo.fresh "weather in Paris" Demo.weather_plan) (Demo.start Demo.offline).
Proof.
  assert (Forall valid_fix_step [Demo.retry_weather]) as Hv by (repeat constructor).
  assert (Forall fits_plan_step [Demo.retry_weather]) as Hf.
  { repeat constructor; try discriminate. simpl. apply not_elem_of_nil. }
  split; [exact Hv|]. split; [exact Hf|].
  exact (proj1 (fix_round_runs_the_fix_steps_as_plan_steps (Ext := Demo.ext)
                  Demo.executor _ [Demo.retry_weather] (Demo.start Demo.offline) Hv)
           Hf).
Defined.

(** X27: the scripted world without a key. *)
Lemma missing_api_key_fails_at_once_witness :
  opt_truthy (getenv (Externals := Cases.keyless) "GROQ_API_KEY") = false
  ∧ run_endpoint (H := Cases.keyless) 0
      (RunRequest.mk "weather in Paris" 2)
      (mkSys (H := Cases.keyless) Demo.offline [])
    = (Ok (Some (inr (HTTPException.mk 400 missing_key_message))),
       mkSys (H := Cases.keyless) Demo.offline []).
Proof.
  split; [reflexivity|].
  exact (proj2 (missing_api_key_fails_at_once (Ext := Cases.keyless) 0
                  "weather in Paris" 2 (mkSys (H := Cases.keyless) Demo.offline [])
                  eq_refl)).
Defined.

(** X28: two rounds in the scripted world. *)
Lemma run_task_stops_only_when_done_witness :
  ∃ resp σ',
    run_task (H := Demo.ext) 1 "weather in Paris" 2 (Demo.start Demo.offline)
    = (Ok (Some resp), σ')
    ∧ ∃ planner executor verifier plan σp state σv (v : VerificationResult.t)
        (rounds : nat),
        _build_agents (H := Demo.ext) = Ok (planner, executor, verifier)
        ∧ PlannerAgent.plan planner "weather in Paris" (Demo.start Demo.offline)
          = (Ok plan, σp)
        ∧ VerifierAgent.verify verifier "weather in Paris" plan
            (ExecutionState.results state) σv
          = (Ok v, σ')
        ∧ resp = RunResponse.mk "weather in Paris" (AgentPlan_model_dump plan)
                   (ExecutionState.results state)
                   (VerificationResult_model_dump v)
                   (VerificationResult.final_output v)
                   (ExecutionState.logs state)
        ∧ length (batches (trace σ'))
          = (length (batches (trace (Demo.start Demo.offline))) + rounds)%nat
        ∧ (1 ≤ rounds)%nat
        ∧ (VerificationResult.status v = "needs_fix" →
           VerificationResult.fix_steps v ≠ [] →
           2 ≤ Z.of_nat rounds).
Proof.
  assert (match (run_task (H := Demo.ext) 1 "weather in Paris" 2
                   (Demo.start Demo.offline)).1 with
          | Ok (Some _) => true
          | _ => false
          end = true) as Hok by (vm_compute; reflexivity).
  destruct (run_task (H := Demo.ext) 1 "weather in Paris" 2
              (Demo.start Demo.offline)) as [[[resp|]|e] σ'] eqn:E;
    try discriminate Hok.
  exists resp, σ'. split; [reflexivity|].
  exact (run_task_stops_only_when_done (Ext := Demo.ext) _ _ _ _ _ _ E).
Defined.

(** X29: a request that leaves the round budget out. *)
Lemma endpoint_always_answers_witness :
  RunRequest_init "weather in Paris" None = Ok (RunRequest.mk "weather in Paris" 2)
  ∧ ∃ out σ',
      run_endpoint (H := Demo.ext) 4 (RunRequest.mk "weather in Paris" 2)
        (Demo.start Demo.offline)
      = (Ok (Some out), σ').
Proof.
  split; [reflexivity|].
  destruct (proj2 (endpoint_always_answers (Ext := Demo.ext) "weather in Paris"
                     None _ (Demo.start Demo.offline) eq_refl))
    as (out & σ' & Hrun & _).
  by exists out, σ'.
Defined.
